(** * Bibliotheca: the search proxy and the data-access layer

    The book-release tracker's backend ([server.js], [middleware/auth.js],
    [database/migrate.js]) as Rocq functions, and the properties of its
    rate limiter, cache, result reshaping, account handlers and
    find-or-create / tracking flows.

    Conventions of the embedding.
    - Instants ([Date.now()], ISO timestamps in payloads) are integers:
      milliseconds since the epoch.
    - A JavaScript string is a [string], one character per code unit; a
      value that may be [undefined] (a missing JSON key, a missing header)
      is an [option].
    - The two module-level objects of the server, the cache [Map] and the
      limiter's store, are [gmap]s threaded through the handlers; the
      response object is a record that the middleware chain passes on.
    - The relational store is a record of tables (lists of rows, in
      insertion order) with the sequences behind the [SERIAL] keys; every
      SQL statement of the server is a function on it that returns or
      raises.
    - Every request is processed atomically, one after the other: the
      runtime interleaves requests only at [await] points.
    - What the server takes from libraries and from the runtime (validators,
      hashing, tokens, URL encoding) and PostgreSQL's input functions for
      dates and integers are parameters, grouped in the classes [Platform],
      [Auth] and [Postgres]. The rate-limit library is modelled, and so is
      the length check of the [VARCHAR(n)] columns.
    - [console.log] output is not part of the state. *)

From Stdlib Require Import ZArith QArith Ascii String List Lia.
From stdpp Require Import base option list gmap strings pretty.

Local Open Scope string_scope.
Local Open Scope Z_scope.

(** ** JavaScript primitives used by the handlers *)

Module Js.

(** [WhiteSpace] and [LineTerminator] code units below 256, the ones
    [String.prototype.trim] strips. *)
Definition is_space (c : ascii) : bool :=
  let n := nat_of_ascii c in
  (Nat.eqb n 9 || Nat.eqb n 10 || Nat.eqb n 11 || Nat.eqb n 12
   || Nat.eqb n 13 || Nat.eqb n 32 || Nat.eqb n 160)%bool.

Fixpoint trim_start (s : string) : string :=
  match s with
  | EmptyString => EmptyString
  | String c s' => if is_space c then trim_start s' else s
  end.

Definition trim (s : string) : string :=
  String.rev (trim_start (String.rev (trim_start s))).

(** Truthiness of a possibly-undefined string: [undefined] and [''] are
    falsy. *)
Definition truthy_string (s : option string) : bool :=
  match s with
  | Some s => negb (String.eqb s "")
  | None => false
  end.

(** [s.substring(0, n)]. *)
Definition substring0 (n : nat) (s : string) : string := String.substring 0 n s.

(** [s.replace(pat, rep)] with a string pattern: the first occurrence only. *)
Fixpoint replace (pat rep s : string) : string :=
  if String.prefix pat s
  then rep +:+ String.substring (String.length pat)
                                (String.length s - String.length pat) s
  else match s with
       | EmptyString => EmptyString
       | String c s' => String c (replace pat rep s')
       end.

(** [xs.join(sep)]. *)
Definition join (sep : string) (xs : list string) : string := String.concat sep xs.

(** [x || d] on a possibly-undefined string. *)
Definition or_string (x : option string) (d : string) : string :=
  match x with
  | Some s => if String.eqb s "" then d else s
  | None => d
  end.

(** [String(undefined)], what [undefined + '...'] starts with. *)
Definition undefined_to_string : string := "undefined".

End Js.

(** ** Responses *)

(** A header value as [res.setHeader] stores it: a number or a string. *)
Inductive HeaderVal : Type :=
| HNum (n : Z)
| HStr (s : string).

(** One reshaped search result. *)
Record BookSummary : Type := {
  bs_id : option string;
  bs_googleBooksId : option string;
  bs_title : option string;
  bs_subtitle : option string;
  bs_authors : list string;
  bs_author : string;
  bs_publishedDate : option string;
  bs_description : string;
  bs_cover : option string;
  bs_pageCount : option Z;
  bs_categories : list string;
  bs_series : string;
  bs_averageRating : option Q;
  bs_ratingsCount : option Z;
  bs_language : option string;
  bs_previewLink : option string;
  bs_infoLink : option string
}.

(** [responseData] of the search endpoint. *)
Record ResponseData : Type := {
  rd_books : list BookSummary;
  rd_totalItems : Z;
  rd_query : string
}.

(** The user object echoed by register and login. *)
Record UserView : Type := {
  uv_id : Z;
  uv_email : string;
  uv_name : option string;
  uv_createdAt : Z
}.

(** JSON bodies sent with [res.json]. *)
Inductive Body : Type :=
| BError (error : string)
| BErrorDetails (error details : string)
| BValidation (errors : list string)
| BLimit (error : string) (resetTime : Z)
| BSearch (data : ResponseData)
| BStatus (limit remaining : Z) (resetTime : option Z)
| BHealth (timestamp : Z) (cacheSize : nat)
| BAuth (token : string) (user : UserView)
| BSuccess (message : string).

(** The response object while the middleware chain runs. *)
Record Response : Type := {
  status : Z;
  headers : gmap string HeaderVal;
  body : option Body
}.

Definition fresh_response : Response :=
  {| status := 200; headers := ∅; body := None |}.

Definition set_status (code : Z) (res : Response) : Response :=
  {| status := code; headers := headers res; body := body res |}.

Definition setHeader (name : string) (v : HeaderVal) (res : Response) : Response :=
  {| status := status res; headers := <[name := v]> (headers res); body := body res |}.

Definition getHeader (name : string) (res : Response) : option HeaderVal :=
  headers res !! name.

Definition json (b : Body) (res : Response) : Response :=
  {| status := status res; headers := headers res; body := Some b |}.

(** ** The cache *)

Record CacheEntry (V : Type) : Type := {
  data : V;
  timestamp : Z
}.
Arguments data {V} _.
Arguments timestamp {V} _.

Definition CACHE_TTL : Z := 3600000.

Section Cache.
Context {V : Type}.

(** [cache.set(url, { data, timestamp: Date.now() })]. *)
Definition cache_set (url : string) (v : V) (now : Z)
    (cache : gmap string (CacheEntry V)) : gmap string (CacheEntry V) :=
  <[url := {| data := v; timestamp := now |}]> cache.

(** [getCachedOrFetch]: the value read ([None] is the [null] result) and
    the cache afterwards. The cached values are the objects the handlers
    build, never [null]. *)
Definition getCachedOrFetch (url : string) (now : Z)
    (cache : gmap string (CacheEntry V)) : option V * gmap string (CacheEntry V) :=
  match cache !! url with
  | Some e =>
      if now - timestamp e <? CACHE_TTL then (Some (data e), cache)
      else (None, delete url cache)
  | None => (None, cache)
  end.

(** The hourly [setInterval] sweep. *)
Definition sweep (now : Z) (cache : gmap string (CacheEntry V))
    : gmap string (CacheEntry V) :=
  filter (fun kv => ¬ (now - timestamp (snd kv) > CACHE_TTL)) cache.

End Cache.

(** ** The upstream provider's reply *)

Record ImageLinks : Type := {
  thumbnail : option string
}.

Record VolumeInfo : Type := {
  vi_title : option string;
  vi_subtitle : option string;
  vi_authors : option (list string);
  vi_publishedDate : option string;
  vi_description : option string;
  vi_imageLinks : option ImageLinks;
  vi_pageCount : option Z;
  vi_categories : option (list string);
  vi_averageRating : option Q;
  vi_ratingsCount : option Z;
  vi_language : option string;
  vi_previewLink : option string;
  vi_infoLink : option string
}.

Record Item : Type := {
  item_id : option string;
  volumeInfo : option VolumeInfo
}.

Record SearchJson : Type := {
  items : option (list Item);
  totalItems : option Z
}.

(** What [await response.json()] gives: a parsed document, or a throw. *)
Inductive JsonOutcome : Type :=
| BadJson (message : string)
| Json (doc : SearchJson).

(** What [await fetch(url)] gives: a throw, or a reply with [ok] and
    [status]. *)
Inductive FetchOutcome : Type :=
| NetworkError (message : string)
| Reply (ok : bool) (http_status : Z) (payload : JsonOutcome).

(** ** Requests, environment and process state *)

Inductive Route : Type :=
| SearchRoute (query maxResults startIndex : option string)
| StatusRoute
| HealthRoute.

Record Request : Type := {
  ip : string;
  route : Route
}.

(** What one request observes of the outside: the clock while its
    synchronous part runs, the clock once the upstream reply is in, and what
    the provider answers for a URL. *)
Record Env : Type := {
  now : Z;
  later : Z;
  upstream : string -> FetchOutcome
}.

(** One hit counter of the limiter's store. *)
Record Hits : Type := {
  hits_total : Z;
  hits_reset : Z
}.

(** The two module-level mutable objects of the server. *)
Record World : Type := {
  limiterStore : gmap string Hits;
  cache : gmap string (CacheEntry ResponseData)
}.

Definition with_store (st : gmap string Hits) (w : World) : World :=
  {| limiterStore := st; cache := cache w |}.

Definition with_cache (c : gmap string (CacheEntry ResponseData)) (w : World) : World :=
  {| limiterStore := limiterStore w; cache := c |}.

Definition empty_world : World := {| limiterStore := ∅; cache := ∅ |}.

(** A route handler, and a middleware in front of one. *)
Definition Handler : Type := Request -> Env -> Response -> World -> Response * World.
Definition Middleware : Type := Handler -> Handler.

(** ** The rate limiter *)

(** The options object given to [rateLimit]. [message] is superseded by the
    custom [handler]; [onLimitReached] only logs. *)
Record LimiterOptions : Type := {
  windowMs : Z;
  max : Z;
  standardHeaders : bool;
  legacyHeaders : bool;
  handler : Env -> Response -> Response
}.

Definition DAY_MS : Z := 24 * 60 * 60 * 1000.

Definition LIMIT_ERROR : string :=
  "Daily search limit exceeded (50 searches per day). Please try again tomorrow.".

Definition searchLimiter_options : LimiterOptions :=
  {| windowMs := DAY_MS;
     max := 50;
     standardHeaders := true;
     legacyHeaders := false;
     handler := fun env res =>
       json (BLimit LIMIT_ERROR (now env + DAY_MS)) (set_status 429 res) |}.

(** The runtime and library primitives the server calls but does not
    define. *)
Class Platform : Type := {
  (** how the limiter writes the reset instant of a window into the
      [RateLimit-Reset] header, from the current time and that instant *)
  reset_seconds : Z -> Z -> Z;
  (** [parseInt] on a string; [None] is [NaN] *)
  parseInt_string : string -> option Z;
  encodeURIComponent : string -> string;
  (** [process.env.GOOGLE_BOOKS_API_KEY || '...'] *)
  GOOGLE_BOOKS_API_KEY : string
}.

Section Limiter.
Context `{Platform}.

(** Modelled from the spec: the store of the rate-limit library, which is
    not part of the repository. Per identity it counts the requests of a
    window that starts at the identity's first request and lasts
    [windowMs]. *)
Definition increment (opts : LimiterOptions) (key : string) (t : Z)
    (st : gmap string Hits) : Hits * gmap string Hits :=
  let h :=
    match st !! key with
    | Some h =>
        if t <? hits_reset h
        then {| hits_total := hits_total h + 1; hits_reset := hits_reset h |}
        else {| hits_total := 1; hits_reset := t + windowMs opts |}
    | None => {| hits_total := 1; hits_reset := t + windowMs opts |}
    end in
  (h, <[key := h]> st).

(** Modelled from the spec: the headers through which the limiter exposes
    limit, remaining and reset ([standardHeaders]). *)
Definition rate_headers (opts : LimiterOptions) (t : Z) (h : Hits)
    (res : Response) : Response :=
  if standardHeaders opts then
    setHeader "RateLimit-Reset" (HNum (reset_seconds t (hits_reset h)))
      (setHeader "RateLimit-Remaining" (HNum (Z.max 0 (max opts - hits_total h)))
         (setHeader "RateLimit-Limit" (HNum (max opts)) res))
  else res.

(** Modelled from the spec: the middleware [rateLimit(options)] of the
    rate-limit library. It counts the request, annotates the response,
    and either calls the configured [handler] (count above [max]) or
    hands over to the next handler. *)
Definition rateLimit (opts : LimiterOptions) : Middleware :=
  fun next req env res w =>
    let '(h, st) := increment opts (ip req) (now env) (limiterStore w) in
    let res1 := rate_headers opts (now env) h res in
    let w1 := with_store st w in
    if max opts <? hits_total h then (handler opts env res1, w1)
    else next req env res1 w1.

Definition searchLimiter : Middleware := rateLimit searchLimiter_options.

End Limiter.

(** ** The search proxy *)

Definition GOOGLE_BOOKS_BASE_URL : string :=
  "https://www.googleapis.com/books/v1/volumes".

(** [item.volumeInfo.description?.substring(0, 300)]. *)
Definition description_prefix (d : option string) : option string :=
  match d with
  | Some s => Some (Js.substring0 300 s)
  | None => None
  end.

(** [x + '...'] where [x] may be [undefined]. *)
Definition plus_ellipsis (x : option string) : string :=
  match x with
  | Some s => s +:+ "..."
  | None => Js.undefined_to_string +:+ "..."
  end.

(** [description?.substring(0, 300) + '...' || 'No description available']:
    [+] binds tighter than [||]. *)
Definition description_of (d : option string) : string :=
  Js.or_string (Some (plus_ellipsis (description_prefix d)))
               "No description available".

(** [imageLinks?.thumbnail?.replace('http:', 'https:') || null]. *)
Definition cover_of (links : option ImageLinks) : option string :=
  match links with
  | Some l =>
      match thumbnail l with
      | Some t =>
          let t' := Js.replace "http:" "https:" t in
          if String.eqb t' "" then None else Some t'
      | None => None
      end
  | None => None
  end.

(** [categories?.[0] || 'Standalone']. *)
Definition series_of (cats : option (list string)) : string :=
  match cats with
  | Some (c :: _) => Js.or_string (Some c) "Standalone"
  | _ => "Standalone"
  end.

Definition authors_of (a : option (list string)) : list string :=
  match a with
  | Some l => l
  | None => ["Unknown Author"]
  end.

(** The callback of [data.items?.map]; [None] is the [TypeError] raised by
    [item.volumeInfo.title] when the item has no [volumeInfo]. *)
Definition reshape (item : Item) : option BookSummary :=
  match volumeInfo item with
  | None => None
  | Some vi =>
      Some {| bs_id := item_id item;
              bs_googleBooksId := item_id item;
              bs_title := vi_title vi;
              bs_subtitle := vi_subtitle vi;
              bs_authors := authors_of (vi_authors vi);
              bs_author := Js.join ", " (authors_of (vi_authors vi));
              bs_publishedDate := vi_publishedDate vi;
              bs_description := description_of (vi_description vi);
              bs_cover := cover_of (vi_imageLinks vi);
              bs_pageCount := vi_pageCount vi;
              bs_categories := default [] (vi_categories vi);
              bs_series := series_of (vi_categories vi);
              bs_averageRating := vi_averageRating vi;
              bs_ratingsCount := vi_ratingsCount vi;
              bs_language := vi_language vi;
              bs_previewLink := vi_previewLink vi;
              bs_infoLink := vi_infoLink vi |}
  end.

(** [xs.map(f)] where [f] may throw: the first throw aborts the map. *)
Fixpoint map_throwing {A B : Type} (f : A -> option B) (xs : list A) : option (list B) :=
  match xs with
  | [] => Some []
  | x :: xs' =>
      match f x with
      | None => None
      | Some y =>
          match map_throwing f xs' with
          | None => None
          | Some ys => Some (y :: ys)
          end
      end
  end.

Definition TYPE_ERROR : string :=
  "Cannot read properties of undefined (reading 'title')".

(** [x || 0] on a possibly-undefined number. *)
Definition or_zero (x : option Z) : Z := default 0 x.

(** Truthiness of [res.getHeader(name)]. *)
Definition header_truthy (v : option HeaderVal) : bool :=
  match v with
  | Some (HNum n) => negb (n =? 0)
  | Some (HStr s) => negb (String.eqb s "")
  | None => false
  end.

Section Search.
Context `{Platform}.

(** The resolved upstream URL, which is also the cache key. *)
Definition search_url (query maxResults startIndex : string) : string :=
  GOOGLE_BOOKS_BASE_URL +:+ "?q=" +:+ encodeURIComponent query
    +:+ "&key=" +:+ GOOGLE_BOOKS_API_KEY
    +:+ "&maxResults=" +:+ maxResults
    +:+ "&startIndex=" +:+ startIndex.

(** The [catch] block of the search handler. *)
Definition search_failed (details : string) (res : Response) : Response :=
  json (BErrorDetails "Failed to search books. Please try again later." details)
       (set_status 500 res).

(** The handler of [GET /api/books/search]. *)
Definition searchHandler (query maxResults startIndex : option string) : Handler :=
  fun req env res w =>
    if (negb (Js.truthy_string query)
        || String.eqb (Js.trim (default "" query)) "")%bool
    then (json (BError "Search query is required") (set_status 400 res), w)
    else
      let q := default "" query in
      let url := search_url q (default "15" maxResults) (default "0" startIndex) in
      let '(cachedData, cache1) := getCachedOrFetch url (now env) (cache w) in
      let w1 := with_cache cache1 w in
      match cachedData with
      | Some d => (json (BSearch d) res, w1)
      | None =>
          match upstream env url with
          | NetworkError m => (search_failed m res, w1)
          | Reply ok st payload =>
              if negb ok
              then (search_failed ("Google Books API error: " +:+ pretty st) res, w1)
              else
                match payload with
                | BadJson m => (search_failed m res, w1)
                | Json doc =>
                    match map_throwing reshape (default [] (items doc)) with
                    | None => (search_failed TYPE_ERROR res, w1)
                    | Some books =>
                        let responseData :=
                          {| rd_books := books;
                             rd_totalItems := or_zero (totalItems doc);
                             rd_query := q |} in
                        let w2 := with_cache (cache_set url responseData (later env) cache1) w1 in
                        let remaining := getHeader "RateLimit-Remaining" res in
                        let shown :=
                          if header_truthy remaining
                          then default (HStr "50") remaining
                          else HStr "50" in
                        (json (BSearch responseData)
                              (setHeader "X-Searches-Remaining" shown res), w2)
                    end
                end
          end
      end.

(** [parseInt(x)] on a header value; [None] is [NaN]. *)
Definition parseInt (v : option HeaderVal) : option Z :=
  match v with
  | Some (HNum n) => Some n
  | Some (HStr s) => parseInt_string s
  | None => None
  end.

(** [x || d] on a number that may be [NaN]: [NaN] and [0] are falsy. *)
Definition or_number (x : option Z) (d : Z) : Z :=
  match x with
  | Some 0 => d
  | Some n => n
  | None => d
  end.

(** The largest time value a [Date] holds; [toISOString] raises a
    [RangeError] outside it and on [NaN]. *)
Definition MAX_TIME_VALUE : Z := 8640000000000000.

(** The handler of [GET /api/rate-limit-status]. It has no [try]: a
    [RangeError] reaches the framework's error handler, which answers 500
    without a JSON body. *)
Definition statusHandler : Handler :=
  fun req env res w =>
    let remaining := getHeader "RateLimit-Remaining" res in
    let limit := getHeader "RateLimit-Limit" res in
    let reset := getHeader "RateLimit-Reset" res in
    let answer (resetTime : option Z) :=
      json (BStatus (or_number (parseInt limit) 50)
                    (or_number (parseInt remaining) 50)
                    resetTime) res in
    if header_truthy reset then
      match parseInt reset with
      | Some s =>
          if Z.abs (s * 1000) <=? MAX_TIME_VALUE
          then (answer (Some (s * 1000)), w)
          else (set_status 500 res, w)
      | None => (set_status 500 res, w)
      end
    else (answer None, w).

(** The handler of [GET /api/health] in the server with accounts, whose
    cache holds search documents only. (The older [server.js] keeps the
    volumes of [GET /api/books/:id] in the same [Map], and its
    [cache.size] counts them as well.) *)
Definition healthHandler : Handler :=
  fun req env res w =>
    (json (BHealth (now env) (size (cache w))) res, w).

(** The handler registered for a route, and whether [searchLimiter]
    stands in front of it. *)
Definition route_handler (r : Route) : Handler :=
  match r with
  | SearchRoute query maxResults startIndex => searchHandler query maxResults startIndex
  | StatusRoute => statusHandler
  | HealthRoute => healthHandler
  end.

Definition limited (r : Route) : bool :=
  match r with
  | SearchRoute _ _ _ => true
  | StatusRoute => true
  | HealthRoute => false
  end.

(** The routing table: the limiter stands in front of the search route
    and of the status route, and both use the one [searchLimiter]. *)
Definition serve (req : Request) (env : Env) (w : World) : Response * World :=
  match route req with
  | SearchRoute query maxResults startIndex =>
      searchLimiter (searchHandler query maxResults startIndex) req env fresh_response w
  | StatusRoute => searchLimiter statusHandler req env fresh_response w
  | HealthRoute => healthHandler req env fresh_response w
  end.

(** A run of the server over a sequence of requests. *)
Fixpoint run (trace : list (Request * Env)) (w : World) : World :=
  match trace with
  | [] => w
  | (req, env) :: rest => run rest (snd (serve req env w))
  end.

End Search.

(** ** The relational store *)

(** Rows of the tables of [migrate.js]. Columns that no statement of the
    server writes or reads keep their defaults and are left out. A row
    holds what the column types let through (see [varchar], [date_opt],
    [int4_in] below): a [VARCHAR] value is a string, a [DATE] is kept as
    the text that was accepted. *)
Record UserRow : Type := {
  user_id : Z;
  user_email : string;
  user_password_hash : string;
  user_name : option string;
  user_created_at : Z
}.

Record AuthorRow : Type := {
  author_id : Z;
  author_name : string
}.

Record SeriesRow : Type := {
  series_id : Z;
  series_name : string
}.

Record BookRow : Type := {
  book_id : Z;
  book_google_books_id : option string;
  book_title : string;
  book_cover_url : option string;
  book_published_date : option string;
  book_release_date : option string;
  book_series_id : option Z
}.

Record BookAuthorRow : Type := {
  ba_book_id : Z;
  ba_author_id : Z;
  ba_author_order : Z
}.

Record TrackedBookRow : Type := {
  utb_id : Z;
  utb_user_id : Z;
  utb_book_id : Z
}.

Record TrackedAuthorRow : Type := {
  uta_id : Z;
  uta_user_id : Z;
  uta_author_id : Z
}.

(** The tables, in insertion order, and the sequences behind the [SERIAL]
    keys. *)
Record DB : Type := {
  users : list UserRow;
  users_seq : Z;
  authors : list AuthorRow;
  authors_seq : Z;
  series : list SeriesRow;
  series_seq : Z;
  books : list BookRow;
  books_seq : Z;
  book_authors : list BookAuthorRow;
  user_tracked_books : list TrackedBookRow;
  user_tracked_books_seq : Z;
  user_tracked_authors : list TrackedAuthorRow;
  user_tracked_authors_seq : Z
}.

Definition empty_db : DB :=
  {| users := []; users_seq := 1;
     authors := []; authors_seq := 1;
     series := []; series_seq := 1;
     books := []; books_seq := 1;
     book_authors := [];
     user_tracked_books := []; user_tracked_books_seq := 1;
     user_tracked_authors := []; user_tracked_authors_seq := 1 |}.

(** *** Statements: state passing with raised errors

    No statement of the server runs inside a transaction, so what a handler
    wrote before a statement raises stays written. *)

Inductive Outcome (A : Type) : Type :=
| Returned (a : A)
| Raised.
Arguments Returned {A} _.
Arguments Raised {A}.

Definition Sql (A : Type) : Type := DB -> Outcome A * DB.

Definition ret {A : Type} (a : A) : Sql A := fun db => (Returned a, db).

Definition bind {A B : Type} (m : Sql A) (k : A -> Sql B) : Sql B :=
  fun db =>
    match m db with
    | (Returned a, db') => k a db'
    | (Raised, db') => (Raised, db')
    end.

Notation "'let!' x ':=' m 'in' k" := (bind m (fun x => k))
  (at level 10, x name, m at level 100, k at level 200).
Notation "'do!' m 'in' k" := (bind m (fun _ => k))
  (at level 10, m at level 100, k at level 200).

(** A statement that is refused before it runs: nothing is written. *)
Definition raise {A : Type} : Sql A := fun db => (Raised, db).

(** A statement whose parameter has to be converted first: it runs on the
    converted value, and is refused when there is none. *)
Definition coerced {A B : Type} (v : option A) (k : A -> Sql B) : Sql B :=
  match v with
  | Some a => k a
  | None => raise
  end.

(** Field updates of the store. *)
Definition set_users (rows : list UserRow) (seq : Z) (db : DB) : DB :=
  {| users := rows; users_seq := seq;
     authors := authors db; authors_seq := authors_seq db;
     series := series db; series_seq := series_seq db;
     books := books db; books_seq := books_seq db;
     book_authors := book_authors db;
     user_tracked_books := user_tracked_books db;
     user_tracked_books_seq := user_tracked_books_seq db;
     user_tracked_authors := user_tracked_authors db;
     user_tracked_authors_seq := user_tracked_authors_seq db |}.

Definition set_authors (rows : list AuthorRow) (seq : Z) (db : DB) : DB :=
  {| users := users db; users_seq := users_seq db;
     authors := rows; authors_seq := seq;
     series := series db; series_seq := series_seq db;
     books := books db; books_seq := books_seq db;
     book_authors := book_authors db;
     user_tracked_books := user_tracked_books db;
     user_tracked_books_seq := user_tracked_books_seq db;
     user_tracked_authors := user_tracked_authors db;
     user_tracked_authors_seq := user_tracked_authors_seq db |}.

Definition set_series (rows : list SeriesRow) (seq : Z) (db : DB) : DB :=
  {| users := users db; users_seq := users_seq db;
     authors := authors db; authors_seq := authors_seq db;
     series := rows; series_seq := seq;
     books := books db; books_seq := books_seq db;
     book_authors := book_authors db;
     user_tracked_books := user_tracked_books db;
     user_tracked_books_seq := user_tracked_books_seq db;
     user_tracked_authors := user_tracked_authors db;
     user_tracked_authors_seq := user_tracked_authors_seq db |}.

Definition set_books (rows : list BookRow) (seq : Z) (db : DB) : DB :=
  {| users := users db; users_seq := users_seq db;
     authors := authors db; authors_seq := authors_seq db;
     series := series db; series_seq := series_seq db;
     books := rows; books_seq := seq;
     book_authors := book_authors db;
     user_tracked_books := user_tracked_books db;
     user_tracked_books_seq := user_tracked_books_seq db;
     user_tracked_authors := user_tracked_authors db;
     user_tracked_authors_seq := user_tracked_authors_seq db |}.

Definition set_book_authors (rows : list BookAuthorRow) (db : DB) : DB :=
  {| users := users db; users_seq := users_seq db;
     authors := authors db; authors_seq := authors_seq db;
     series := series db; series_seq := series_seq db;
     books := books db; books_seq := books_seq db;
     book_authors := rows;
     user_tracked_books := user_tracked_books db;
     user_tracked_books_seq := user_tracked_books_seq db;
     user_tracked_authors := user_tracked_authors db;
     user_tracked_authors_seq := user_tracked_authors_seq db |}.

Definition set_user_tracked_books (rows : list TrackedBookRow) (seq : Z) (db : DB) : DB :=
  {| users := users db; users_seq := users_seq db;
     authors := authors db; authors_seq := authors_seq db;
     series := series db; series_seq := series_seq db;
     books := books db; books_seq := books_seq db;
     book_authors := book_authors db;
     user_tracked_books := rows;
     user_tracked_books_seq := seq;
     user_tracked_authors := user_tracked_authors db;
     user_tracked_authors_seq := user_tracked_authors_seq db |}.

Definition set_user_tracked_authors (rows : list TrackedAuthorRow) (seq : Z) (db : DB) : DB :=
  {| users := users db; users_seq := users_seq db;
     authors := authors db; authors_seq := authors_seq db;
     series := series db; series_seq := series_seq db;
     books := books db; books_seq := books_seq db;
     book_authors := book_authors db;
     user_tracked_books := user_tracked_books db;
     user_tracked_books_seq := user_tracked_books_seq db;
     user_tracked_authors := rows;
     user_tracked_authors_seq := seq |}.

(** Existence tests behind the [REFERENCES] clauses. *)
Definition user_exists (uid : Z) (db : DB) : bool :=
  existsb (fun u => user_id u =? uid) (users db).
Definition book_exists (bid : Z) (db : DB) : bool :=
  existsb (fun b => book_id b =? bid) (books db).
Definition author_exists (aid : Z) (db : DB) : bool :=
  existsb (fun a => author_id a =? aid) (authors db).
Definition series_exists (sid : Z) (db : DB) : bool :=
  existsb (fun s => series_id s =? sid) (series db).

(** *** Column types

    The driver sends every parameter as text and PostgreSQL converts it to
    the type of its column when it binds and plans the statement; a value
    the type does not hold raises before a row or a sequence is touched.

    Texts are taken to be free of the NUL character, which PostgreSQL
    accepts in no text, and of characters beyond the Basic Multilingual
    Plane, which JavaScript counts as two units and PostgreSQL as one
    character. The [SERIAL] sequences are taken not to run out, and the
    user id of a token to lie within 32 bits. *)

(** PostgreSQL's input syntax for [DATE] and [INTEGER] parameters: whether
    a text is accepted as a date, and the integer a text denotes, of
    whatever size. *)
Class Postgres : Type := {
  date_in : string -> bool;
  integer_in : string -> option Z
}.

(** An [INTEGER] parameter: the text has to denote an integer, and the
    integer has to lie within 32 bits. *)
Definition int4_in `{Postgres} (s : string) : option Z :=
  match integer_in s with
  | Some n => if ((-2147483648 <=? n) && (n <=? 2147483647))%bool then Some n else None
  | None => None
  end.

Fixpoint all_spaces (s : string) : bool :=
  match s with
  | EmptyString => true
  | String c s' => (Ascii.eqb c " "%char && all_spaces s')%bool
  end.

(** Assignment to a [VARCHAR(n)] column: a longer value is an error, unless
    the excess characters are all spaces, which are cut off. *)
Definition varchar (n : nat) (s : string) : option string :=
  if (String.length s <=? n)%nat then Some s
  else if all_spaces (String.substring n (String.length s - n) s)
       then Some (String.substring 0 n s)
       else None.

(** A nullable [VARCHAR(n)] parameter; [undefined] and [null] are sent as
    [NULL]. *)
Definition varchar_opt (n : nat) (s : option string) : option (option string) :=
  match s with
  | None => Some None
  | Some s => match varchar n s with
              | Some s' => Some (Some s')
              | None => None
              end
  end.

(** A nullable [DATE] parameter. The row keeps the text that was accepted. *)
Definition date_opt `{Postgres} (d : option string) : option (option string) :=
  match d with
  | None => Some None
  | Some s => if date_in s then Some (Some s) else None
  end.

(** [SELECT id FROM users WHERE email = $1] and
    [SELECT id, email, name, password_hash, created_at FROM users WHERE email = $1]. *)
Definition select_users_by_email (email : string) : Sql (list UserRow) :=
  fun db => (Returned (List.filter (fun u => String.eqb (user_email u) email) (users db)), db).

(** [INSERT INTO users (email, password_hash, name) VALUES ($1, $2, $3)
     RETURNING id, email, name, created_at] on values of the columns'
    types. The sequence advances even when [UNIQUE(email)] rejects the
    row. *)
Definition insert_user_row (email hash : string) (name : option string) (t : Z) : Sql UserRow :=
  fun db =>
    let id := users_seq db in
    if existsb (fun u => String.eqb (user_email u) email) (users db)
    then (Raised, set_users (users db) (id + 1) db)
    else
      let row := {| user_id := id; user_email := email; user_password_hash := hash;
                    user_name := name; user_created_at := t |} in
      (Returned row, set_users (users db ++ [row]) (id + 1) db).

(** The statement as the handler issues it: [email], [password_hash] and
    [name] are [VARCHAR(255)]. *)
Definition insert_user (email hash : string) (name : option string) (t : Z) : Sql UserRow :=
  coerced (varchar 255 email) (fun email' =>
  coerced (varchar 255 hash) (fun hash' =>
  coerced (varchar_opt 255 name) (fun name' =>
  insert_user_row email' hash' name' t))).

(** [SELECT id FROM books WHERE google_books_id = $1]. *)
Definition select_book_ids (gid : string) : Sql (list Z) :=
  fun db =>
    (Returned (List.map book_id
       (List.filter (fun b => match book_google_books_id b with
                              | Some g => String.eqb g gid
                              | None => false
                              end) (books db))), db).

(** [INSERT INTO books (google_books_id, title, cover_url, published_date,
     release_date) VALUES ($1, $2, $3, $4, $5) RETURNING id] on values of
    the columns' types. *)
Definition insert_book_row (gid title : string) (cover publishedDate releaseDate : option string)
    : Sql Z :=
  fun db =>
    let id := books_seq db in
    if existsb (fun b => match book_google_books_id b with
                         | Some g => String.eqb g gid
                         | None => false
                         end) (books db)
    then (Raised, set_books (books db) (id + 1) db)
    else
      let row := {| book_id := id; book_google_books_id := Some gid; book_title := title;
                    book_cover_url := cover; book_published_date := publishedDate;
                    book_release_date := releaseDate; book_series_id := None |} in
      (Returned id, set_books (books db ++ [row]) (id + 1) db).

(** The statement as the handler issues it: [google_books_id] is
    [VARCHAR(255)], [title] and [cover_url] are [VARCHAR(500)],
    [published_date] and [release_date] are [DATE]. *)
Definition insert_book `{Postgres} (gid title : string)
    (cover publishedDate releaseDate : option string) : Sql Z :=
  coerced (varchar 255 gid) (fun gid' =>
  coerced (varchar 500 title) (fun title' =>
  coerced (varchar_opt 500 cover) (fun cover' =>
  coerced (date_opt publishedDate) (fun publishedDate' =>
  coerced (date_opt releaseDate) (fun releaseDate' =>
  insert_book_row gid' title' cover' publishedDate' releaseDate'))))).

(** [INSERT INTO t (name) VALUES ($1)
     ON CONFLICT (name) DO UPDATE SET name = $1 RETURNING id] on the rows
    of a table [t] with a [SERIAL] id and [UNIQUE(name)]: the id returned
    and the rows afterwards. The default of [id], [seq], is drawn from the
    sequence before the conflict is detected; on a conflict the existing
    row is rewritten with the same name and its id is returned. *)
Section Upsert.
Context {R : Type} (id_of : R -> Z) (name_of : R -> string) (make : Z -> string -> R).

Definition upsert_by_name (name : string) (seq : Z) (rows : list R) : Z * list R :=
  match List.find (fun r => String.eqb (name_of r) name) rows with
  | Some r =>
      (id_of r,
       List.map (fun r' => if String.eqb (name_of r') name then make (id_of r') name else r')
                rows)
  | None => (seq, (rows ++ [make seq name])%list)
  end.

End Upsert.

(** [INSERT INTO authors (name) VALUES ($1)
     ON CONFLICT (name) DO UPDATE SET name = $1 RETURNING id] on a value of
    the column's type. *)
Definition upsert_author_row (name : string) : Sql Z :=
  fun db =>
    let '(id, rows) :=
      upsert_by_name author_id author_name Build_AuthorRow name (authors_seq db) (authors db) in
    (Returned id, set_authors rows (authors_seq db + 1) db).

(** The statement as the handlers issue it: [authors.name] is
    [VARCHAR(255)]. *)
Definition upsert_author (name : string) : Sql Z :=
  coerced (varchar 255 name) upsert_author_row.

(** [INSERT INTO series (name) VALUES ($1)
     ON CONFLICT (name) DO UPDATE SET name = $1 RETURNING id] on a value of
    the column's type. *)
Definition upsert_series_row (name : string) : Sql Z :=
  fun db =>
    let '(id, rows) :=
      upsert_by_name series_id series_name Build_SeriesRow name (series_seq db) (series db) in
    (Returned id, set_series rows (series_seq db + 1) db).

(** The statement as the handler issues it: [series.name] is
    [VARCHAR(255)]. *)
Definition upsert_series (name : string) : Sql Z :=
  coerced (varchar 255 name) upsert_series_row.

(** [INSERT INTO book_authors (book_id, author_id, author_order)
     VALUES ($1, $2, $3) ON CONFLICT DO NOTHING]: a row with the same
    primary key [(book_id, author_id)] makes the insert a no-op. *)
Definition insert_book_author (bid aid order : Z) : Sql unit :=
  fun db =>
    if existsb (fun r => (ba_book_id r =? bid) && (ba_author_id r =? aid))%bool
               (book_authors db)
    then (Returned tt, db)
    else if (book_exists bid db && author_exists aid db)%bool
    then (Returned tt,
          set_book_authors (book_authors db ++
            [{| ba_book_id := bid; ba_author_id := aid; ba_author_order := order |}]) db)
    else (Raised, db).

(** [UPDATE books SET series_id = $1 WHERE id = $2]. *)
Definition update_book_series (sid bid : Z) : Sql unit :=
  fun db =>
    if negb (book_exists bid db) then (Returned tt, db)
    else if series_exists sid db
    then (Returned tt,
          set_books (List.map (fun b => if book_id b =? bid
                                        then {| book_id := book_id b;
                                                book_google_books_id := book_google_books_id b;
                                                book_title := book_title b;
                                                book_cover_url := book_cover_url b;
                                                book_published_date := book_published_date b;
                                                book_release_date := book_release_date b;
                                                book_series_id := Some sid |}
                                        else b) (books db)) (books_seq db) db)
    else (Raised, db).

(** [INSERT INTO user_tracked_books (user_id, book_id) VALUES ($1, $2)
     ON CONFLICT DO NOTHING]. *)
Definition insert_user_tracked_book (uid bid : Z) : Sql unit :=
  fun db =>
    let id := user_tracked_books_seq db in
    if existsb (fun r => (utb_user_id r =? uid) && (utb_book_id r =? bid))%bool
               (user_tracked_books db)
    then (Returned tt, set_user_tracked_books (user_tracked_books db) (id + 1) db)
    else if (user_exists uid db && book_exists bid db)%bool
    then (Returned tt,
          set_user_tracked_books (user_tracked_books db ++
            [{| utb_id := id; utb_user_id := uid; utb_book_id := bid |}]) (id + 1) db)
    else (Raised, set_user_tracked_books (user_tracked_books db) (id + 1) db).

(** [INSERT INTO user_tracked_authors (user_id, author_id) VALUES ($1, $2)
     ON CONFLICT DO NOTHING]. *)
Definition insert_user_tracked_author (uid aid : Z) : Sql unit :=
  fun db =>
    let id := user_tracked_authors_seq db in
    if existsb (fun r => (uta_user_id r =? uid) && (uta_author_id r =? aid))%bool
               (user_tracked_authors db)
    then (Returned tt, set_user_tracked_authors (user_tracked_authors db) (id + 1) db)
    else if (user_exists uid db && author_exists aid db)%bool
    then (Returned tt,
          set_user_tracked_authors (user_tracked_authors db ++
            [{| uta_id := id; uta_user_id := uid; uta_author_id := aid |}]) (id + 1) db)
    else (Raised, set_user_tracked_authors (user_tracked_authors db) (id + 1) db).

(** [DELETE FROM user_tracked_books WHERE user_id = $1 AND book_id = $2]
    on an [INTEGER] book id. *)
Definition delete_user_tracked_book_row (uid bid : Z) : Sql unit :=
  fun db =>
    (Returned tt,
     set_user_tracked_books
       (List.filter (fun r => negb ((utb_user_id r =? uid) && (utb_book_id r =? bid)))
                    (user_tracked_books db))
       (user_tracked_books_seq db) db).

(** The statement as the handler issues it: the book id is the text of the
    URL segment [:bookId], which is compared with an [INTEGER] column. *)
Definition delete_user_tracked_book `{Postgres} (uid : Z) (bookId : string) : Sql unit :=
  coerced (int4_in bookId) (delete_user_tracked_book_row uid).

(** [DELETE FROM user_tracked_authors WHERE user_id = $1 AND author_id = $2]
    on an [INTEGER] author id. *)
Definition delete_user_tracked_author_row (uid aid : Z) : Sql unit :=
  fun db =>
    (Returned tt,
     set_user_tracked_authors
       (List.filter (fun r => negb ((uta_user_id r =? uid) && (uta_author_id r =? aid)))
                    (user_tracked_authors db))
       (user_tracked_authors_seq db) db).

(** The statement as the handler issues it: the author id is the text of
    the URL segment [:authorId]. *)
Definition delete_user_tracked_author `{Postgres} (uid : Z) (authorId : string) : Sql unit :=
  coerced (int4_in authorId) (delete_user_tracked_author_row uid).

(** ** Accounts and tokens ([middleware/auth.js], validators) *)

(** The cryptographic and validation primitives, which the server takes
    from libraries. *)
Class Auth : Type := {
  (** the validator [isEmail()] *)
  isEmail : string -> bool;
  (** the sanitizer [normalizeEmail()] *)
  normalizeEmail : string -> string;
  (** [bcrypt.hash(password, rounds)], with the salt it draws made explicit *)
  bcrypt_hash : string -> Z -> string -> string;
  (** [bcrypt.compare(password, hash)] *)
  bcrypt_compare : string -> string -> bool;
  (** [jwt.sign({ userId, email }, secret, { expiresIn: '30d' })] at a time *)
  jwt_sign : Z -> string -> string -> Z -> string;
  (** [jwt.verify(token, secret)] at a time: the claims, or a throw *)
  jwt_verify : string -> string -> Z -> option (Z * string);
  (** [process.env.JWT_SECRET || '...'] *)
  JWT_SECRET : string
}.

Definition SALT_ROUNDS : Z := 10.

Record RegisterBody : Type := {
  reg_email : option string;
  reg_password : option string;
  reg_name : option string
}.

(** A JSON value of a request body. *)
#[local] Unset Elimination Schemes.
Inductive JsonValue : Type :=
| JNull
| JBool (b : bool)
| JNumber (n : Q)
| JString (s : string)
| JArray (items : list JsonValue)
| JObject (members : list (string * JsonValue)).
#[local] Set Elimination Schemes.

(** The body of a login request. [login_password] is whatever JSON value
    the request holds under [password], or [None] when it holds none. *)
Record LoginBody : Type := {
  login_email : option string;
  login_password : option JsonValue
}.

(** What an account request observes of the outside: the clock and the
    salt the hash draws. *)
Record AuthEnv : Type := {
  auth_now : Z;
  auth_salt : string
}.

(** [s.split(' ')]. *)
Fixpoint split_spaces (cur : string) (s : string) : list string :=
  match s with
  | EmptyString => [String.rev cur]
  | String c s' =>
      if Ascii.eqb c " "%char then String.rev cur :: split_spaces EmptyString s'
      else split_spaces (String c cur) s'
  end.

(** [await] of a promise that may reject. *)
Definition await {A : Type} (v : option A) : Sql A := coerced v ret.

(** Runs a handler body inside [try]; the [catch] block answers [failed]. *)
Definition try_catch (failed : Response) (m : Sql Response) (db : DB) : Response * DB :=
  match m db with
  | (Returned r, db') => (r, db')
  | (Raised, db') => (failed, db')
  end.

Definition error_response (code : Z) (message : string) : Response :=
  json (BError message) (set_status code fresh_response).

Definition user_view (u : UserRow) : UserView :=
  {| uv_id := user_id u; uv_email := user_email u; uv_name := user_name u;
     uv_createdAt := user_created_at u |}.

Section Accounts.
Context `{Auth}.

Definition hashPassword (password salt : string) : string :=
  bcrypt_hash password SALT_ROUNDS salt.

(** [bcrypt.compare] rejects data that is not a string: the result is
    [None] when the promise rejects. *)
Definition comparePassword (password : JsonValue) (hash : string) : option bool :=
  match password with
  | JString s => Some (bcrypt_compare s hash)
  | _ => None
  end.

Definition generateToken (userId : Z) (email : string) (t : Z) : string :=
  jwt_sign userId email JWT_SECRET t.

Definition verifyToken (token : string) (t : Z) : option (Z * string) :=
  jwt_verify token JWT_SECRET t.

(** [authenticateToken]: the claims of the bearer token, or the response
    that ends the request. *)
Definition authenticateToken (authorization : option string) (t : Z)
    : (Z * string) + Response :=
  let token :=
    match authorization with
    | Some h => if String.eqb h "" then None else split_spaces EmptyString h !! 1%nat
    | None => None
    end in
  if negb (Js.truthy_string token) then inr (error_response 401 "Access token required")
  else
    match verifyToken (default "" token) t with
    | None => inr (error_response 403 "Invalid or expired token")
    | Some claims => inl claims
    end.

(** The validation chain of [POST /api/auth/register]: the fields whose
    validators fail. *)
Definition register_errors (b : RegisterBody) : list string :=
  (if isEmail (default "" (reg_email b)) then [] else ["email"])
  ++ (if (6 <=? String.length (default "" (reg_password b)))%nat then [] else ["password"]).

(** The handler of [POST /api/auth/register]. *)
Definition register (b : RegisterBody) (env : AuthEnv) (db : DB) : Response * DB :=
  match register_errors b with
  | _ :: _ => (json (BValidation (register_errors b)) (set_status 400 fresh_response), db)
  | [] =>
      let email := normalizeEmail (default "" (reg_email b)) in
      let password := default "" (reg_password b) in
      let name :=
        match reg_name b with
        | Some n => if String.eqb (Js.trim n) "" then None else Some (Js.trim n)
        | None => None
        end in
      try_catch (error_response 500 "Failed to register user")
        (let! existingUser := select_users_by_email email in
         if (0 <? length existingUser)%nat
         then ret (error_response 400 "Email already registered")
         else
           let passwordHash := hashPassword password (auth_salt env) in
           let! user := insert_user email passwordHash name (auth_now env) in
           let token := generateToken (user_id user) (user_email user) (auth_now env) in
           ret (json (BAuth token (user_view user)) (set_status 201 fresh_response)))
        db
  end.

(** The validation chain of [POST /api/auth/login]; [exists()] accepts
    every value but [undefined]. *)
Definition login_errors (b : LoginBody) : list string :=
  (if isEmail (default "" (login_email b)) then [] else ["email"])
  ++ (match login_password b with Some _ => [] | None => ["password"] end).

(** The handler of [POST /api/auth/login]. *)
Definition login (b : LoginBody) (env : AuthEnv) (db : DB) : Response * DB :=
  match login_errors b with
  | _ :: _ => (json (BValidation (login_errors b)) (set_status 400 fresh_response), db)
  | [] =>
      let email := normalizeEmail (default "" (login_email b)) in
      let password := default JNull (login_password b) in
      try_catch (error_response 500 "Failed to login")
        (let! result := select_users_by_email email in
         match result with
         | [] => ret (error_response 401 "Invalid email or password")
         | user :: _ =>
             let! isValidPassword :=
               await (comparePassword password (user_password_hash user)) in
             if negb isValidPassword
             then ret (error_response 401 "Invalid email or password")
             else
               let token := generateToken (user_id user) (user_email user) (auth_now env) in
               ret (json (BAuth token (user_view user)) fresh_response)
         end)
        db
  end.

End Accounts.

(** ** Tracking *)

Record TrackBookBody : Type := {
  googleBooksId : string;
  title : string;
  tb_authors : option (list string);
  cover : option string;
  publishedDate : option string;
  releaseDate : option string;
  tb_series : option string
}.

(** The loop [for (let i = 0; i < authors.length; i++)] of the track-book
    handler, from index [i] on. *)
Fixpoint link_authors (bookId : Z) (i : Z) (names : list string) : Sql unit :=
  match names with
  | [] => ret tt
  | authorName :: rest =>
      let! authorId := upsert_author authorName in
      do! insert_book_author bookId authorId (i + 1) in
      link_authors bookId (i + 1) rest
  end.

(** The branch of the track-book handler that creates the book: the insert,
    the authors, the series. *)
Definition create_book `{Postgres} (b : TrackBookBody) : Sql Z :=
  let! newBook := insert_book (googleBooksId b) (title b) (cover b)
                              (publishedDate b) (releaseDate b) in
  do! match tb_authors b with
      | Some (a :: l) => link_authors newBook 0 (a :: l)
      | _ => ret tt
      end in
  do! if (Js.truthy_string (tb_series b)
          && negb (String.eqb (default "" (tb_series b)) "Standalone"))%bool
      then
        let! seriesId := upsert_series (default "" (tb_series b)) in
        update_book_series seriesId newBook
      else ret tt in
  ret newBook.

(** The [try] block of [POST /api/tracking/books] for the authenticated
    [userId]. *)
Definition trackBook_body `{Postgres} (userId : Z) (b : TrackBookBody) : Sql Response :=
  let! bookResult := select_book_ids (googleBooksId b) in
  let! bookId :=
    match bookResult with
    | [] => create_book b
    | id :: _ => ret id
    end in
  do! insert_user_tracked_book userId bookId in
  ret (json (BSuccess "Book tracked successfully") fresh_response).

Definition trackBook `{Postgres} (userId : Z) (b : TrackBookBody) (db : DB) : Response * DB :=
  try_catch (error_response 500 "Failed to track book") (trackBook_body userId b) db.

(** The handler of [POST /api/tracking/authors]. *)
Definition trackAuthor (userId : Z) (authorName : string) (db : DB) : Response * DB :=
  try_catch (error_response 500 "Failed to track author")
    (let! authorId := upsert_author authorName in
     do! insert_user_tracked_author userId authorId in
     ret (json (BSuccess "Author tracked successfully") fresh_response))
    db.

(** The handler of [DELETE /api/tracking/books/:bookId]; [bookId] is the
    URL segment. *)
Definition untrackBook `{Postgres} (userId : Z) (bookId : string) (db : DB) : Response * DB :=
  try_catch (error_response 500 "Failed to untrack book")
    (do! delete_user_tracked_book userId bookId in
     ret (json (BSuccess "Book untracked") fresh_response))
    db.

(** The handler of [DELETE /api/tracking/authors/:authorId]; [authorId] is
    the URL segment. *)
Definition untrackAuthor `{Postgres} (userId : Z) (authorId : string) (db : DB)
    : Response * DB :=
  try_catch (error_response 500 "Failed to untrack author")
    (do! delete_user_tracked_author userId authorId in
     ret (json (BSuccess "Author untracked") fresh_response))
    db.

Section Routes.
Context `{Auth} `{Postgres}.

(** [app.post('/api/tracking/books', authenticateToken, ...)]. *)
Definition post_tracking_books (authorization : option string) (b : TrackBookBody)
    (t : Z) (db : DB) : Response * DB :=
  match authenticateToken authorization t with
  | inl (userId, _) => trackBook userId b db
  | inr refused => (refused, db)
  end.

(** [app.post('/api/tracking/authors', authenticateToken, ...)]. *)
Definition post_tracking_authors (authorization : option string) (authorName : string)
    (t : Z) (db : DB) : Response * DB :=
  match authenticateToken authorization t with
  | inl (userId, _) => trackAuthor userId authorName db
  | inr refused => (refused, db)
  end.

End Routes.

(** ** Vocabulary of the properties *)

(** The constraints of [migrate.js] that the statements rely on, and the
    freshness of the sequences. *)
Record db_inv (db : DB) : Prop := {
  users_email_unique : List.NoDup (List.map user_email (users db));
  authors_name_unique : List.NoDup (List.map author_name (authors db));
  authors_id_unique : List.NoDup (List.map author_id (authors db));
  authors_id_fresh : forall a, In a (authors db) -> author_id a < authors_seq db;
  series_name_unique : List.NoDup (List.map series_name (series db));
  books_id_fresh : forall b, In b (books db) -> book_id b < books_seq db;
  book_authors_book : forall r, In r (book_authors db) -> book_exists (ba_book_id r) db = true;
  book_authors_author :
    forall r, In r (book_authors db) -> author_exists (ba_author_id r) db = true;
  tracked_books_unique :
    List.NoDup (List.map (fun r => (utb_user_id r, utb_book_id r)) (user_tracked_books db))
}.



Definition tracking_rows (uid bid : Z) (db : DB) : list TrackedBookRow :=
  List.filter (fun r => (utb_user_id r =? uid) && (utb_book_id r =? bid))%bool
              (user_tracked_books db).

(** What [SELECT id FROM books WHERE google_books_id = $1] depends on: the
    id and the external id of every book. *)
Definition book_keys (db : DB) : list (Z * option string) :=
  List.map (fun b => (book_id b, book_google_books_id b)) (books db).

Definition ids_with (gid : string) (keys : list (Z * option string)) : list Z :=
  List.map fst (List.filter (fun k => match snd k with
                                      | Some g => String.eqb g gid
                                      | None => false
                                      end) keys).









(** The two ways a well-formed login fails: no user has the (normalized)
    email, or the first user that has it has another password. *)
Definition unknown_email `{Auth} (b : LoginBody) (db : DB) : Prop :=
  List.filter (fun u => String.eqb (user_email u) (normalizeEmail (default "" (login_email b))))
              (users db) = [].

Definition wrong_password `{Auth} (b : LoginBody) (db : DB) : Prop :=
  exists u rest,
    List.filter (fun u => String.eqb (user_email u) (normalizeEmail (default "" (login_email b))))
                (users db) = u :: rest
    /\ comparePassword (default JNull (login_password b)) (user_password_hash u) = Some false.

(** The (normalized) email of a registration is already in [users]. *)
Definition email_taken `{Auth} (b : RegisterBody) (db : DB) : Prop :=
  exists u, In u (users db) /\ user_email u = normalizeEmail (default "" (reg_email b)).

(** The gated requests of [who] in a trace. *)
Definition hits_of (who : string) (trace : list (Request * Env)) : Z :=
  Z.of_nat (length (List.filter
    (fun re => (limited (route (fst re)) && String.eqb (ip (fst re)) who)%bool) trace)).

(** Every gated request of [who] in the trace arrives before [deadline]. *)
Definition within_window (who : string) (deadline : Z) (trace : list (Request * Env)) : Prop :=
  Forall (fun re => limited (route (fst re)) = true -> ip (fst re) = who ->
                    now (snd re) < deadline) trace.

(** No window of [who] is open at time [t]. *)
Definition window_closed (who : string) (t : Z) (w : World) : Prop :=
  match limiterStore w !! who with
  | Some h => hits_reset h <= t
  | None => True
  end.

(** The response as the limiter hands it over for the [n]-th request of a
    window that ends at [reset]. *)
Definition annotated `{Platform} (t n reset : Z) : Response :=
  rate_headers searchLimiter_options t {| hits_total := n; hits_reset := reset |} fresh_response.

(** The rejection of the limiter at time [t]. *)
Definition rejection `{Platform} (t n reset : Z) : Response :=
  json (BLimit LIMIT_ERROR (t + DAY_MS)) (set_status 429 (annotated t n reset)).

(** The guard [!query || query.trim() === ''] of the search handler. *)
Definition query_rejected (query : option string) : bool :=
  (negb (Js.truthy_string query) || String.eqb (Js.trim (default "" query)) "")%bool.

Definition url_of `{Platform} (query maxResults startIndex : option string) : string :=
  search_url (default "" query) (default "15" maxResults) (default "0" startIndex).


(** The pair a tracking row stands for. *)
Definition pair_of (r : TrackedBookRow) : Z * Z := (utb_user_id r, utb_book_id r).

(** A statement or handler body keeps a property of the store, whether it
    returns or raises. *)
Definition preserves {A : Type} (P : DB -> Prop) (m : Sql A) : Prop :=
  forall db, P db -> P (snd (m db)).

(** The requests that write to the store, and the stores the server can
    reach from the empty one. *)
Inductive Operation : Type :=
| OpRegister (b : RegisterBody) (env : AuthEnv)
| OpLogin (b : LoginBody) (env : AuthEnv)
| OpTrackBook (userId : Z) (b : TrackBookBody)
| OpTrackAuthor (userId : Z) (authorName : string)
| OpUntrackBook (userId : Z) (bookId : string)
| OpUntrackAuthor (userId : Z) (authorId : string).

Definition perform `{Auth} `{Postgres} (op : Operation) (db : DB) : Response * DB :=
  match op with
  | OpRegister b env => register b env db
  | OpLogin b env => login b env db
  | OpTrackBook userId b => trackBook userId b db
  | OpTrackAuthor userId authorName => trackAuthor userId authorName db
  | OpUntrackBook userId bookId => untrackBook userId bookId db
  | OpUntrackAuthor userId authorId => untrackAuthor userId authorId db
  end.

Inductive reachable `{Auth} `{Postgres} : DB -> Prop :=
| reachable_empty : reachable empty_db
| reachable_step op db : reachable db -> reachable (snd (perform op db)).

(** ** Stand-ins for the external primitives, for concrete runs *)

Module Sample.

Definition platform : Platform :=
  {| reset_seconds := fun _ reset => reset / 1000;
     parseInt_string := fun _ => None;
     encodeURIComponent := fun s => s;
     GOOGLE_BOOKS_API_KEY := "KEY" |}.

Definition auth : Auth :=
  {| isEmail := fun s => negb (String.eqb s "");
     normalizeEmail := fun s => s;
     bcrypt_hash := fun password _ salt => salt +:+ "$" +:+ password;
     bcrypt_compare := fun password hash => String.eqb hash ("salt$" +:+ password);
     jwt_sign := fun userId email _ _ => "token:" +:+ email;
     jwt_verify := fun token _ _ => if String.eqb token "token:a@b.com" then Some (1, "a@b.com") else None;
     JWT_SECRET := "secret" |}.

Definition client : string := "203.0.113.7".

Definition env (t : Z) : Env :=
  {| now := t; later := t + 40; upstream := fun _ => NetworkError "unreachable" |}.

Definition status_request : Request := {| ip := client; route := StatusRoute |}.

Definition search_request : Request :=
  {| ip := client; route := SearchRoute (Some "dune") None None |}.

Definition no_description : VolumeInfo :=
  {| vi_title := Some "Dune"; vi_subtitle := None; vi_authors := Some ["Frank Herbert"];
     vi_publishedDate := Some "1965"; vi_description := None; vi_imageLinks := None;
     vi_pageCount := Some 412; vi_categories := None; vi_averageRating := None;
     vi_ratingsCount := None; vi_language := Some "en"; vi_previewLink := None;
     vi_infoLink := None |}.

Definition dune : Item := {| item_id := Some "B1"; volumeInfo := Some no_description |}.

Definition dune_reply : SearchJson := {| items := Some [dune]; totalItems := Some 1 |}.

Definition env_ok (t : Z) : Env :=
  {| now := t; later := t + 40; upstream := fun _ => Reply true 200 (Json dune_reply) |}.

Definition auth_env : AuthEnv := {| auth_now := 1000; auth_salt := "salt" |}.

(** Dates are taken to be the texts of ten characters, and integers the
    non-empty texts of decimal digits. *)
Fixpoint digits_value (acc : Z) (s : string) : option Z :=
  match s with
  | EmptyString => Some acc
  | String c s' =>
      let d := Z.of_nat (nat_of_ascii c) - 48 in
      if ((0 <=? d) && (d <=? 9))%bool then digits_value (10 * acc + d) s' else None
  end.

Definition decimal (s : string) : option Z :=
  if String.eqb s "" then None else digits_value 0 s.

Definition postgres : Postgres :=
  {| date_in := fun s => (String.length s =? 10)%nat;
     integer_in := decimal |}.

Definition alice : UserRow :=
  {| user_id := 1; user_email := "a@b.com"; user_password_hash := "salt$secret1";
     user_name := None; user_created_at := 0 |}.

Definition db_alice : DB := set_users [alice] 2 empty_db.

Definition book_x1 (names : list string) : TrackBookBody :=
  {| googleBooksId := "X1"; title := "A Book"; tb_authors := Some names;
     cover := None; publishedDate := None; releaseDate := None; tb_series := None |}.

End Sample.

(** ** The book-detail endpoint ([GET /api/books/:id])

    The endpoint shares the cache [Map] with search. Its keys have another
    shape than the search keys ([detail_key_is_no_search_key] below), so the
    entries it reads are the ones it wrote: they are kept in a map of their
    own. *)

Record Identifier : Type := {
  id_type : option string;
  id_identifier : option string
}.

(** [volumeInfo] of a single volume: the fields of a search item, and the
    ones only the detail view reads. [vd_large] is [imageLinks.large]. *)
Record VolumeDetail : Type := {
  vd_info : VolumeInfo;
  vd_large : option string;
  vd_publisher : option string;
  vd_industryIdentifiers : option (list Identifier)
}.

Record DetailJson : Type := {
  dj_id : option string;
  dj_volumeInfo : option VolumeDetail
}.

Inductive DetailPayload : Type :=
| DetailBadJson (message : string)
| DetailDoc (doc : DetailJson).

Inductive DetailFetch : Type :=
| DetailNetworkError (message : string)
| DetailReply (ok : bool) (http_status : Z) (payload : DetailPayload).

Record DetailEnv : Type := {
  d_now : Z;
  d_later : Z;
  d_upstream : string -> DetailFetch
}.

(** The [book] object of the detail view. *)
Record BookDetail : Type := {
  bd_id : option string;
  bd_googleBooksId : option string;
  bd_title : option string;
  bd_subtitle : option string;
  bd_authors : list string;
  bd_author : string;
  bd_publishedDate : option string;
  bd_description : string;
  bd_cover : option string;
  bd_largeCover : option string;
  bd_pageCount : option Z;
  bd_categories : list string;
  bd_averageRating : option Q;
  bd_ratingsCount : option Z;
  bd_language : option string;
  bd_previewLink : option string;
  bd_infoLink : option string;
  bd_publisher : option string;
  bd_isbn : option string
}.

(** What the detail handler sends: the book with status 200, or status 500
    with the error "Failed to fetch book details" and these details. *)
Inductive DetailAnswer : Type :=
| DetailOk (book : BookDetail)
| DetailFailed (details : string).

(** [imageLinks?.large?.replace('http:', 'https:') || null]. *)
Definition large_cover_of (vd : VolumeDetail) : option string :=
  match vi_imageLinks (vd_info vd) with
  | Some _ =>
      match vd_large vd with
      | Some l =>
          let l' := Js.replace "http:" "https:" l in
          if String.eqb l' "" then None else Some l'
      | None => None
      end
  | None => None
  end.

(** [industryIdentifiers?.find(id => id.type === 'ISBN_13')?.identifier]. *)
Definition isbn_of (ids : option (list Identifier)) : option string :=
  match ids with
  | Some l =>
      match List.find (fun i => match id_type i with
                                | Some t => String.eqb t "ISBN_13"
                                | None => false
                                end) l with
      | Some i => id_identifier i
      | None => None
      end
  | None => None
  end.

(** The object literal of the detail handler; [None] is the [TypeError] of
    [data.volumeInfo.title] on a document without [volumeInfo]. *)
Definition detail_of (doc : DetailJson) : option BookDetail :=
  match dj_volumeInfo doc with
  | None => None
  | Some vd =>
      let vi := vd_info vd in
      Some {| bd_id := dj_id doc;
              bd_googleBooksId := dj_id doc;
              bd_title := vi_title vi;
              bd_subtitle := vi_subtitle vi;
              bd_authors := authors_of (vi_authors vi);
              bd_author := Js.join ", " (authors_of (vi_authors vi));
              bd_publishedDate := vi_publishedDate vi;
              bd_description := Js.or_string (vi_description vi) "No description available";
              bd_cover := cover_of (vi_imageLinks vi);
              bd_largeCover := large_cover_of vd;
              bd_pageCount := vi_pageCount vi;
              bd_categories := default [] (vi_categories vi);
              bd_averageRating := vi_averageRating vi;
              bd_ratingsCount := vi_ratingsCount vi;
              bd_language := vi_language vi;
              bd_previewLink := vi_previewLink vi;
              bd_infoLink := vi_infoLink vi;
              bd_publisher := vd_publisher vd;
              bd_isbn := isbn_of (vd_industryIdentifiers vd) |}
  end.

(** The resolved URL of a volume, which is its cache key. *)
Definition book_url `{Platform} (id : string) : string :=
  GOOGLE_BOOKS_BASE_URL +:+ "/" +:+ id +:+ "?key=" +:+ GOOGLE_BOOKS_API_KEY.

(** The handler of [GET /api/books/:id]. *)
Definition bookHandler `{Platform} (id : string) (env : DetailEnv)
    (c : gmap string (CacheEntry BookDetail)) : DetailAnswer * gmap string (CacheEntry BookDetail) :=
  let url := book_url id in
  let '(cachedData, c1) := getCachedOrFetch url (d_now env) c in
  match cachedData with
  | Some book => (DetailOk book, c1)
  | None =>
      match d_upstream env url with
      | DetailNetworkError m => (DetailFailed m, c1)
      | DetailReply ok st payload =>
          if negb ok then (DetailFailed ("Google Books API error: " +:+ pretty st), c1)
          else
            match payload with
            | DetailBadJson m => (DetailFailed m, c1)
            | DetailDoc doc =>
                match detail_of doc with
                | None => (DetailFailed TYPE_ERROR, c1)
                | Some book => (DetailOk book, cache_set url book (d_later env) c1)
                end
            end
      end
  end.

(** ** The permissive guard *)

(** The token of an [authorization] header: [authHeader &&
    authHeader.split(' ')[1]]. *)
Definition bearer_token (authorization : option string) : option string :=
  match authorization with
  | Some h => if String.eqb h "" then None else split_spaces EmptyString h !! 1%nat
  | None => None
  end.

(** [optionalAuth]: it always calls [next]; the result is what it stored in
    [req.user], if anything. *)
Definition optionalAuth `{Auth} (authorization : option string) (t : Z) : option (Z * string) :=
  if Js.truthy_string (bearer_token authorization)
  then verifyToken (default "" (bearer_token authorization)) t
  else None.

(** ** More vocabulary *)

(** A string without a space. *)
Fixpoint spaceless (s : string) : bool :=
  match s with
  | EmptyString => true
  | String c s' => (negb (Ascii.eqb c " "%char) && spaceless s')%bool
  end.

(** Every character of the string is one that [trim] strips. *)
Fixpoint blank (s : string) : bool :=
  match s with
  | EmptyString => true
  | String c s' => (Js.is_space c && blank s')%bool
  end.

(** A request to the health route. *)
Definition is_health (re : Request * Env) : bool :=
  match route (fst re) with
  | HealthRoute => true
  | _ => false
  end.

(** The pair a tracked-author row stands for, and the rows of a pair. *)
Definition author_pair_of (r : TrackedAuthorRow) : Z * Z := (uta_user_id r, uta_author_id r).

Definition author_tracking_rows (uid aid : Z) (db : DB) : list TrackedAuthorRow :=
  List.filter (fun r => (uta_user_id r =? uid) && (uta_author_id r =? aid))%bool
              (user_tracked_authors db).

(** Every tracking row points at an existing user and at an existing book
    or author, and no (user, author) pair is tracked twice: the
    [REFERENCES] and [UNIQUE] clauses of the two tracking tables. *)
Record tracking_inv (db : DB) : Prop := {
  tracked_books_refer :
    forall r, In r (user_tracked_books db) ->
      user_exists (utb_user_id r) db = true /\ book_exists (utb_book_id r) db = true;
  tracked_authors_refer :
    forall r, In r (user_tracked_authors db) ->
      user_exists (uta_user_id r) db = true /\ author_exists (uta_author_id r) db = true;
  tracked_authors_unique :
    List.NoDup (List.map author_pair_of (user_tracked_authors db))
}.







(** More stand-ins for concrete runs. *)
Module Fixture.

Definition identifiers : list Identifier :=
  [ {| id_type := Some "ISBN_10"; id_identifier := Some "0441013597" |};
    {| id_type := Some "ISBN_13"; id_identifier := Some "9780441013593" |} ].

Definition volume : VolumeDetail :=
  {| vd_info := Sample.no_description; vd_large := None; vd_publisher := Some "Ace";
     vd_industryIdentifiers := Some identifiers |}.

Definition reply : DetailJson := {| dj_id := Some "B1"; dj_volumeInfo := Some volume |}.

Definition env_ok (t : Z) : DetailEnv :=
  {| d_now := t; d_later := t + 40;
     d_upstream := fun _ => DetailReply true 200 (DetailDoc reply) |}.

Definition env_down (t : Z) : DetailEnv :=
  {| d_now := t; d_later := t + 40;
     d_upstream := fun _ => DetailNetworkError "unreachable" |}.


Definition health_request : Request := {| ip := Sample.client; route := HealthRoute |}.

Definition no_books : gmap string (CacheEntry BookDetail) := ∅.

Definition newcomer : RegisterBody :=
  {| reg_email := Some "c@d.org"; reg_password := Some "hunter22"; reg_name := Some " Carol " |}.

(** A name of 256 characters. *)
Definition long_name : string := string_of_list_ascii (List.repeat "a"%char 256).



End Fixture.

(** * Properties *)

(** ** The cache *)

Section CacheFacts.
Context {V : Type}.
Implicit Types (c : gmap string (CacheEntry V)) (url : string) (v : V).

Lemma getCachedOrFetch_fresh c url e t :
  c !! url = Some e -> t - timestamp e < CACHE_TTL ->
  getCachedOrFetch url t c = (Some (data e), c).
Proof.
  intros Hc Hage. unfold getCachedOrFetch. rewrite Hc.
  destruct (Z.ltb_spec (t - timestamp e) CACHE_TTL); [reflexivity | lia].
Qed.

Lemma getCachedOrFetch_stale c url e t :
  c !! url = Some e -> CACHE_TTL <= t - timestamp e ->
  getCachedOrFetch url t c = (None, delete url c).
Proof.
  intros Hc Hage. unfold getCachedOrFetch. rewrite Hc.
  destruct (Z.ltb_spec (t - timestamp e) CACHE_TTL); [lia | reflexivity].
Qed.

Lemma getCachedOrFetch_miss c url t :
  c !! url = None -> getCachedOrFetch url t c = (None, c).
Proof. intros Hc. unfold getCachedOrFetch. now rewrite Hc. Qed.

(** A read never touches another key. *)
Lemma getCachedOrFetch_other c url url' t :
  url <> url' -> snd (getCachedOrFetch url t c) !! url' = c !! url'.
Proof.
  intros Hne. unfold getCachedOrFetch.
  destruct (c !! url) as [e|]; [|reflexivity].
  destruct (t - timestamp e <? CACHE_TTL); simpl; [reflexivity|].
  now apply lookup_delete_ne.
Qed.

(** C2. An entry stored at time [T] is returned verbatim, and kept, by a
    read at [T + d] when [d < CACHE_TTL]; a read at [T + d] with
    [d >= CACHE_TTL] returns nothing and removes the entry; a read of a
    key that is not present returns nothing and leaves the cache as it
    was. The time-to-live is one hour, in milliseconds. *)
Theorem cache_entry_lifetime c url v T d :
  (d < CACHE_TTL ->
     getCachedOrFetch url (T + d) (cache_set url v T c) = (Some v, cache_set url v T c)
     /\ cache_set url v T c !! url = Some {| data := v; timestamp := T |})
  /\ (CACHE_TTL <= d ->
     fst (getCachedOrFetch url (T + d) (cache_set url v T c)) = None
     /\ snd (getCachedOrFetch url (T + d) (cache_set url v T c)) !! url = None
     /\ snd (getCachedOrFetch url (T + d) (cache_set url v T c)) = delete url c)
  /\ (forall t, c !! url = None -> getCachedOrFetch url t c = (None, c))
  /\ CACHE_TTL = 60 * 60 * 1000.
Proof.
  assert (Hset : cache_set url v T c !! url = Some {| data := v; timestamp := T |})
    by apply lookup_insert_eq.
  split; [|split; [|split; [|reflexivity]]].
  - intros Hd. split; [|exact Hset].
    rewrite (getCachedOrFetch_fresh _ _ _ _ Hset); simpl; [reflexivity | lia].
  - intros Hd.
    rewrite (getCachedOrFetch_stale _ _ _ _ Hset) by (simpl; lia). simpl.
    split; [reflexivity|]. split; [apply lookup_delete_eq|].
    unfold cache_set. apply delete_insert_eq.
  - intros t Hc. now apply getCachedOrFetch_miss.
Qed.

End CacheFacts.

(** The entry of C2 at concrete instants: read one millisecond before and
    exactly at the time-to-live, and a read of an absent key. *)
Lemma cache_entry_lifetime_witness :
  getCachedOrFetch "k" (5000 + 3599999) (cache_set "k" 7%nat 5000 ∅)
    = (Some 7%nat, cache_set "k" 7%nat 5000 ∅)
  /\ fst (getCachedOrFetch "k" (5000 + 3600000) (cache_set "k" 7%nat 5000 ∅)) = None
  /\ getCachedOrFetch "k" 5000 (∅ : gmap string (CacheEntry nat)) = (None, ∅).
Proof.
  pose proof (cache_entry_lifetime (∅ : gmap string (CacheEntry nat)) "k" 7%nat 5000 3599999)
    as [Hfresh _].
  pose proof (cache_entry_lifetime (∅ : gmap string (CacheEntry nat)) "k" 7%nat 5000 3600000)
    as [_ [Hstale [Hmiss _]]].
  split; [apply Hfresh; unfold CACHE_TTL; lia|].
  split; [apply Hstale; unfold CACHE_TTL; lia|].
  apply Hmiss. apply lookup_empty.
Defined.

(** ** The rate limiter *)

Section LimiterFacts.
Context `{Platform}.

Lemma increment_open opts key t st n reset :
  st !! key = Some {| hits_total := n; hits_reset := reset |} -> t < reset ->
  increment opts key t st =
    ({| hits_total := n + 1; hits_reset := reset |},
     <[key := {| hits_total := n + 1; hits_reset := reset |}]> st).
Proof.
  intros Hst Ht. unfold increment. rewrite Hst. simpl.
  destruct (Z.ltb_spec t reset); [reflexivity | lia].
Qed.

Lemma increment_closed opts key t st :
  match st !! key with Some h => hits_reset h <= t | None => True end ->
  increment opts key t st =
    ({| hits_total := 1; hits_reset := t + windowMs opts |},
     <[key := {| hits_total := 1; hits_reset := t + windowMs opts |}]> st).
Proof.
  intros Hst. unfold increment. destruct (st !! key) as [h|]; [|reflexivity].
  destruct (Z.ltb_spec t (hits_reset h)); [lia | reflexivity].
Qed.

Lemma increment_other opts key key' t st :
  key <> key' -> snd (increment opts key t st) !! key' = st !! key'.
Proof. intros Hne. unfold increment. simpl. now apply lookup_insert_ne. Qed.

(** The three headers the limiter writes for [searchLimiter]. *)
Lemma rate_headers_limit t h res :
  getHeader "RateLimit-Limit" (rate_headers searchLimiter_options t h res) = Some (HNum 50).
Proof.
  unfold rate_headers, getHeader, setHeader. cbn [standardHeaders searchLimiter_options headers].
  rewrite !lookup_insert_ne by discriminate. apply lookup_insert_eq.
Qed.

Lemma rate_headers_remaining t h res :
  getHeader "RateLimit-Remaining" (rate_headers searchLimiter_options t h res)
    = Some (HNum (Z.max 0 (50 - hits_total h))).
Proof.
  unfold rate_headers, getHeader, setHeader. cbn [standardHeaders searchLimiter_options headers].
  rewrite lookup_insert_ne by discriminate. apply lookup_insert_eq.
Qed.

Lemma rate_headers_reset t h res :
  getHeader "RateLimit-Reset" (rate_headers searchLimiter_options t h res)
    = Some (HNum (reset_seconds t (hits_reset h))).
Proof.
  unfold rate_headers, getHeader, setHeader. cbn [standardHeaders searchLimiter_options headers].
  apply lookup_insert_eq.
Qed.

Lemma rate_headers_status t h res :
  status (rate_headers searchLimiter_options t h res) = status res.
Proof. reflexivity. Qed.

(** The route handlers never touch the limiter's store. *)
Lemma route_handler_store r req env res w :
  limiterStore (snd (route_handler r req env res w)) = limiterStore w.
Proof.
  destruct r as [q m s| |]; simpl.
  - unfold searchHandler.
    destruct (negb (Js.truthy_string q) || _)%bool; [reflexivity|].
    destruct (getCachedOrFetch _ _ _) as [[d|] c1]; [reflexivity|].
    destruct (upstream env _) as [msg|ok st [msg|doc]]; [reflexivity| |].
    + destruct (negb ok); reflexivity.
    + destruct (negb ok); [reflexivity|].
      destruct (map_throwing reshape _); reflexivity.
  - unfold statusHandler.
    destruct (header_truthy _); [|reflexivity].
    destruct (parseInt _) as [s|]; [|reflexivity].
    destruct (Z.abs (s * 1000) <=? MAX_TIME_VALUE); reflexivity.
  - reflexivity.
Qed.

(** The routing table, read uniformly. *)
Lemma serve_limited req env w :
  limited (route req) = true ->
  serve req env w = searchLimiter (route_handler (route req)) req env fresh_response w.
Proof. unfold serve. destruct (route req); simpl; congruence. Qed.

Lemma serve_unlimited req env w :
  limited (route req) = false ->
  serve req env w = route_handler (route req) req env fresh_response w.
Proof. unfold serve. destruct (route req); simpl; congruence. Qed.

(** The limiter at the [n+1]-th request of an open window. *)
Lemma searchLimiter_open next req env res w n reset :
  limiterStore w !! ip req = Some {| hits_total := n; hits_reset := reset |} ->
  now env < reset ->
  searchLimiter next req env res w =
    let h := {| hits_total := n + 1; hits_reset := reset |} in
    let res1 := rate_headers searchLimiter_options (now env) h res in
    let w1 := with_store (<[ip req := h]> (limiterStore w)) w in
    if 50 <? n + 1 then (json (BLimit LIMIT_ERROR (now env + DAY_MS)) (set_status 429 res1), w1)
    else next req env res1 w1.
Proof.
  intros Hst Ht. unfold searchLimiter, rateLimit.
  rewrite (increment_open _ _ _ _ _ _ Hst Ht). reflexivity.
Qed.

Lemma searchLimiter_closed next req env res w :
  window_closed (ip req) (now env) w ->
  searchLimiter next req env res w =
    let h := {| hits_total := 1; hits_reset := now env + DAY_MS |} in
    next req env (rate_headers searchLimiter_options (now env) h res)
         (with_store (<[ip req := h]> (limiterStore w)) w).
Proof.
  intros Hst. unfold searchLimiter, rateLimit.
  rewrite (increment_closed _ _ _ _ Hst). reflexivity.
Qed.

(** What one request does to the counter of [who]. *)
Lemma serve_counter who req env w n reset :
  limiterStore w !! who = Some {| hits_total := n; hits_reset := reset |} ->
  (limited (route req) = true -> ip req = who -> now env < reset) ->
  limiterStore (snd (serve req env w)) !! who =
    Some {| hits_total := n + hits_of who [(req, env)]; hits_reset := reset |}.
Proof.
  intros Hst Hwin. unfold hits_of. simpl.
  destruct (limited (route req)) eqn:Hlim; simpl.
  - rewrite (serve_limited _ _ _ Hlim).
    destruct (String.eqb_spec (ip req) who) as [Heq|Hne]; simpl.
    + subst who. rewrite (searchLimiter_open _ _ _ _ _ _ _ Hst (Hwin eq_refl eq_refl)).
      cbv zeta. destruct (50 <? n + 1).
      * simpl. rewrite lookup_insert_eq. do 2 f_equal.
      * rewrite route_handler_store. simpl. rewrite lookup_insert_eq. do 2 f_equal.
    + unfold searchLimiter, rateLimit.
      destruct (increment _ _ _ _) as [h st] eqn:Hinc.
      assert (Hst' : st !! who = limiterStore w !! who).
      { change st with (snd (h, st)). rewrite <- Hinc. now apply increment_other. }
      destruct (max searchLimiter_options <? hits_total h).
      * simpl. rewrite Hst', Hst. do 2 f_equal. lia.
      * rewrite route_handler_store. simpl. rewrite Hst', Hst. do 2 f_equal. lia.
  - rewrite (serve_unlimited _ _ _ Hlim), route_handler_store, Hst. do 2 f_equal. lia.
Qed.

Lemma hits_of_cons who re trace :
  hits_of who (re :: trace) = hits_of who [re] + hits_of who trace.
Proof.
  unfold hits_of. simpl.
  destruct (limited (route (fst re)) && String.eqb (ip (fst re)) who)%bool; simpl; lia.
Qed.

Lemma hits_of_nonneg who trace : 0 <= hits_of who trace.
Proof. unfold hits_of. lia. Qed.

(** The counter of [who] after a trace that stays inside the window. *)
Lemma run_counter who trace : forall w n reset,
  limiterStore w !! who = Some {| hits_total := n; hits_reset := reset |} ->
  within_window who reset trace ->
  limiterStore (run trace w) !! who =
    Some {| hits_total := n + hits_of who trace; hits_reset := reset |}.
Proof.
  induction trace as [|[req env] rest IH]; intros w n reset Hst Hwin.
  - simpl. rewrite Hst. unfold hits_of. simpl. do 2 f_equal. lia.
  - inversion Hwin as [|? ? Hhead Hrest]; subst. simpl in Hhead.
    simpl. rewrite (IH _ _ _ (serve_counter _ _ _ _ _ _ Hst Hhead) Hrest).
    rewrite (hits_of_cons who (req, env) rest). do 2 f_equal. lia.
Qed.

End LimiterFacts.

Section LimiterClaims.
Context `{Platform}.

(** C1 (as amended). The limiter counts, per identity, every request to a
    gated route -- search and rate-limit-status share the one counter.
    In a window opened by the identity's request [first], each of the
    first 50 gated requests is handed to its route handler (the search
    handler for a search request), with the response annotated; every
    gated request numbered 51 or higher in that window is answered 429
    with the fixed daily-limit payload, whose reset instant is not
    before the current time, whatever handler stands behind the limiter,
    and the cache is left alone. *)
Theorem limiter_window w0 first first_env mid req env :
  limited (route first) = true ->
  window_closed (ip first) (now first_env) w0 ->
  within_window (ip first) (now first_env + DAY_MS) mid ->
  ip req = ip first -> limited (route req) = true ->
  now env < now first_env + DAY_MS ->
  let reset := now first_env + DAY_MS in
  let N := 2 + hits_of (ip first) mid in
  let w := run ((first, first_env) :: mid) w0 in
  let counted n (w' : World) :=
    with_store (<[ip first := {| hits_total := n; hits_reset := reset |}]> (limiterStore w')) w' in
  serve first first_env w0 =
    route_handler (route first) first first_env (annotated (now first_env) 1 reset) (counted 1 w0)
  /\ (N <= 50 ->
      serve req env w =
        route_handler (route req) req env (annotated (now env) N reset) (counted N w))
  /\ (50 < N ->
      (forall next : Handler,
         searchLimiter next req env fresh_response w = (rejection (now env) N reset, counted N w))
      /\ serve req env w = (rejection (now env) N reset, counted N w)
      /\ status (fst (serve req env w)) = 429
      /\ body (fst (serve req env w)) = Some (BLimit LIMIT_ERROR (now env + DAY_MS))
      /\ now env <= now env + DAY_MS
      /\ cache (snd (serve req env w)) = cache w).
Proof.
  intros Hfirst Hclosed Hmid Hip Hlim Hnow reset N w counted.
  assert (Hopen : serve first first_env w0 =
    route_handler (route first) first first_env (annotated (now first_env) 1 reset)
                  (counted 1 w0)).
  { rewrite (serve_limited _ _ _ Hfirst).
    now rewrite (searchLimiter_closed _ _ _ _ _ Hclosed). }
  assert (Hcount : limiterStore w !! ip req =
            Some {| hits_total := N - 1; hits_reset := reset |}).
  { subst w. simpl. rewrite Hip.
    erewrite run_counter; [| |exact Hmid].
    - do 2 f_equal. subst N. instantiate (1 := 1). lia.
    - rewrite Hopen, route_handler_store. simpl. apply lookup_insert_eq. }
  assert (Hgate : forall next : Handler,
    searchLimiter next req env fresh_response w =
      if 50 <? N then (rejection (now env) N reset, counted N w)
      else next req env (annotated (now env) N reset) (counted N w)).
  { intros next. rewrite (searchLimiter_open _ _ _ _ _ _ _ Hcount Hnow). cbv zeta.
    replace (N - 1 + 1) with N by lia. rewrite Hip. reflexivity. }
  split; [exact Hopen|]. split.
  - intros HN. rewrite (serve_limited _ _ _ Hlim), Hgate.
    destruct (Z.ltb_spec 50 N); [lia | reflexivity].
  - intros HN.
    assert (Hrej : forall next : Handler,
      searchLimiter next req env fresh_response w = (rejection (now env) N reset, counted N w)).
    { intros next. rewrite Hgate. destruct (Z.ltb_spec 50 N); [reflexivity | lia]. }
    split; [exact Hrej|].
    rewrite (serve_limited _ _ _ Hlim), Hrej. simpl.
    repeat split. unfold DAY_MS. lia.
Qed.

(** C8 (as amended). A call to the status endpoint goes through the same
    limiter as search and consumes a slot of the caller's counter. While
    the count that includes the call is below 50 it answers with the
    limit 50, the remaining allowance after the call, and the reset time
    read from the limiter's header; above 50 it is answered 429. *)
Theorem status_consumes_slot req env w :
  route req = StatusRoute ->
  let h := fst (increment searchLimiter_options (ip req) (now env) (limiterStore w)) in
  let rs := reset_seconds (now env) (hits_reset h) in
  limiterStore (snd (serve req env w)) !! ip req = Some h
  /\ (forall n reset,
        limiterStore w !! ip req = Some {| hits_total := n; hits_reset := reset |} ->
        now env < reset -> hits_total h = n + 1)
  /\ (window_closed (ip req) (now env) w -> hits_total h = 1)
  /\ (hits_total h < 50 -> Z.abs (rs * 1000) <= MAX_TIME_VALUE ->
      status (fst (serve req env w)) = 200
      /\ body (fst (serve req env w)) =
           Some (BStatus 50 (50 - hits_total h)
                         (if rs =? 0 then None else Some (rs * 1000))))
  /\ (50 < hits_total h ->
      status (fst (serve req env w)) = 429
      /\ body (fst (serve req env w)) = Some (BLimit LIMIT_ERROR (now env + DAY_MS))).
Proof.
  intros Hroute h rs.
  assert (Hserve : serve req env w =
    let res1 := rate_headers searchLimiter_options (now env) h fresh_response in
    let w1 := with_store (<[ip req := h]> (limiterStore w)) w in
    if 50 <? hits_total h
    then (json (BLimit LIMIT_ERROR (now env + DAY_MS)) (set_status 429 res1), w1)
    else statusHandler req env res1 w1).
  { unfold serve. rewrite Hroute. reflexivity. }
  split; [|split; [|split; [|split]]].
  - rewrite Hserve. cbv zeta. destruct (50 <? hits_total h).
    + simpl. apply lookup_insert_eq.
    + etrans; [apply (f_equal (fun s => s !! ip req)
                        (route_handler_store StatusRoute req env _ _))|].
      simpl. apply lookup_insert_eq.
  - intros n reset Hst Ht. subst h. now rewrite (increment_open _ _ _ _ _ _ Hst Ht).
  - intros Hclosed. subst h. now rewrite (increment_closed _ _ _ _ Hclosed).
  - intros Hlt Hrange. rewrite Hserve. cbv zeta.
    destruct (Z.ltb_spec 50 (hits_total h)) as [|_]; [lia|].
    unfold statusHandler.
    rewrite rate_headers_reset, rate_headers_remaining, rate_headers_limit. fold rs.
    replace (Z.max 0 (50 - hits_total h)) with (50 - hits_total h) by lia.
    cbn [header_truthy parseInt].
    assert (Hrem : or_number (Some (50 - hits_total h)) 50 = 50 - hits_total h).
    { unfold or_number. destruct (50 - hits_total h) eqn:E; [lia|reflexivity|reflexivity]. }
    destruct (Z.eqb_spec rs 0) as [Hz|Hnz]; cbn [negb].
    + rewrite Hrem. split; reflexivity.
    + destruct (Z.leb_spec (Z.abs (rs * 1000)) MAX_TIME_VALUE); [|lia].
      rewrite Hrem. split; reflexivity.
  - intros Hgt. rewrite Hserve. cbv zeta.
    destruct (Z.ltb_spec 50 (hits_total h)); [|lia]. split; reflexivity.
Qed.

(** At the call that brings the count to exactly 50 the remaining allowance
    is 0, and [parseInt(remaining) || 50] reports it as 50. *)
Lemma status_at_the_limit req env w :
  route req = StatusRoute ->
  let h := fst (increment searchLimiter_options (ip req) (now env) (limiterStore w)) in
  let rs := reset_seconds (now env) (hits_reset h) in
  hits_total h = 50 -> Z.abs (rs * 1000) <= MAX_TIME_VALUE ->
  getHeader "RateLimit-Remaining" (fst (serve req env w)) = Some (HNum 0)
  /\ body (fst (serve req env w)) =
       Some (BStatus 50 50 (if rs =? 0 then None else Some (rs * 1000))).
Proof.
  intros Hroute h rs Hfull Hrange.
  assert (Hserve : serve req env w =
    statusHandler req env (rate_headers searchLimiter_options (now env) h fresh_response)
                  (with_store (<[ip req := h]> (limiterStore w)) w)).
  { unfold serve. rewrite Hroute. unfold searchLimiter, rateLimit. fold h.
    destruct (increment _ _ _ _) as [h' st] eqn:Hinc. simpl in h. subst h.
    change (max searchLimiter_options) with 50. rewrite Hfull. cbn [Z.ltb Z.compare Pos.compare Pos.compare_cont].
    unfold increment in Hinc. injection Hinc as Hh <-. now rewrite Hh. }
  pose proof (rate_headers_remaining (now env) h fresh_response) as Hrem.
  rewrite Hfull in Hrem.
  rewrite Hserve. unfold statusHandler.
  rewrite rate_headers_reset, rate_headers_remaining, rate_headers_limit. fold rs.
  rewrite Hfull. cbn [header_truthy parseInt].
  destruct (Z.eqb_spec rs 0) as [Hz|Hnz]; cbn [negb].
  - split; [exact Hrem | reflexivity].
  - destruct (Z.leb_spec (Z.abs (rs * 1000)) MAX_TIME_VALUE); [|lia].
    split; [exact Hrem | reflexivity].
Qed.

End LimiterClaims.

(** ** The search proxy *)

Lemma map_throwing_lookup {A B : Type} (f : A -> option B) (xs : list A) : forall ys,
  map_throwing f xs = Some ys ->
  length ys = length xs
  /\ forall (i : nat) x, xs !! i = Some x -> exists y, f x = Some y /\ ys !! i = Some y.
Proof.
  induction xs as [|x xs IH]; intros ys Hmap; simpl in Hmap.
  - injection Hmap as <-. split; [reflexivity|]. intros i x Hx. destruct i; discriminate.
  - destruct (f x) as [y|] eqn:Hfx; [|discriminate].
    destruct (map_throwing f xs) as [ys'|]; [|discriminate].
    injection Hmap as <-. destruct (IH ys' eq_refl) as [Hlen Hnth].
    split; [simpl; now rewrite Hlen|].
    intros [|i] x' Hx'; simpl in *.
    + injection Hx' as <-. eauto.
    + now apply Hnth.
Qed.

Lemma map_throwing_total {A B : Type} (f : A -> option B) (xs : list A) :
  Forall (fun x => f x <> None) xs -> exists ys, map_throwing f xs = Some ys.
Proof.
  induction 1 as [|x xs Hx _ [ys IH]]; simpl; [eauto|].
  destruct (f x) as [y|]; [|congruence]. rewrite IH. eauto.
Qed.

Lemma reshape_defined item : volumeInfo item <> None <-> reshape item <> None.
Proof. unfold reshape. destruct (volumeInfo item); split; congruence. Qed.

(** The description of an item that has none. *)
Lemma reshape_no_description item vi :
  volumeInfo item = Some vi -> vi_description vi = None ->
  exists b, reshape item = Some b /\ bs_description b = "undefined...".
Proof.
  intros Hvi Hd. unfold reshape. rewrite Hvi. eexists. split; [reflexivity|].
  simpl. rewrite Hd. reflexivity.
Qed.

Section SearchFacts.
Context `{Platform}.

(** A hit answers with the cached document and adds no header. *)
Lemma search_cache_hit query maxResults startIndex req env res w d c1 :
  query_rejected query = false ->
  getCachedOrFetch (url_of query maxResults startIndex) (now env) (cache w) = (Some d, c1) ->
  searchHandler query maxResults startIndex req env res w
    = (json (BSearch d) res, with_cache c1 w).
Proof.
  intros Hq Hhit. unfold searchHandler. fold (query_rejected query). rewrite Hq.
  fold (url_of query maxResults startIndex). now rewrite Hhit.
Qed.

(** A successful answer keeps the status and every header the limiter
    wrote. *)
Lemma searchHandler_success query maxResults startIndex req env res w rd :
  body (fst (searchHandler query maxResults startIndex req env res w)) = Some (BSearch rd) ->
  status (fst (searchHandler query maxResults startIndex req env res w)) = status res
  /\ forall name, name <> "X-Searches-Remaining" ->
       getHeader name (fst (searchHandler query maxResults startIndex req env res w))
         = getHeader name res.
Proof.
  unfold searchHandler.
  destruct (negb (Js.truthy_string query) || _)%bool; [discriminate|].
  destruct (getCachedOrFetch _ _ _) as [[d|] c1]; [intros _; now split|].
  destruct (upstream env _) as [msg|ok st [msg|doc]]; [discriminate| |].
  - destruct (negb ok); discriminate.
  - destruct (negb ok); [discriminate|].
    destruct (map_throwing reshape _); [|discriminate].
    intros _. split; [reflexivity|]. intros name Hname.
    unfold getHeader, setHeader. cbn [fst headers json].
    apply lookup_insert_ne. congruence.
Qed.

(** The handler's own header: an answer fetched from the provider carries
    [X-Searches-Remaining], the limiter's remaining count or ['50'] when
    that count is falsy; an answer from the cache carries none
    ([search_cache_hit]). *)
Lemma search_fetch_extra_header query maxResults startIndex req env res w st doc :
  query_rejected query = false ->
  fst (getCachedOrFetch (url_of query maxResults startIndex) (now env) (cache w)) = None ->
  upstream env (url_of query maxResults startIndex) = Reply true st (Json doc) ->
  map_throwing reshape (default [] (items doc)) <> None ->
  getHeader "X-Searches-Remaining"
            (fst (searchHandler query maxResults startIndex req env res w))
    = Some (if header_truthy (getHeader "RateLimit-Remaining" res)
            then default (HStr "50") (getHeader "RateLimit-Remaining" res)
            else HStr "50").
Proof.
  intros Hq Hmiss Hup Hbooks. unfold searchHandler. fold (query_rejected query). rewrite Hq.
  fold (url_of query maxResults startIndex).
  destruct (getCachedOrFetch _ _ _) as [cached c1]. simpl in Hmiss. subst cached.
  rewrite Hup. cbn [negb].
  destruct (map_throwing reshape _) as [books|]; [|congruence].
  unfold getHeader at 1. unfold setHeader, json. cbn [fst headers].
  apply lookup_insert_eq.
Qed.

Lemma getHeader_setHeader name v res : getHeader name (setHeader name v res) = Some v.
Proof. unfold getHeader, setHeader. cbn [headers]. apply lookup_insert_eq. Qed.

(** The two ways the handler answers with a result document: the cached
    one, sent with the headers as they are, or the reshaped reply of the
    provider, stored and sent with the handler's own header. *)
Lemma searchHandler_answers query maxResults startIndex req env res w rd :
  body (fst (searchHandler query maxResults startIndex req env res w)) = Some (BSearch rd) ->
  (exists c1,
     getCachedOrFetch (url_of query maxResults startIndex) (now env) (cache w) = (Some rd, c1)
     /\ searchHandler query maxResults startIndex req env res w
        = (json (BSearch rd) res, with_cache c1 w))
  \/ (exists c1 st doc books,
        getCachedOrFetch (url_of query maxResults startIndex) (now env) (cache w) = (None, c1)
        /\ upstream env (url_of query maxResults startIndex) = Reply true st (Json doc)
        /\ map_throwing reshape (default [] (items doc)) = Some books
        /\ rd = {| rd_books := books; rd_totalItems := or_zero (totalItems doc);
                   rd_query := default "" query |}
        /\ searchHandler query maxResults startIndex req env res w
           = (json (BSearch rd)
                   (setHeader "X-Searches-Remaining"
                      (if header_truthy (getHeader "RateLimit-Remaining" res)
                       then default (HStr "50") (getHeader "RateLimit-Remaining" res)
                       else HStr "50") res),
              with_cache (cache_set (url_of query maxResults startIndex) rd (later env) c1)
                         (with_cache c1 w))).
Proof.
  unfold searchHandler. fold (url_of query maxResults startIndex).
  destruct (negb (Js.truthy_string query) || _)%bool; [discriminate|].
  destruct (getCachedOrFetch _ _ _) as [[d|] c1].
  - intros [= <-]. left. exists c1. split; reflexivity.
  - destruct (upstream env _) as [msg|ok st [msg|doc]]; [discriminate| |].
    + destruct (negb ok); discriminate.
    + destruct ok; [|discriminate]. cbn [negb].
      destruct (map_throwing reshape _) as [books|] eqn:Hbooks; [|discriminate].
      intros [= <-]. right. exists c1, st, doc, books. repeat split. exact Hbooks.
Qed.

(** C9. A search request that passes the limiter and is answered with a
    result document carries the [RateLimit-Remaining] header, whose value
    is the allowance left to the caller: 50 minus the caller's count in the
    current window, this request included. The document is the cached one
    or the reshaped reply of the provider, which the handler stores; only
    in the second case the handler adds its own [X-Searches-Remaining]
    header, which repeats the allowance, written ['50'] when none is
    left. *)
Theorem search_success_carries_remaining req env w query maxResults startIndex rd :
  route req = SearchRoute query maxResults startIndex ->
  body (fst (serve req env w)) = Some (BSearch rd) ->
  exists h,
    limiterStore (snd (serve req env w)) !! ip req = Some h
    /\ h = fst (increment searchLimiter_options (ip req) (now env) (limiterStore w))
    /\ hits_total h <= 50
    /\ status (fst (serve req env w)) = 200
    /\ getHeader "RateLimit-Remaining" (fst (serve req env w))
         = Some (HNum (50 - hits_total h))
    /\ ((exists c1,
           getCachedOrFetch (url_of query maxResults startIndex) (now env) (cache w)
             = (Some rd, c1)
           /\ cache (snd (serve req env w)) = c1
           /\ getHeader "X-Searches-Remaining" (fst (serve req env w)) = None)
        \/ (exists st doc books,
              fst (getCachedOrFetch (url_of query maxResults startIndex) (now env) (cache w))
                = None
              /\ upstream env (url_of query maxResults startIndex) = Reply true st (Json doc)
              /\ map_throwing reshape (default [] (items doc)) = Some books
              /\ rd = {| rd_books := books; rd_totalItems := or_zero (totalItems doc);
                         rd_query := default "" query |}
              /\ cache (snd (serve req env w)) !! url_of query maxResults startIndex
                 = Some {| data := rd; timestamp := later env |}
              /\ getHeader "X-Searches-Remaining" (fst (serve req env w))
                 = Some (if hits_total h =? 50 then HStr "50"
                         else HNum (50 - hits_total h)))).
Proof.
  intros Hroute. unfold serve. rewrite Hroute. unfold searchLimiter, rateLimit.
  destruct (increment _ _ _ _) as [h st] eqn:Hinc.
  assert (Hst : st !! ip req = Some h).
  { unfold increment in Hinc. injection Hinc as Hh <-. rewrite <- Hh.
    apply lookup_insert_eq. }
  change (max searchLimiter_options) with 50.
  destruct (Z.ltb_spec 50 (hits_total h)) as [|Hle]; [discriminate|].
  intros Hbody. exists h.
  destruct (searchHandler_success _ _ _ _ _ _ _ _ Hbody) as [Hstatus Hheaders].
  split; [|split; [reflexivity|split; [exact Hle|split; [|split]]]].
  - etrans; [apply (f_equal (fun s => s !! ip req)
                      (route_handler_store (SearchRoute query maxResults startIndex)
                                           req env _ _))|].
    exact Hst.
  - rewrite Hstatus. reflexivity.
  - rewrite Hheaders by discriminate. rewrite rate_headers_remaining.
    do 2 f_equal. lia.
  - destruct (searchHandler_answers _ _ _ _ _ _ _ _ Hbody)
      as [[c1 [Hhit Hrun]]|[c1 [st' [doc [books (Hmiss & Hup & Hbooks & Hrd & Hrun)]]]]];
      rewrite Hrun; cbn [fst snd cache with_cache with_store] in *.
    + left. exists c1. split; [exact Hhit|]. split; [reflexivity|].
      unfold getHeader, json, rate_headers, setHeader.
      cbn [headers standardHeaders searchLimiter_options fresh_response].
      rewrite !lookup_insert_ne by discriminate. apply lookup_empty.
    + right. exists st', doc, books. rewrite Hmiss. split; [reflexivity|].
      split; [exact Hup|]. split; [exact Hbooks|]. split; [exact Hrd|].
      split; [apply lookup_insert_eq|].
      change (getHeader ?n (json ?b ?r)) with (getHeader n r).
      rewrite getHeader_setHeader, rate_headers_remaining. f_equal.
      unfold header_truthy. change (default (HStr "50") (Some ?x)) with x.
      destruct (Z.eqb_spec (hits_total h) 50) as [Heq|Hne].
      * rewrite Heq. reflexivity.
      * replace (Z.max 0 (50 - hits_total h)) with (50 - hits_total h) by lia.
        destruct (Z.eqb_spec (50 - hits_total h) 0); [lia | reflexivity].
Qed.

(** C10. An item whose [volumeInfo] has no description is reshaped to the
    description ["undefined..."], never to the fallback text; that is what
    the caller receives and what the cache stores under the resolved
    URL. *)
Theorem missing_description_reshaped :
  (forall item vi,
     volumeInfo item = Some vi -> vi_description vi = None ->
     exists b, reshape item = Some b
               /\ bs_description b = "undefined..."
               /\ bs_description b <> "No description available")
  /\ (forall query maxResults startIndex req env res w st doc its,
      query_rejected query = false ->
      fst (getCachedOrFetch (url_of query maxResults startIndex) (now env) (cache w)) = None ->
      upstream env (url_of query maxResults startIndex) = Reply true st (Json doc) ->
      items doc = Some its ->
      Forall (fun item => volumeInfo item <> None) its ->
      exists rd,
        body (fst (searchHandler query maxResults startIndex req env res w))
          = Some (BSearch rd)
        /\ cache (snd (searchHandler query maxResults startIndex req env res w))
             !! url_of query maxResults startIndex
           = Some {| data := rd; timestamp := later env |}
        /\ length (rd_books rd) = length its
        /\ forall (i : nat) item vi,
             its !! i = Some item -> volumeInfo item = Some vi ->
             vi_description vi = None ->
             exists b, rd_books rd !! i = Some b /\ bs_description b = "undefined...").
Proof.
  split.
  - intros item vi Hvi Hd. destruct (reshape_no_description item vi Hvi Hd) as [b [Hb Hdesc]].
    exists b. split; [exact Hb|]. split; [exact Hdesc|]. rewrite Hdesc. discriminate.
  - intros query maxResults startIndex req env res w st doc its Hq Hmiss Hup Hitems Hall.
    destruct (map_throwing_total reshape its) as [books Hbooks].
    { eapply Forall_impl; [exact Hall|]. intros item. apply reshape_defined. }
    unfold searchHandler. fold (query_rejected query). rewrite Hq.
    fold (url_of query maxResults startIndex).
    destruct (getCachedOrFetch _ _ _) as [cached c1]. simpl in Hmiss. subst cached.
    rewrite Hup. cbn [negb]. rewrite Hitems.
    change (default [] (Some its)) with its. rewrite Hbooks.
    eexists. split; [reflexivity|]. split; [apply lookup_insert_eq|].
    destruct (map_throwing_lookup _ _ _ Hbooks) as [Hlen Hnth].
    split; [exact Hlen|].
    intros i item vi Hi Hvi Hd. destruct (Hnth i item Hi) as [b [Hb Hbi]].
    exists b. split; [exact Hbi|].
    destruct (reshape_no_description item vi Hvi Hd) as [b' [Hb' Hdesc]]. congruence.
Qed.

End SearchFacts.

(** *** Concrete runs of the limiter and of the search proxy *)

(** C1, as stated, fails: the first search request of an identity is
    rejected when 50 status calls of the same identity precede it in the
    window. *)
Lemma first_search_rejected_after_status_calls :
  List.filter (fun re => match route (fst re) with SearchRoute _ _ _ => true | _ => false end)
              (repeat (Sample.status_request, Sample.env 0) 50) = []
  /\ status (fst (@serve Sample.platform Sample.search_request (Sample.env 5)
                    (@run Sample.platform (repeat (Sample.status_request, Sample.env 0) 50)
                          empty_world))) = 429
  /\ body (fst (@serve Sample.platform Sample.search_request (Sample.env 5)
                  (@run Sample.platform (repeat (Sample.status_request, Sample.env 0) 50)
                        empty_world))) = Some (BLimit LIMIT_ERROR (5 + DAY_MS)).
Proof. vm_compute. repeat split. Qed.

(** The amended C1 on a window of search requests: the 50th reaches the
    search handler (which fails on the unreachable provider), the 51st is
    rejected. *)
Lemma limiter_window_witness :
  body (fst (@serve Sample.platform Sample.search_request (Sample.env 5)
               (@run Sample.platform
                     ((Sample.search_request, Sample.env 1)
                        :: repeat (Sample.search_request, Sample.env 1) 48) empty_world)))
    = Some (BErrorDetails "Failed to search books. Please try again later." "unreachable")
  /\ status (fst (@serve Sample.platform Sample.search_request (Sample.env 5)
                    (@run Sample.platform
                          ((Sample.search_request, Sample.env 1)
                             :: repeat (Sample.search_request, Sample.env 1) 49) empty_world)))
     = 429.
Proof.
  split.
  - destruct (@limiter_window Sample.platform empty_world
                Sample.search_request (Sample.env 1)
                (repeat (Sample.search_request, Sample.env 1) 48)
                Sample.search_request (Sample.env 5)) as [_ [Hpass _]];
      [reflexivity | exact I | | reflexivity | reflexivity | reflexivity |].
    + apply Forall_forall. intros re Hin _ _.
      apply list_elem_of_In, repeat_spec in Hin. subst re. reflexivity.
    + rewrite Hpass; [reflexivity | apply Z.leb_le; reflexivity].
  - destruct (@limiter_window Sample.platform empty_world
                Sample.search_request (Sample.env 1)
                (repeat (Sample.search_request, Sample.env 1) 49)
                Sample.search_request (Sample.env 5)) as [_ [_ Hreject]];
      [reflexivity | exact I | | reflexivity | reflexivity | reflexivity |].
    + apply Forall_forall. intros re Hin _ _.
      apply list_elem_of_In, repeat_spec in Hin. subst re. reflexivity.
    + apply Hreject. reflexivity.
Defined.

(** C8, as stated, fails: one status call moves the caller's counter from
    nothing to 1, and of 50 searches that follow it in the window the last
    one is rejected. *)
Lemma status_call_uses_a_slot :
  limiterStore empty_world !! Sample.client = None
  /\ limiterStore (snd (@serve Sample.platform Sample.status_request (Sample.env 0) empty_world))
       !! Sample.client = Some {| hits_total := 1; hits_reset := DAY_MS |}
  /\ status (fst (@serve Sample.platform Sample.search_request (Sample.env 2)
                    (@run Sample.platform
                          ((Sample.status_request, Sample.env 0)
                             :: repeat (Sample.search_request, Sample.env 1) 49) empty_world)))
     = 429.
Proof. vm_compute. repeat split. Qed.

(** The amended C8 on the first status call of a fresh identity. *)
Lemma status_consumes_slot_witness :
  limiterStore (snd (@serve Sample.platform Sample.status_request (Sample.env 0) empty_world))
    !! Sample.client = Some {| hits_total := 1; hits_reset := DAY_MS |}
  /\ body (fst (@serve Sample.platform Sample.status_request (Sample.env 0) empty_world))
     = Some (BStatus 50 49 (Some DAY_MS)).
Proof.
  destruct (@status_consumes_slot Sample.platform Sample.status_request (Sample.env 0)
              empty_world eq_refl) as [Hslot [_ [_ [Hanswer _]]]].
  split; [exact Hslot|].
  destruct Hanswer as [_ Hbody]; [reflexivity | apply Z.leb_le; reflexivity | exact Hbody].
Defined.

(** C9 on a first search answered by the provider and a second one answered
    from the cache. *)
Lemma search_success_carries_remaining_witness :
  (getHeader "RateLimit-Remaining"
     (fst (@serve Sample.platform Sample.search_request (Sample.env_ok 0) empty_world))
     = Some (HNum 49)
   /\ getHeader "X-Searches-Remaining"
        (fst (@serve Sample.platform Sample.search_request (Sample.env_ok 0) empty_world))
      = Some (HNum 49))
  /\ (getHeader "RateLimit-Remaining"
        (fst (@serve Sample.platform Sample.search_request (Sample.env 1)
                (snd (@serve Sample.platform Sample.search_request (Sample.env_ok 0)
                        empty_world))))
      = Some (HNum 48)
      /\ getHeader "X-Searches-Remaining"
           (fst (@serve Sample.platform Sample.search_request (Sample.env 1)
                   (snd (@serve Sample.platform Sample.search_request (Sample.env_ok 0)
                           empty_world))))
         = None).
Proof.
  split.
  - destruct (@search_success_carries_remaining Sample.platform Sample.search_request
                (Sample.env_ok 0) empty_world (Some "dune") None None
                {| rd_books := default [] (map_throwing reshape [Sample.dune]);
                   rd_totalItems := 1; rd_query := "dune" |} eq_refl eq_refl)
      as [h [_ [Hh [_ [_ [Hremaining _]]]]]].
    rewrite Hremaining, Hh. split; reflexivity.
  - destruct (@search_success_carries_remaining Sample.platform Sample.search_request
                (Sample.env 1)
                (snd (@serve Sample.platform Sample.search_request (Sample.env_ok 0)
                        empty_world))
                (Some "dune") None None
                {| rd_books := default [] (map_throwing reshape [Sample.dune]);
                   rd_totalItems := 1; rd_query := "dune" |} eq_refl eq_refl)
      as [h [_ [Hh [_ [_ [Hremaining _]]]]]].
    rewrite Hremaining, Hh. split; reflexivity.
Defined.

(** C10 on a provider reply whose only item has no description. *)
Lemma missing_description_reshaped_witness :
  (exists b, reshape Sample.dune = Some b /\ bs_description b = "undefined...")
  /\ exists rd,
       body (fst (@searchHandler Sample.platform (Some "dune") None None
                    Sample.search_request (Sample.env_ok 0) fresh_response empty_world))
         = Some (BSearch rd)
       /\ exists b, rd_books rd !! 0%nat = Some b /\ bs_description b = "undefined...".
Proof.
  destruct (@missing_description_reshaped Sample.platform) as [Hitem Hhandler].
  split.
  - destruct (Hitem Sample.dune Sample.no_description eq_refl eq_refl) as [b [Hb [Hd _]]].
    exists b. split; assumption.
  - destruct (Hhandler (Some "dune") None None Sample.search_request (Sample.env_ok 0)
                fresh_response empty_world 200 Sample.dune_reply [Sample.dune]
                eq_refl eq_refl eq_refl eq_refl)
      as [rd [Hbody [_ [_ Hbooks]]]].
    + repeat constructor. discriminate.
    + exists rd. split; [exact Hbody|].
      exact (Hbooks 0%nat Sample.dune Sample.no_description eq_refl eq_refl eq_refl).
Defined.

(** ** Find-or-create *)

Section UpsertFacts.
Context {R : Type} (id_of : R -> Z) (name_of : R -> string) (make : Z -> string -> R).
Hypothesis make_id : forall i n, id_of (make i n) = i.
Hypothesis make_name : forall i n, name_of (make i n) = n.
Hypothesis make_eta : forall r, make (id_of r) (name_of r) = r.


(** [DO UPDATE SET name = $1] rewrites nothing. *)
Lemma upsert_rewrite name rows :
  List.map (fun r' => if String.eqb (name_of r') name then make (id_of r') name else r') rows
    = rows.
Proof.
  induction rows as [|r rows IH]; [reflexivity|]. simpl. rewrite IH. f_equal.
  destruct (String.eqb_spec (name_of r) name) as [<-|]; [apply make_eta | reflexivity].
Qed.

Lemma upsert_found name seq rows r :
  List.find (fun r => String.eqb (name_of r) name) rows = Some r ->
  upsert_by_name id_of name_of make name seq rows = (id_of r, rows).
Proof. intros Hfind. unfold upsert_by_name. now rewrite Hfind, upsert_rewrite. Qed.

Lemma upsert_fresh name seq rows :
  List.find (fun r => String.eqb (name_of r) name) rows = None ->
  upsert_by_name id_of name_of make name seq rows = (seq, (rows ++ [make seq name])%list).
Proof. intros Hfind. unfold upsert_by_name. now rewrite Hfind. Qed.





End UpsertFacts.

Lemma author_eta r : Build_AuthorRow (author_id r) (author_name r) = r.
Proof. now destruct r. Qed.

Lemma series_eta r : Build_SeriesRow (series_id r) (series_name r) = r.
Proof. now destruct r. Qed.


(** ** Accounts *)

Section AccountFacts.
Context `{Auth}.

(** C5 (as amended). A registration whose normalized email is already in
    [users] is rejected with status 400 and leaves the store as it was.
    When it passes the validators (a well-formed email, a password of at
    least 6 characters) the body is the error "Email already registered";
    when it does not, the body is the list of failing fields. *)
Theorem register_existing_email b env db :
  email_taken b db ->
  status (fst (register b env db)) = 400
  /\ snd (register b env db) = db
  /\ (register_errors b = [] ->
      fst (register b env db) = error_response 400 "Email already registered")
  /\ (register_errors b <> [] ->
      body (fst (register b env db)) = Some (BValidation (register_errors b))).
Proof.
  intros [u [Hin Hemail]]. unfold register.
  destruct (register_errors b) as [|e errs] eqn:Herr.
  - assert (Hsel : List.filter
              (fun u => String.eqb (user_email u) (normalizeEmail (default "" (reg_email b))))
              (users db) <> []).
    { intros Hnil.
      assert (Hu : In u (List.filter
                (fun u => String.eqb (user_email u)
                                     (normalizeEmail (default "" (reg_email b)))) (users db)))
        by (apply filter_In; split; [exact Hin | now apply String.eqb_eq]).
      now rewrite Hnil in Hu. }
    unfold try_catch, bind, select_users_by_email.
    destruct (List.filter _ (users db)) as [|u0 l]; [congruence|].
    simpl. repeat split; congruence.
  - simpl. repeat split; congruence.
Qed.

(** C6 (as amended). A login that passes the validators (a well-formed
    email, a password present) and fails -- the email is unknown, or it is
    known and the password, a string, does not match the stored hash -- is
    answered 401 with the error "Invalid email or password" in both cases,
    the same response, and the store is untouched. A login that does not
    pass the validators is answered 400 with the failing fields, whatever
    the store holds, and leaves it untouched. *)
Theorem login_failures_indistinguishable b1 env1 db1 b2 env2 db2 :
  login_errors b1 = [] -> login_errors b2 = [] ->
  unknown_email b1 db1 -> wrong_password b2 db2 ->
  login b1 env1 db1 = (error_response 401 "Invalid email or password", db1)
  /\ login b2 env2 db2 = (error_response 401 "Invalid email or password", db2)
  /\ fst (login b1 env1 db1) = fst (login b2 env2 db2)
  /\ status (fst (login b1 env1 db1)) = 401
  /\ (exists p, login_password b2 = Some (JString p))
  /\ (forall b env db, login_errors b <> [] ->
        login b env db
          = (json (BValidation (login_errors b)) (set_status 400 fresh_response), db)).
Proof.
  intros Hv1 Hv2 Hunknown [u [rest [Hknown Hwrong]]].
  assert (Hstring : exists p, login_password b2 = Some (JString p)).
  { unfold login_errors in Hv2. apply app_eq_nil in Hv2 as [_ Hv2].
    destruct (login_password b2) as [[]|]; try discriminate. eauto. }
  assert (Hgate : forall b env db, login_errors b <> [] ->
            login b env db
              = (json (BValidation (login_errors b)) (set_status 400 fresh_response), db)).
  { intros b env db Herr. unfold login. destruct (login_errors b); congruence. }
  assert (H1 : login b1 env1 db1 = (error_response 401 "Invalid email or password", db1)).
  { unfold login. rewrite Hv1. unfold try_catch, bind, select_users_by_email.
    unfold unknown_email in Hunknown. now rewrite Hunknown. }
  assert (H2 : login b2 env2 db2 = (error_response 401 "Invalid email or password", db2)).
  { unfold login. rewrite Hv2. unfold try_catch, bind, select_users_by_email.
    rewrite Hknown, Hwrong. reflexivity. }
  rewrite H1, H2. repeat split; assumption.
Qed.

(** What the amended C6 leaves out: a password that is present but is no
    string passes the validators, and the comparison with the stored hash
    throws. A known email is then answered 500, an unknown one 401. *)
Lemma login_password_not_a_string b env db u rest :
  login_errors b = [] ->
  List.filter (fun u => String.eqb (user_email u) (normalizeEmail (default "" (login_email b))))
              (users db) = u :: rest ->
  (forall p, login_password b <> Some (JString p)) ->
  login b env db = (error_response 500 "Failed to login", db).
Proof.
  intros Hv Hknown Hother. unfold login. rewrite Hv.
  unfold try_catch, bind, select_users_by_email. rewrite Hknown.
  destruct (login_password b) as [[| | |p| |]|]; try reflexivity.
  now destruct (Hother p).
Qed.

End AccountFacts.

(** C5, as stated, fails: a registration with a taken email and a password
    of three characters is answered with the validation errors, not with
    "Email already registered". *)
Lemma register_taken_email_short_password :
  In Sample.alice (users Sample.db_alice)
  /\ @register Sample.auth
       {| reg_email := Some "a@b.com"; reg_password := Some "abc"; reg_name := None |}
       Sample.auth_env Sample.db_alice
     = (json (BValidation ["password"]) (set_status 400 fresh_response), Sample.db_alice).
Proof. split; [now left | reflexivity]. Qed.

(** The amended C5 on a well-formed registration with a taken email. *)
Lemma register_existing_email_witness :
  @register Sample.auth
    {| reg_email := Some "a@b.com"; reg_password := Some "secret1"; reg_name := None |}
    Sample.auth_env Sample.db_alice
  = (error_response 400 "Email already registered", Sample.db_alice).
Proof.
  destruct (@register_existing_email Sample.auth
              {| reg_email := Some "a@b.com"; reg_password := Some "secret1"; reg_name := None |}
              Sample.auth_env Sample.db_alice) as [_ [Hdb [Hbody _]]].
  - exists Sample.alice. split; [now left | reflexivity].
  - rewrite <- Hdb at 2. rewrite <- (Hbody eq_refl). now destruct (register _ _ _).
Defined.

(** C6, as stated, fails: a login whose email is unknown and that carries no
    password is answered 400 with the validation errors. *)
Lemma login_unknown_email_without_password :
  @unknown_email Sample.auth {| login_email := Some "nobody@b.com"; login_password := None |}
                 Sample.db_alice
  /\ @login Sample.auth {| login_email := Some "nobody@b.com"; login_password := None |}
            Sample.auth_env Sample.db_alice
     = (json (BValidation ["password"]) (set_status 400 fresh_response), Sample.db_alice).
Proof. split; reflexivity. Qed.

(** The amended C6 on an unknown email and on a wrong password. *)
Lemma login_failures_indistinguishable_witness :
  fst (@login Sample.auth
         {| login_email := Some "nobody@b.com"; login_password := Some (JString "x") |}
         Sample.auth_env Sample.db_alice)
  = fst (@login Sample.auth
           {| login_email := Some "a@b.com"; login_password := Some (JString "guess") |}
           Sample.auth_env Sample.db_alice).
Proof.
  destruct (@login_failures_indistinguishable Sample.auth
              {| login_email := Some "nobody@b.com"; login_password := Some (JString "x") |}
              Sample.auth_env Sample.db_alice
              {| login_email := Some "a@b.com"; login_password := Some (JString "guess") |}
              Sample.auth_env Sample.db_alice) as [_ [_ [Hsame _]]].
  - reflexivity.
  - reflexivity.
  - reflexivity.
  - exists Sample.alice, []. split; reflexivity.
  - exact Hsame.
Defined.

(** ** Tracking *)

Lemma bind_returned {A B : Type} (m : Sql A) (k : A -> Sql B) db a db1 :
  m db = (Returned a, db1) -> bind m k db = k a db1.
Proof. intros Hm. unfold bind. now rewrite Hm. Qed.

Lemma select_book_ids_keys gid db :
  select_book_ids gid db = (Returned (ids_with gid (book_keys db)), db).
Proof.
  unfold select_book_ids, ids_with, book_keys. do 2 f_equal.
  induction (books db) as [|b l IH]; [reflexivity|]. simpl.
  destruct (book_google_books_id b) as [g|]; [|exact IH].
  destruct (String.eqb g gid); simpl; now rewrite IH.
Qed.









(** *** Values that fit their columns, and values that do not *)









Lemma upsert_series_refused name db :
  varchar 255 name = None -> upsert_series name db = (Raised, db).
Proof. intros Hlong. unfold upsert_series. now rewrite Hlong. Qed.








(** *** List facts used below *)




Lemma NoDup_snoc {A : Type} (l : list A) x :
  List.NoDup l -> ~ In x l -> List.NoDup (l ++ [x]).
Proof.
  induction 1 as [|y l Hy Hl IH]; intros Hx; simpl.
  - constructor; [intros [] | constructor].
  - constructor.
    + intros Hin. apply in_app_or in Hin as [Hin|[<-|[]]]; [contradiction|].
      apply Hx. now left.
    + apply IH. intros Hin. apply Hx. now right.
Qed.

(** Under unique names, the row found by name is the row of that name. *)
Lemma find_by_name_complete db a :
  List.NoDup (List.map author_name (authors db)) -> In a (authors db) ->
  List.find (fun r => String.eqb (author_name r) (author_name a)) (authors db) = Some a.
Proof.
  induction (authors db) as [|r l IH]; intros Hnodup Hin; [destruct Hin|]. simpl.
  inversion Hnodup as [|? ? Hnotin Hrest]; subst.
  destruct (String.eqb_spec (author_name r) (author_name a)) as [Heq|Hne].
  - destruct Hin as [->|Hin]; [reflexivity|].
    exfalso. apply Hnotin. rewrite Heq. now apply in_map.
  - destruct Hin as [->|Hin]; [congruence | now apply IH].
Qed.

(** *** One round of the author loop *)







(** *** Creating the book *)




(** *** The tracking row *)

Lemma tracked_pair_in uid bid rows :
  existsb (fun r => (utb_user_id r =? uid) && (utb_book_id r =? bid))%bool rows = true
  <-> In (uid, bid) (List.map pair_of rows).
Proof.
  rewrite existsb_exists, in_map_iff. split.
  - intros [r [Hin Hkey]]. apply andb_prop in Hkey as [Hu Hb]. apply Z.eqb_eq in Hu, Hb.
    exists r. unfold pair_of. split; [congruence | exact Hin].
  - intros [r [Hpair Hin]]. injection Hpair as Hu Hb. exists r. split; [exact Hin|].
    now rewrite Hu, Hb, !Z.eqb_refl.
Qed.







(** *** The authors of a new book *)






(** The other way the claims on track-book fail as stated: a name of 256
    characters at position 2 does not fit [VARCHAR(255)]. The request is
    answered 500; the book and the first author stay, the second author
    gets no row and no link, and the book is not tracked. *)
Lemma over_long_author_stops_the_loop :
  fst (@trackBook Sample.postgres 1 (Sample.book_x1 ["Jane Doe"; Fixture.long_name])
         Sample.db_alice) = error_response 500 "Failed to track book"
  /\ ids_with "X1"
       (book_keys (snd (@trackBook Sample.postgres 1
                          (Sample.book_x1 ["Jane Doe"; Fixture.long_name]) Sample.db_alice)))
     = [1]
  /\ authors (snd (@trackBook Sample.postgres 1
                     (Sample.book_x1 ["Jane Doe"; Fixture.long_name]) Sample.db_alice))
     = [{| author_id := 1; author_name := "Jane Doe" |}]
  /\ book_authors (snd (@trackBook Sample.postgres 1
                          (Sample.book_x1 ["Jane Doe"; Fixture.long_name]) Sample.db_alice))
     = [{| ba_book_id := 1; ba_author_id := 1; ba_author_order := 1 |}]
  /\ user_tracked_books (snd (@trackBook Sample.postgres 1
                                (Sample.book_x1 ["Jane Doe"; Fixture.long_name])
                                Sample.db_alice)) = [].
Proof. repeat split. Qed.


(** *** Concrete stores *)

Lemma db_inv_empty : db_inv empty_db.
Proof. split; simpl; try constructor; intros ? []. Qed.






(** *** The routes behind [authenticateToken] *)

Section RouteFacts.
Context `{Auth} `{Postgres}.

(** With a bearer token that verifies, the tracking routes run their
    handlers for the user of the token; without one they answer 401 or 403
    and leave the store alone. *)
Lemma post_tracking_books_authenticated authorization b t db userId email :
  authenticateToken authorization t = inl (userId, email) ->
  post_tracking_books authorization b t db = trackBook userId b db.
Proof. intros Hauth. unfold post_tracking_books. now rewrite Hauth. Qed.

Lemma post_tracking_books_refused authorization b t db refused :
  authenticateToken authorization t = inr refused ->
  post_tracking_books authorization b t db = (refused, db)
  /\ (status refused = 401 \/ status refused = 403).
Proof.
  intros Hauth. unfold post_tracking_books. rewrite Hauth. split; [reflexivity|].
  unfold authenticateToken in Hauth.
  destruct (negb (Js.truthy_string _)).
  - injection Hauth as <-. now left.
  - destruct (verifyToken _ _); [discriminate|]. injection Hauth as <-. now right.
Qed.

End RouteFacts.

(** ** The constraints hold in every reachable store *)

Lemma preserves_ret {A : Type} (P : DB -> Prop) (a : A) : preserves P (ret a).
Proof. intros db Hdb. exact Hdb. Qed.

Lemma preserves_bind {A B : Type} (P : DB -> Prop) (m : Sql A) (k : A -> Sql B) :
  preserves P m -> (forall a, preserves P (k a)) -> preserves P (bind m k).
Proof.
  intros Hm Hk db Hdb. unfold bind. specialize (Hm db Hdb).
  destruct (m db) as [[a|] db1]; simpl in *; [now apply Hk | exact Hm].
Qed.

Lemma preserves_coerced {A B : Type} (P : DB -> Prop) (v : option A) (k : A -> Sql B) :
  (forall a, preserves P (k a)) -> preserves P (coerced v k).
Proof. intros Hk. destruct v as [a|]; [apply Hk | intros db Hdb; exact Hdb]. Qed.

Lemma preserves_try_catch (P : DB -> Prop) failed (m : Sql Response) db :
  preserves P m -> P db -> P (snd (try_catch failed m db)).
Proof.
  intros Hm Hdb. unfold try_catch. specialize (Hm db Hdb).
  destruct (m db) as [[r|] db1]; exact Hm.
Qed.

Ltac db_simpl :=
  unfold book_exists, author_exists in *;
  cbn [users users_seq authors authors_seq series series_seq books books_seq
       book_authors user_tracked_books user_tracked_books_seq
       user_tracked_authors user_tracked_authors_seq
       set_users set_authors set_series set_books set_book_authors
       set_user_tracked_books set_user_tracked_authors snd fst] in *.

Ltac db_inv_split Hinv :=
  destruct Hinv as [Hue Han Hai Haf Hsn Hbf Hbb Hba Htu]; split; db_simpl; auto.

Section UpsertInvariants.
Context {R : Type} (id_of : R -> Z) (name_of : R -> string) (make : Z -> string -> R).
Hypothesis make_id : forall i n, id_of (make i n) = i.
Hypothesis make_name : forall i n, name_of (make i n) = n.
Hypothesis make_eta : forall r, make (id_of r) (name_of r) = r.

Lemma upsert_cases name seq rows :
  snd (upsert_by_name id_of name_of make name seq rows) = rows
  \/ (snd (upsert_by_name id_of name_of make name seq rows) = (rows ++ [make seq name])%list
      /\ ~ In name (List.map name_of rows)).
Proof.
  destruct (List.find (fun r => String.eqb (name_of r) name) rows) as [r|] eqn:Hfind.
  - left. now rewrite (upsert_found id_of name_of make make_eta _ seq _ _ Hfind).
  - right. rewrite (upsert_fresh id_of name_of make _ seq _ Hfind). split; [reflexivity|].
    intros Hin. apply in_map_iff in Hin as [r [Hname Hin]].
    pose proof (find_none _ _ Hfind r Hin) as Hf. simpl in Hf.
    rewrite Hname, String.eqb_refl in Hf. discriminate.
Qed.

Lemma upsert_keeps_rows name seq rows r :
  In r rows -> In r (snd (upsert_by_name id_of name_of make name seq rows)).
Proof.
  intros Hin. destruct (upsert_cases name seq rows) as [->|[-> _]]; [exact Hin|].
  apply in_or_app. now left.
Qed.

Lemma upsert_names_unique name seq rows :
  List.NoDup (List.map name_of rows) ->
  List.NoDup (List.map name_of (snd (upsert_by_name id_of name_of make name seq rows))).
Proof.
  intros Hnodup. destruct (upsert_cases name seq rows) as [->|[-> Hnew]]; [exact Hnodup|].
  rewrite List.map_app. simpl. rewrite make_name. now apply NoDup_snoc.
Qed.

Lemma upsert_ids_fresh name seq rows :
  (forall r, In r rows -> id_of r < seq) ->
  forall r, In r (snd (upsert_by_name id_of name_of make name seq rows)) -> id_of r < seq + 1.
Proof.
  intros Hfresh r. destruct (upsert_cases name seq rows) as [->|[-> _]].
  - intros Hin. specialize (Hfresh r Hin). lia.
  - intros Hin. apply in_app_or in Hin as [Hin|[<-|[]]].
    + specialize (Hfresh r Hin). lia.
    + rewrite make_id. lia.
Qed.

Lemma upsert_ids_unique name seq rows :
  (forall r, In r rows -> id_of r < seq) ->
  List.NoDup (List.map id_of rows) ->
  List.NoDup (List.map id_of (snd (upsert_by_name id_of name_of make name seq rows))).
Proof.
  intros Hfresh Hnodup. destruct (upsert_cases name seq rows) as [->|[-> _]]; [exact Hnodup|].
  rewrite List.map_app. simpl. rewrite make_id. apply NoDup_snoc; [exact Hnodup|].
  intros Hin. apply in_map_iff in Hin as [r [Hid Hin]]. specialize (Hfresh r Hin). lia.
Qed.

End UpsertInvariants.

Lemma existsb_weaken {A : Type} (f : A -> bool) (l l' : list A) :
  (forall x, In x l -> In x l') -> existsb f l = true -> existsb f l' = true.
Proof.
  intros Hsub Hex. apply existsb_exists in Hex as [x [Hin Hf]].
  apply existsb_exists. exists x. auto.
Qed.

Lemma NoDup_map_filter {A B : Type} (f : A -> B) (p : A -> bool) (l : list A) :
  List.NoDup (List.map f l) -> List.NoDup (List.map f (List.filter p l)).
Proof.
  induction l as [|x l IH]; intros Hnodup; [constructor|]. simpl in *.
  inversion Hnodup as [|? ? Hnotin Hrest]; subst.
  destruct (p x); [|now apply IH]. simpl. constructor; [|now apply IH].
  intros Hin. apply Hnotin. apply in_map_iff in Hin as [y [Hy Hin]].
  apply filter_In in Hin as [Hin _]. rewrite <- Hy. now apply in_map.
Qed.

Lemma db_inv_select_users email : preserves db_inv (select_users_by_email email).
Proof. intros db Hinv. exact Hinv. Qed.

Lemma db_inv_select_books gid : preserves db_inv (select_book_ids gid).
Proof. intros db Hinv. exact Hinv. Qed.

Lemma db_inv_insert_user_row email hash name t : preserves db_inv (insert_user_row email hash name t).
Proof.
  intros db Hinv. unfold insert_user_row.
  destruct (existsb _ (users db)) eqn:Hex; db_inv_split Hinv.
  rewrite List.map_app. simpl. apply NoDup_snoc; [exact Hue|].
  intros Hin. apply in_map_iff in Hin as [u [Hemail Hin]].
  assert (Htrue : existsb (fun u => String.eqb (user_email u) email) (users db) = true).
  { apply existsb_exists. exists u. split; [exact Hin | now apply String.eqb_eq]. }
  congruence.
Qed.

Lemma db_inv_insert_book_row gid t c p r : preserves db_inv (insert_book_row gid t c p r).
Proof.
  intros db Hinv. unfold insert_book_row. destruct (existsb _ (books db)); db_inv_split Hinv.
  - intros b Hb. specialize (Hbf b Hb). lia.
  - intros b Hb. apply in_app_or in Hb as [Hb|[<-|[]]].
    + specialize (Hbf b Hb). lia.
    + simpl. lia.
  - intros row Hrow. rewrite existsb_app. rewrite (Hbb row Hrow). reflexivity.
Qed.

Lemma db_inv_upsert_author_row name : preserves db_inv (upsert_author_row name).
Proof.
  intros db Hinv. unfold upsert_author_row.
  pose proof (upsert_names_unique author_id author_name Build_AuthorRow
                (fun _ _ => eq_refl) author_eta name (authors_seq db) (authors db)) as Hn.
  pose proof (upsert_ids_unique author_id author_name Build_AuthorRow
                (fun _ _ => eq_refl) author_eta name (authors_seq db) (authors db)) as Hi.
  pose proof (upsert_ids_fresh author_id author_name Build_AuthorRow
                (fun _ _ => eq_refl) author_eta name (authors_seq db) (authors db)) as Hf.
  pose proof (upsert_keeps_rows author_id author_name Build_AuthorRow
                author_eta name (authors_seq db) (authors db)) as Hk.
  destruct (upsert_by_name _ _ _ _ _ _) as [id rows]. simpl in Hn, Hi, Hf, Hk.
  db_inv_split Hinv.
  intros row Hrow. exact (existsb_weaken _ _ _ Hk (Hba row Hrow)).
Qed.

Lemma db_inv_upsert_series_row name : preserves db_inv (upsert_series_row name).
Proof.
  intros db Hinv. unfold upsert_series_row.
  pose proof (upsert_names_unique series_id series_name Build_SeriesRow
                (fun _ _ => eq_refl) series_eta name (series_seq db) (series db)) as Hn.
  destruct (upsert_by_name _ _ _ _ _ _) as [id rows]. simpl in Hn.
  db_inv_split Hinv.
Qed.

Lemma db_inv_insert_book_author bid aid order :
  preserves db_inv (insert_book_author bid aid order).
Proof.
  intros db Hinv. unfold insert_book_author.
  destruct (existsb _ (book_authors db)); [exact Hinv|].
  destruct (book_exists bid db && author_exists aid db)%bool eqn:Hfk; [|exact Hinv].
  apply andb_prop in Hfk as [Hb Ha]. db_inv_split Hinv.
  - intros row Hrow. apply in_app_or in Hrow as [Hrow|[<-|[]]]; [now apply Hbb | exact Hb].
  - intros row Hrow. apply in_app_or in Hrow as [Hrow|[<-|[]]]; [now apply Hba | exact Ha].
Qed.

Lemma db_inv_update_book_series sid bid : preserves db_inv (update_book_series sid bid).
Proof.
  intros db Hinv. unfold update_book_series.
  destruct (negb (book_exists bid db)); [exact Hinv|].
  destruct (series_exists sid db); [|exact Hinv].
  db_inv_split Hinv.
  - intros b Hb. apply in_map_iff in Hb as [b0 [Hb0 Hin]]. specialize (Hbf b0 Hin).
    destruct (book_id b0 =? bid); subst b; simpl; exact Hbf.
  - intros row Hrow. specialize (Hbb row Hrow). rewrite existsb_exists in Hbb |- *.
    destruct Hbb as [b0 [Hin Hid]].
    eexists. split; [apply in_map; exact Hin|].
    destruct (book_id b0 =? bid); exact Hid.
Qed.

Lemma db_inv_insert_user_tracked_book uid bid :
  preserves db_inv (insert_user_tracked_book uid bid).
Proof.
  intros db Hinv. unfold insert_user_tracked_book.
  destruct (existsb _ (user_tracked_books db)) eqn:Hex; [db_inv_split Hinv|].
  destruct (user_exists uid db && book_exists bid db)%bool; db_inv_split Hinv.
  rewrite List.map_app. simpl. apply NoDup_snoc; [exact Htu|].
  intros Hin. apply (tracked_pair_in uid bid) in Hin. congruence.
Qed.

Lemma db_inv_insert_user_tracked_author uid aid :
  preserves db_inv (insert_user_tracked_author uid aid).
Proof.
  intros db Hinv. unfold insert_user_tracked_author.
  destruct (existsb _ (user_tracked_authors db)); [db_inv_split Hinv|].
  destruct (user_exists uid db && author_exists aid db)%bool; db_inv_split Hinv.
Qed.

Lemma db_inv_delete_user_tracked_book_row uid bid :
  preserves db_inv (delete_user_tracked_book_row uid bid).
Proof.
  intros db Hinv. unfold delete_user_tracked_book_row. db_inv_split Hinv.
  now apply NoDup_map_filter.
Qed.

Lemma db_inv_delete_user_tracked_author_row uid aid :
  preserves db_inv (delete_user_tracked_author_row uid aid).
Proof. intros db Hinv. unfold delete_user_tracked_author_row. db_inv_split Hinv. Qed.

(** The statements as the handlers issue them: a refused parameter leaves
    the store as it is. *)
Lemma db_inv_insert_user email hash name t : preserves db_inv (insert_user email hash name t).
Proof.
  unfold insert_user. repeat (apply preserves_coerced; intros). apply db_inv_insert_user_row.
Qed.

Lemma db_inv_insert_book `{Postgres} gid t c p r : preserves db_inv (insert_book gid t c p r).
Proof.
  unfold insert_book. repeat (apply preserves_coerced; intros). apply db_inv_insert_book_row.
Qed.

Lemma db_inv_upsert_author name : preserves db_inv (upsert_author name).
Proof. unfold upsert_author. apply preserves_coerced, db_inv_upsert_author_row. Qed.

Lemma db_inv_upsert_series name : preserves db_inv (upsert_series name).
Proof. unfold upsert_series. apply preserves_coerced, db_inv_upsert_series_row. Qed.

Lemma db_inv_delete_user_tracked_book `{Postgres} uid bookId :
  preserves db_inv (delete_user_tracked_book uid bookId).
Proof.
  unfold delete_user_tracked_book. apply preserves_coerced, db_inv_delete_user_tracked_book_row.
Qed.

Lemma db_inv_delete_user_tracked_author `{Postgres} uid authorId :
  preserves db_inv (delete_user_tracked_author uid authorId).
Proof.
  unfold delete_user_tracked_author.
  apply preserves_coerced, db_inv_delete_user_tracked_author_row.
Qed.

Lemma db_inv_link_authors bid names : forall i, preserves db_inv (link_authors bid i names).
Proof.
  induction names as [|name rest IH]; intros i; [apply preserves_ret|].
  simpl. apply preserves_bind; [apply db_inv_upsert_author|]. intros authorId.
  apply preserves_bind; [apply db_inv_insert_book_author|]. intros _. apply IH.
Qed.

Lemma db_inv_create_book `{Postgres} b : preserves db_inv (create_book b).
Proof.
  unfold create_book. apply preserves_bind; [apply db_inv_insert_book|]. intros newBook.
  apply preserves_bind.
  { destruct (tb_authors b) as [[|a l]|];
      [apply preserves_ret | apply db_inv_link_authors | apply preserves_ret]. }
  intros _. apply preserves_bind; [|intros _; apply preserves_ret].
  destruct (Js.truthy_string (tb_series b) && _)%bool; [|apply preserves_ret].
  apply preserves_bind; [apply db_inv_upsert_series|]. intros seriesId.
  apply db_inv_update_book_series.
Qed.

Section Reachable.
Context `{Auth} `{Postgres}.

(** Every handler that writes to the store keeps the constraints. *)
Lemma db_inv_perform op db : db_inv db -> db_inv (snd (perform op db)).
Proof.
  intros Hinv. destruct op as [b env|b env|uid b|uid name|uid bid|uid aid]; cbn [perform].
  - unfold register. destruct (register_errors b); [|exact Hinv]. cbv zeta.
    apply preserves_try_catch; [|exact Hinv].
    apply preserves_bind; [apply db_inv_select_users|]. intros existing.
    destruct (0 <? length existing)%nat; [apply preserves_ret|].
    apply preserves_bind; [apply db_inv_insert_user|]. intros user. apply preserves_ret.
  - unfold login. destruct (login_errors b); [|exact Hinv]. cbv zeta.
    apply preserves_try_catch; [|exact Hinv].
    apply preserves_bind; [apply db_inv_select_users|]. intros result.
    destruct result as [|user rest]; [apply preserves_ret|].
    apply preserves_bind; [apply preserves_coerced; intros; apply preserves_ret|].
    intros isValidPassword. destruct (negb _); apply preserves_ret.
  - unfold trackBook. apply preserves_try_catch; [|exact Hinv]. unfold trackBook_body.
    apply preserves_bind; [apply db_inv_select_books|]. intros bookResult.
    apply preserves_bind.
    { destruct bookResult; [apply db_inv_create_book | apply preserves_ret]. }
    intros bookId. apply preserves_bind; [apply db_inv_insert_user_tracked_book|].
    intros _. apply preserves_ret.
  - unfold trackAuthor. apply preserves_try_catch; [|exact Hinv].
    apply preserves_bind; [apply db_inv_upsert_author|]. intros authorId.
    apply preserves_bind; [apply db_inv_insert_user_tracked_author|].
    intros _. apply preserves_ret.
  - unfold untrackBook. apply preserves_try_catch; [|exact Hinv].
    apply preserves_bind; [apply db_inv_delete_user_tracked_book|].
    intros _. apply preserves_ret.
  - unfold untrackAuthor. apply preserves_try_catch; [|exact Hinv].
    apply preserves_bind; [apply db_inv_delete_user_tracked_author|].
    intros _. apply preserves_ret.
Qed.

(** The constraints hold in every store the server reaches from the empty
    one. *)
Theorem reachable_db_inv db : reachable db -> db_inv db.
Proof.
  induction 1 as [|op db _ IH]; [apply db_inv_empty | now apply db_inv_perform].
Qed.

End Reachable.

(** * Further properties of the code *)

(** ** Strings *)

Lemma substring_all (s : string) : String.substring 0 (String.length s) s = s.
Proof. induction s as [|c s IH]; [reflexivity|]. simpl. now rewrite IH. Qed.

Lemma substring_tail (p t : string) :
  String.substring (String.length p) (String.length t) (p +:+ t) = t.
Proof. induction p as [|c p IH]; simpl; [apply substring_all | exact IH]. Qed.

Lemma substring0_length (n : nat) (s : string) :
  (String.length (String.substring 0 n s) <= n)%nat.
Proof.
  revert s. induction n as [|n IH]; intros [|c s]; simpl; try lia.
  specialize (IH s). lia.
Qed.

Lemma substring0_short (n : nat) (s : string) :
  (String.length s <= n)%nat -> String.substring 0 n s = s.
Proof.
  revert s. induction n as [|n IH]; intros [|c s]; simpl; intros Hlen;
    try reflexivity; try lia.
  rewrite IH; [reflexivity | lia].
Qed.

Lemma append_length (p t : string) :
  String.length (p +:+ t) = (String.length p + String.length t)%nat.
Proof. induction p as [|c p IH]; simpl; [reflexivity | now rewrite IH]. Qed.

Lemma prefix_append (p t : string) : String.prefix p (p +:+ t) = true.
Proof.
  induction p as [|c p IH]; simpl; [now destruct t|].
  destruct (ascii_dec c c); [exact IH | congruence].
Qed.

Lemma replace_unfold (pat rep s : string) :
  Js.replace pat rep s =
    if String.prefix pat s
    then rep +:+ String.substring (String.length pat)
                                  (String.length s - String.length pat) s
    else match s with
         | EmptyString => EmptyString
         | String c s' => String c (Js.replace pat rep s')
         end.
Proof. destruct s; reflexivity. Qed.

(** A string that starts with the pattern has it replaced there. *)
Lemma replace_prefix (pat rep t : string) : Js.replace pat rep (pat +:+ t) = rep +:+ t.
Proof.
  rewrite replace_unfold, prefix_append, append_length.
  replace (String.length pat + String.length t - String.length pat)%nat
    with (String.length t) by lia.
  now rewrite substring_tail.
Qed.

(** ** Reshaped fields *)

(** The first [n] characters of a string: a prefix of it, of [n]
    characters or of all there are. *)
Lemma substring0_prefix (n : nat) (s : string) :
  exists rest, s = String.substring 0 n s +:+ rest
               /\ String.length (String.substring 0 n s) = Nat.min n (String.length s).
Proof.
  revert s. induction n as [|n IH]; intros [|c s]; simpl.
  - exists "". split; reflexivity.
  - exists (String c s). split; reflexivity.
  - exists "". split; reflexivity.
  - destruct (IH s) as [rest [Hs Hlen]]. exists rest.
    split; [|f_equal; exact Hlen].
    change (String c s = String c (String.substring 0 n s +:+ rest)). f_equal. exact Hs.
Qed.

(** X1. The description of a search result is the first 300 characters of
    the provider's description -- all of it when it has fewer -- followed
    by ["..."], and ["undefined..."] when the item has no description; so
    it has at most 303 characters and is never the fallback text, whatever
    the item holds. *)
Theorem search_description_shape (d : option string) :
  (forall s, d = Some s ->
     exists p rest,
       s = p +:+ rest
       /\ String.length p = Nat.min 300 (String.length s)
       /\ description_of d = p +:+ "...")
  /\ (d = None -> description_of d = "undefined...")
  /\ (String.length (description_of d) <= 303)%nat
  /\ description_of d <> "No description available".
Proof.
  assert (Hsome : forall s, description_of (Some s) = String.substring 0 300 s +:+ "...").
  { intros s. unfold description_of, plus_ellipsis, description_prefix, Js.or_string,
      Js.substring0.
    destruct (String.eqb_spec (String.substring 0 300 s +:+ "...") "") as [Hempty|_];
      [|reflexivity].
    apply (f_equal String.length) in Hempty. rewrite append_length in Hempty.
    simpl in Hempty. lia. }
  split; [|split; [|split]].
  - intros s ->. destruct (substring0_prefix 300 s) as [rest [Hs Hlen]].
    exists (String.substring 0 300 s), rest. split; [exact Hs|]. split; [exact Hlen|].
    apply Hsome.
  - intros ->. reflexivity.
  - destruct d as [s|]; [|simpl; lia].
    rewrite Hsome, append_length. pose proof (substring0_length 300 s). simpl. lia.
  - destruct d as [s|]; [|discriminate].
    rewrite Hsome. intros Heq.
    pose proof (f_equal String.length Heq) as Hl. rewrite append_length in Hl. simpl in Hl.
    pose proof (substring_tail (String.substring 0 300 s) "...") as Htail.
    rewrite Heq in Htail.
    replace (String.length (String.substring 0 300 s)) with 21%nat in Htail by lia.
    discriminate Htail.
Qed.

(** X1 on a description of two characters, and on one of 512. *)
Lemma search_description_shape_witness :
  description_of (Some "Hi") = "Hi..."
  /\ String.length (description_of (Some (Fixture.long_name +:+ Fixture.long_name))) = 303%nat.
Proof.
  destruct (search_description_shape (Some "Hi")) as [Hprefix _].
  destruct (Hprefix "Hi" eq_refl) as [p [rest (Hsplit & Hlen & Hshape)]].
  split; [|reflexivity].
  rewrite Hshape. f_equal.
  destruct p as [|c1 [|c2 [|c3 p]]]; try discriminate.
  simpl in Hsplit. now injection Hsplit as <- <- _.
Defined.

(** [replace] against the standard library's search for the first
    occurrence: the text before it, the replacement, the text after it;
    without an occurrence the string is returned as it is. *)
Lemma replace_index (pat rep s : string) :
  Js.replace pat rep s =
    match String.index 0 pat s with
    | Some n =>
        String.substring 0 n s +:+ rep
          +:+ String.substring (n + String.length pat)
                               (String.length s - n - String.length pat) s
    | None => s
    end.
Proof.
  induction s as [|c s IH].
  - destruct pat; reflexivity.
  - rewrite replace_unfold.
    change (String.index 0 pat (String c s))
      with (if String.prefix pat (String c s) then Some 0%nat
            else match String.index 0 pat s with
                 | Some n => Some (S n)
                 | None => None
                 end).
    destruct (String.prefix pat (String c s)).
    + cbn [String.substring Nat.add append].
      now rewrite Nat.sub_0_r.
    + rewrite IH. destruct (String.index 0 pat s) as [n|]; reflexivity.
Qed.

(** X2. The cover of a search result is the thumbnail with its first
    ["http:"] replaced by ["https:"]: what stands before the first
    occurrence and what stands after it are kept, and a thumbnail without
    ["http:"] is returned as it is. Without image links, without a
    thumbnail or with an empty one the cover is [null]; it is never the
    empty string. *)
Theorem cover_is_https (links : option ImageLinks) :
  (forall l t n, links = Some l -> thumbnail l = Some t ->
     String.index 0 "http:" t = Some n ->
     cover_of links
     = Some (String.substring 0 n t +:+ "https:"
               +:+ String.substring (n + 5) (String.length t - n - 5) t))
  /\ (forall l t, links = Some l -> thumbnail l = Some t ->
        String.index 0 "http:" t = None -> t <> "" -> cover_of links = Some t)
  /\ (forall l rest, links = Some l -> thumbnail l = Some ("http:" +:+ rest) ->
        cover_of links = Some ("https:" +:+ rest))
  /\ (forall l, links = Some l -> thumbnail l = Some "" -> cover_of links = None)
  /\ (links = None -> cover_of links = None)
  /\ (forall l, links = Some l -> thumbnail l = None -> cover_of links = None)
  /\ cover_of links <> Some "".
Proof.
  split; [|split; [|split; [|split; [|split; [|split]]]]].
  - intros l t n -> Hthumb Hindex. unfold cover_of. rewrite Hthumb. cbv zeta.
    rewrite replace_index, Hindex. change (String.length "http:") with 5%nat.
    destruct (String.eqb_spec (String.substring 0 n t +:+ "https:"
                +:+ String.substring (n + 5) (String.length t - n - 5) t) "")
      as [Hempty|_]; [|reflexivity].
    apply (f_equal String.length) in Hempty. rewrite !append_length in Hempty.
    simpl in Hempty. lia.
  - intros l t -> Hthumb Hindex Hne. unfold cover_of. rewrite Hthumb. cbv zeta.
    rewrite replace_index, Hindex. destruct (String.eqb_spec t ""); congruence.
  - intros l rest -> Hthumb. unfold cover_of. rewrite Hthumb.
    assert (Hrep : Js.replace "http:" "https:" ("http:" +:+ rest) = "https:" +:+ rest)
      by apply replace_prefix.
    rewrite Hrep. reflexivity.
  - intros l -> Hthumb. unfold cover_of. now rewrite Hthumb.
  - intros ->. reflexivity.
  - intros l -> Hthumb. unfold cover_of. now rewrite Hthumb.
  - unfold cover_of. destruct links as [l|]; [|discriminate].
    destruct (thumbnail l) as [t|]; [|discriminate].
    destruct (String.eqb_spec (Js.replace "http:" "https:" t) ""); congruence.
Qed.

(** X2 on a thumbnail served over plain http, on one that is served over
    https already, and on one that mentions ["http:"] further on. *)
Lemma cover_is_https_witness :
  cover_of (Some {| thumbnail := Some "http://books.example/t.jpg" |})
    = Some "https://books.example/t.jpg"
  /\ cover_of (Some {| thumbnail := Some "https://books.example/t.jpg" |})
     = Some "https://books.example/t.jpg"
  /\ cover_of (Some {| thumbnail := Some "//proxy/http://a/http://b" |})
     = Some "//proxy/https://a/http://b".
Proof.
  split; [|split].
  - destruct (cover_is_https (Some {| thumbnail := Some "http://books.example/t.jpg" |}))
      as (_ & _ & Hhttp & _).
    exact (Hhttp _ "//books.example/t.jpg" eq_refl eq_refl).
  - destruct (cover_is_https (Some {| thumbnail := Some "https://books.example/t.jpg" |}))
      as (_ & Hnone & _).
    apply (Hnone _ _ eq_refl eq_refl eq_refl). discriminate.
  - destruct (cover_is_https (Some {| thumbnail := Some "//proxy/http://a/http://b" |}))
      as (Hfirst & _).
    exact (Hfirst _ _ 8%nat eq_refl eq_refl eq_refl).
Defined.

(** ** The cache sweep *)

(** X3. The hourly sweep drops exactly the entries older than the
    time-to-live and keeps every other entry as it is. An entry whose age
    is exactly the time-to-live survives the sweep, although a read at that
    moment treats it as expired and evicts it. *)
Theorem sweep_drops_the_expired {V : Type} (c : gmap string (CacheEntry V)) (t : Z) (url : string) :
  (forall e, c !! url = Some e -> t - timestamp e <= CACHE_TTL -> sweep t c !! url = Some e)
  /\ (forall e, c !! url = Some e -> CACHE_TTL < t - timestamp e -> sweep t c !! url = None)
  /\ (c !! url = None -> sweep t c !! url = None)
  /\ (forall e, c !! url = Some e -> t - timestamp e = CACHE_TTL ->
        sweep t c !! url = Some e /\ getCachedOrFetch url t c = (None, delete url c)).
Proof.
  assert (Hkeep : forall e, c !! url = Some e -> t - timestamp e <= CACHE_TTL ->
                            sweep t c !! url = Some e).
  { intros e He Hage. unfold sweep. apply map_lookup_filter_Some. split; [exact He|].
    simpl. lia. }
  split; [exact Hkeep|]. split; [|split].
  - intros e He Hage. unfold sweep. apply map_lookup_filter_None. right.
    intros e' He'. simpl. assert (e' = e) by congruence. subst e'. lia.
  - intros Hnone. unfold sweep. apply map_lookup_filter_None. now left.
  - intros e He Hage. split; [apply Hkeep; [exact He | lia]|].
    apply (getCachedOrFetch_stale _ _ _ _ He). lia.
Qed.

(** X3 on an entry written at time 0 and inspected one hour later. *)
Lemma sweep_drops_the_expired_witness :
  sweep 3600000 (cache_set "k" 7%nat 0 ∅) !! "k" = Some {| data := 7%nat; timestamp := 0 |}
  /\ fst (getCachedOrFetch "k" 3600000 (cache_set "k" 7%nat 0 ∅)) = None.
Proof.
  destruct (sweep_drops_the_expired (cache_set "k" 7%nat 0 ∅) 3600000 "k")
    as [_ [_ [_ Hedge]]].
  destruct (Hedge {| data := 7%nat; timestamp := 0 |}) as [Hkept Hread];
    [apply lookup_insert_eq | reflexivity |].
  split; [exact Hkept | now rewrite Hread].
Defined.

(** ** The search handler *)

Lemma trim_start_blank (s : string) : Js.trim_start s = "" <-> blank s = true.
Proof.
  induction s as [|c s IH]; simpl; [tauto|].
  destruct (Js.is_space c); simpl; [exact IH|]. split; discriminate.
Qed.

Lemma blank_rev_app (a b : string) : blank (String.rev_app a b) = (blank a && blank b)%bool.
Proof.
  revert b. induction a as [|c a IH]; intros b; simpl; [reflexivity|].
  rewrite IH. simpl. destruct (Js.is_space c), (blank a), (blank b); reflexivity.
Qed.

Lemma trim_start_keeps_blankness (s : string) : blank (Js.trim_start s) = blank s.
Proof.
  induction s as [|c s IH]; simpl; [reflexivity|].
  destruct (Js.is_space c) eqn:Hc; simpl; [exact IH | now rewrite Hc].
Qed.

Lemma rev_app_empty (a b : string) : String.rev_app a b = "" -> a = "" /\ b = "".
Proof.
  revert b. induction a as [|c a IH]; intros b; simpl; [auto|].
  intros Hrev. destruct (IH _ Hrev) as [_ Hb]. discriminate.
Qed.

(** [trim] gives the empty string exactly on the strings made of white
    space. *)
Lemma trim_empty (s : string) : Js.trim s = "" <-> blank s = true.
Proof.
  unfold Js.trim, String.rev. split.
  - intros Hrev. apply rev_app_empty in Hrev as [Hinner _].
    apply trim_start_blank in Hinner. rewrite blank_rev_app in Hinner.
    apply andb_prop in Hinner as [Hinner _]. now rewrite trim_start_keeps_blankness in Hinner.
  - intros Hblank. apply trim_start_blank in Hblank. rewrite Hblank. reflexivity.
Qed.

Lemma miss_leaves_no_entry {V : Type} (c : gmap string (CacheEntry V)) url t :
  fst (getCachedOrFetch url t c) = None ->
  snd (getCachedOrFetch url t c) !! url = None
  /\ forall url', url' <> url -> snd (getCachedOrFetch url t c) !! url' = c !! url'.
Proof.
  unfold getCachedOrFetch. destruct (c !! url) as [e|] eqn:He.
  - destruct (t - timestamp e <? CACHE_TTL); [discriminate|]. intros _. simpl.
    split; [apply lookup_delete_eq|]. intros url' Hne. apply lookup_delete_ne. congruence.
  - intros _. simpl. auto.
Qed.

Section SearchExtras.
Context `{Platform}.

(** The guard of the handler refuses exactly the queries that are missing
    or made of white space only. *)
Lemma query_rejected_blank query :
  query_rejected query = true <-> query = None \/ exists s, query = Some s /\ blank s = true.
Proof.
  unfold query_rejected. destruct query as [s|]; simpl.
  - split.
    + intros Hrej. right. exists s. split; [reflexivity|].
      apply orb_prop in Hrej as [Hempty|Htrim].
      * apply negb_true_iff, negb_false_iff, String.eqb_eq in Hempty. now subst s.
      * apply trim_empty. now apply String.eqb_eq.
    + intros [Hnone|[s' [Hs Hblank]]]; [discriminate|]. injection Hs as <-.
      apply trim_empty in Hblank. rewrite Hblank. apply orb_true_r.
  - split; [now left | reflexivity].
Qed.

(** X4. A search request whose query is missing, empty or made of white
    space only is counted by the limiter like any search. While the caller
    is within the allowance it is answered 400 with "Search query is
    required", beyond it 429. Either way the cache is neither read nor
    written, and the answer does not depend on the provider. *)
Theorem blank_query_is_rejected req env w query maxResults startIndex :
  route req = SearchRoute query maxResults startIndex ->
  (query = None \/ exists s, query = Some s /\ blank s = true) ->
  cache (snd (serve req env w)) = cache w
  /\ limiterStore (snd (serve req env w))
     = snd (increment searchLimiter_options (ip req) (now env) (limiterStore w))
  /\ (hits_total (fst (increment searchLimiter_options (ip req) (now env) (limiterStore w)))
        <= 50 ->
      status (fst (serve req env w)) = 400
      /\ body (fst (serve req env w)) = Some (BError "Search query is required"))
  /\ (50 < hits_total (fst (increment searchLimiter_options (ip req) (now env)
                              (limiterStore w))) ->
      status (fst (serve req env w)) = 429)
  /\ (forall other : string -> FetchOutcome,
        serve req {| now := now env; later := later env; upstream := other |} w
        = serve req env w).
Proof.
  intros Hroute Hblank. apply query_rejected_blank in Hblank.
  assert (Hrun : forall e res' w', searchHandler query maxResults startIndex req e res' w'
            = (json (BError "Search query is required") (set_status 400 res'), w')).
  { intros e res' w'. unfold searchHandler. fold (query_rejected query). now rewrite Hblank. }
  unfold serve. rewrite Hroute. unfold searchLimiter, rateLimit. cbn [now].
  destruct (increment _ _ _ _) as [h st]. cbn [fst snd].
  change (max searchLimiter_options) with 50. rewrite !Hrun.
  destruct (Z.ltb_spec 50 (hits_total h)) as [Hover|Hwithin]; cbn [fst snd];
    (split; [reflexivity|]); (split; [reflexivity|]).
  - split; [lia|]. split; [reflexivity|]. intros other. reflexivity.
  - split; [intros _; split; reflexivity|]. split; [lia|]. intros other.
    now rewrite Hrun.
Qed.

(** What a search that went to the provider and succeeded left in the
    cache. *)
Lemma search_fetched query maxResults startIndex req env res w rd :
  fst (getCachedOrFetch (url_of query maxResults startIndex) (now env) (cache w)) = None ->
  body (fst (searchHandler query maxResults startIndex req env res w)) = Some (BSearch rd) ->
  query_rejected query = false
  /\ cache (snd (searchHandler query maxResults startIndex req env res w))
     = cache_set (url_of query maxResults startIndex) rd (later env)
         (snd (getCachedOrFetch (url_of query maxResults startIndex) (now env) (cache w))).
Proof.
  unfold searchHandler. fold (query_rejected query).
  destruct (query_rejected query); [discriminate|].
  fold (url_of query maxResults startIndex).
  destruct (getCachedOrFetch _ _ _) as [cached c1]. simpl. intros ->.
  destruct (upstream env _) as [msg|ok st [msg|doc]]; [discriminate| |].
  - destruct (negb ok); discriminate.
  - destruct (negb ok); [discriminate|].
    destruct (map_throwing reshape _); [|discriminate].
    simpl. intros [= <-]. split; reflexivity.
Qed.

(** X5. A search that is fetched from the provider leaves its document in
    the cache under its URL, with the time of storing. While that entry is
    there and less than one hour old, every search request with the same
    query, page size and start index that the limiter lets through is
    answered 200 with that very document, whatever the provider would
    answer by then; beyond the allowance the request is answered 429. The
    cache stays as it is in both cases. *)
Theorem repeated_search_is_served_from_cache req env w query maxResults startIndex rd ts :
  route req = SearchRoute query maxResults startIndex ->
  query_rejected query = false ->
  cache w !! url_of query maxResults startIndex = Some {| data := rd; timestamp := ts |} ->
  now env - ts < CACHE_TTL ->
  cache (snd (serve req env w)) = cache w
  /\ (hits_total (fst (increment searchLimiter_options (ip req) (now env) (limiterStore w)))
        <= 50 ->
      status (fst (serve req env w)) = 200
      /\ body (fst (serve req env w)) = Some (BSearch rd))
  /\ (50 < hits_total (fst (increment searchLimiter_options (ip req) (now env)
                              (limiterStore w))) ->
      status (fst (serve req env w)) = 429)
  /\ (forall other : string -> FetchOutcome,
        serve req {| now := now env; later := later env; upstream := other |} w
        = serve req env w)
  /\ (forall req0 env0 res0 w0,
        fst (getCachedOrFetch (url_of query maxResults startIndex) (now env0) (cache w0))
          = None ->
        body (fst (searchHandler query maxResults startIndex req0 env0 res0 w0))
          = Some (BSearch rd) ->
        cache (snd (searchHandler query maxResults startIndex req0 env0 res0 w0))
          !! url_of query maxResults startIndex
        = Some {| data := rd; timestamp := later env0 |}).
Proof.
  intros Hroute Hq Hentry Hage.
  assert (Hrun : forall (e : Env) res' st, now e = now env ->
            searchHandler query maxResults startIndex req e res' (with_store st w)
              = (json (BSearch rd) res', with_store st w)).
  { intros e res' st He.
    rewrite (search_cache_hit query maxResults startIndex req e res' (with_store st w)
               rd (cache w) Hq); [reflexivity|].
    rewrite He. exact (getCachedOrFetch_fresh _ _ _ _ Hentry Hage). }
  split; [|split; [|split; [|split]]].
  - unfold serve. rewrite Hroute. unfold searchLimiter, rateLimit.
    destruct (increment _ _ _ _) as [h st]. change (max searchLimiter_options) with 50.
    rewrite (Hrun env _ st eq_refl). destruct (50 <? hits_total h); reflexivity.
  - unfold serve. rewrite Hroute. unfold searchLimiter, rateLimit.
    destruct (increment _ _ _ _) as [h st]. change (max searchLimiter_options) with 50.
    cbn [fst]. intros Hwithin. destruct (Z.ltb_spec 50 (hits_total h)); [lia|].
    rewrite (Hrun env _ st eq_refl). split; reflexivity.
  - unfold serve. rewrite Hroute. unfold searchLimiter, rateLimit.
    destruct (increment _ _ _ _) as [h st]. change (max searchLimiter_options) with 50.
    cbn [fst]. intros Hover. destruct (Z.ltb_spec 50 (hits_total h)); [reflexivity | lia].
  - intros other. unfold serve. rewrite Hroute. unfold searchLimiter, rateLimit. cbn [now].
    destruct (increment _ _ _ _) as [h st]. change (max searchLimiter_options) with 50.
    destruct (50 <? hits_total h); [reflexivity|].
    rewrite (Hrun env _ st eq_refl). now apply Hrun.
  - intros req0 env0 res0 w0 Hmiss Hbody.
    destruct (search_fetched _ _ _ _ _ _ _ _ Hmiss Hbody) as [_ Hcache].
    rewrite Hcache. apply lookup_insert_eq.
Qed.


End SearchExtras.

(** X4 on a query of two spaces and a tab, sent by a caller without an
    open window. *)
Lemma blank_query_is_rejected_witness :
  status (fst (@serve Sample.platform
                 {| ip := Sample.client; route := SearchRoute (Some "  	") None None |}
                 (Sample.env_ok 0) empty_world)) = 400
  /\ limiterStore (snd (@serve Sample.platform
                          {| ip := Sample.client;
                             route := SearchRoute (Some "  	") None None |}
                          (Sample.env_ok 0) empty_world)) !! Sample.client
     = Some {| hits_total := 1; hits_reset := DAY_MS |}.
Proof.
  destruct (@blank_query_is_rejected Sample.platform
              {| ip := Sample.client; route := SearchRoute (Some "  	") None None |}
              (Sample.env_ok 0) empty_world (Some "  	") None None eq_refl)
    as (_ & Hstore & Hwithin & _).
  - right. exists "  	". split; reflexivity.
  - split; [apply Hwithin; vm_compute; discriminate|]. rewrite Hstore. reflexivity.
Defined.

(** X5 on a search answered by the provider at time 0 and repeated at time
    1000 with the provider unreachable. *)
Lemma repeated_search_is_served_from_cache_witness :
  body (fst (@serve Sample.platform Sample.search_request (Sample.env 1000)
               (snd (@serve Sample.platform Sample.search_request (Sample.env_ok 0)
                       empty_world))))
  = body (fst (@serve Sample.platform Sample.search_request (Sample.env_ok 0) empty_world)).
Proof.
  destruct (@repeated_search_is_served_from_cache Sample.platform
              Sample.search_request (Sample.env 1000)
              (snd (@serve Sample.platform Sample.search_request (Sample.env_ok 0)
                      empty_world))
              (Some "dune") None None
              {| rd_books := default [] (map_throwing reshape [Sample.dune]);
                 rd_totalItems := 1; rd_query := "dune" |} 40
              eq_refl eq_refl eq_refl eq_refl) as (_ & Hwithin & _).
  destruct Hwithin as [_ Hbody]; [vm_compute; discriminate|].
  rewrite Hbody. reflexivity.
Defined.


Section HeaderExtras.
Context `{Platform}.

(** X7. The handler's own header [X-Searches-Remaining] is written only
    when the answer was fetched from the provider: it then repeats the
    response's [RateLimit-Remaining] header, except that a missing header
    and the number 0 are shown as the string ['50']. An answer from the
    cache leaves the headers as the handler found them. *)
Theorem extra_header_only_when_fetched query maxResults startIndex req env res w :
  query_rejected query = false ->
  (forall d c1,
     getCachedOrFetch (url_of query maxResults startIndex) (now env) (cache w) = (Some d, c1) ->
     headers (fst (searchHandler query maxResults startIndex req env res w)) = headers res)
  /\ (forall st doc,
        fst (getCachedOrFetch (url_of query maxResults startIndex) (now env) (cache w)) = None ->
        upstream env (url_of query maxResults startIndex) = Reply true st (Json doc) ->
        map_throwing reshape (default [] (items doc)) <> None ->
        (forall n, n <> 0 -> getHeader "RateLimit-Remaining" res = Some (HNum n) ->
           getHeader "X-Searches-Remaining"
                     (fst (searchHandler query maxResults startIndex req env res w))
             = Some (HNum n))
        /\ (getHeader "RateLimit-Remaining" res = Some (HNum 0)
            \/ getHeader "RateLimit-Remaining" res = None ->
            getHeader "X-Searches-Remaining"
                      (fst (searchHandler query maxResults startIndex req env res w))
              = Some (HStr "50"))).
Proof.
  intros Hq. split.
  - intros d c1 Hhit. now rewrite (search_cache_hit _ _ _ _ _ _ _ _ _ Hq Hhit).
  - intros st doc Hmiss Hup Hbooks.
    pose proof (search_fetch_extra_header _ _ _ req _ res _ _ _ Hq Hmiss Hup Hbooks) as Hextra.
    split.
    + intros n Hn Hrem. rewrite Hextra, Hrem. simpl.
      destruct (Z.eqb_spec n 0); [contradiction | reflexivity].
    + intros [Hrem|Hrem]; rewrite Hextra, Hrem; reflexivity.
Qed.

(** X8. The status handler never reports a limit or a remaining count of
    0: a [RateLimit-Remaining] header that is missing or holds the number 0
    is reported as 50 remaining, any other number as itself. The handler
    leaves the cache and the limiter's store untouched. *)
Theorem status_never_reports_zero req env res w :
  body res = None ->
  snd (statusHandler req env res w) = w
  /\ (forall limit remaining resetTime,
        body (fst (statusHandler req env res w)) = Some (BStatus limit remaining resetTime) ->
        limit <> 0 /\ remaining <> 0
        /\ (forall n, getHeader "RateLimit-Remaining" res = Some (HNum n) ->
              (n <> 0 -> remaining = n) /\ (n = 0 -> remaining = 50))
        /\ (getHeader "RateLimit-Remaining" res = None -> remaining = 50)).
Proof.
  intros Hfresh.
  assert (Hor : forall x, or_number x 50 <> 0).
  { intros [[|n|n]|]; simpl; discriminate. }
  assert (Hnum : forall n, (n <> 0 -> or_number (Some n) 50 = n)
                           /\ (n = 0 -> or_number (Some n) 50 = 50)).
  { intros n. unfold or_number. destruct n; split; auto; try discriminate; congruence. }
  unfold statusHandler. split.
  - destruct (header_truthy _); [|reflexivity].
    destruct (parseInt _) as [s|]; [|reflexivity].
    destruct (Z.abs (s * 1000) <=? MAX_TIME_VALUE); reflexivity.
  - intros limit remaining resetTime Hbody.
    assert (Hvals : limit = or_number (parseInt (getHeader "RateLimit-Limit" res)) 50
                    /\ remaining = or_number (parseInt (getHeader "RateLimit-Remaining" res)) 50).
    { destruct (header_truthy _).
      - destruct (parseInt (getHeader "RateLimit-Reset" res)) as [s|].
        + destruct (Z.abs (s * 1000) <=? MAX_TIME_VALUE); simpl in Hbody.
          * injection Hbody as <- <- _. auto.
          * congruence.
        + simpl in Hbody. congruence.
      - simpl in Hbody. injection Hbody as <- <- _. auto. }
    destruct Hvals as [-> ->]. split; [apply Hor|]. split; [apply Hor|]. split.
    + intros n ->. apply Hnum.
    + intros ->. reflexivity.
Qed.

End HeaderExtras.

(** X7 on a fetched answer behind a limiter header that says 0 remaining. *)
Lemma extra_header_only_when_fetched_witness :
  getHeader "X-Searches-Remaining"
    (fst (@searchHandler Sample.platform (Some "dune") None None Sample.search_request
            (Sample.env_ok 0)
            (setHeader "RateLimit-Remaining" (HNum 0) fresh_response) empty_world))
  = Some (HStr "50").
Proof.
  destruct (@extra_header_only_when_fetched Sample.platform (Some "dune") None None
              Sample.search_request (Sample.env_ok 0)
              (setHeader "RateLimit-Remaining" (HNum 0) fresh_response) empty_world eq_refl)
    as [_ Hfetched].
  destruct (Hfetched 200 Sample.dune_reply eq_refl eq_refl) as [_ Hzero]; [discriminate|].
  apply Hzero. left. reflexivity.
Defined.

(** X8 on a response whose limiter header says 0 remaining. *)
Lemma status_never_reports_zero_witness :
  body (fst (@statusHandler Sample.platform Sample.status_request (Sample.env 0)
               (setHeader "RateLimit-Remaining" (HNum 0) fresh_response) empty_world))
  = Some (BStatus 50 50 None).
Proof.
  destruct (@status_never_reports_zero Sample.platform Sample.status_request (Sample.env 0)
              (setHeader "RateLimit-Remaining" (HNum 0) fresh_response) empty_world eq_refl)
    as [_ Hreport].
  destruct (Hreport 50 50 None eq_refl) as [_ [_ [Hzero _]]].
  destruct (Hzero 0 eq_refl) as [_ Hfifty].
  pose proof (Hfifty eq_refl) as Hsame. reflexivity.
Defined.

(** ** The health route *)

Section HealthExtras.
Context `{Platform}.

(** X9. In the server with accounts the health route is not behind the
    limiter and changes nothing: it reports the number of entries the
    cache holds, and dropping the health requests from a sequence of
    search, status and health requests leaves the cache and every counter
    exactly as the full sequence leaves them. *)
Theorem health_checks_are_invisible (trace : list (Request * Env)) (w : World) :
  run (List.filter (fun re => negb (is_health re)) trace) w = run trace w
  /\ forall req env, route req = HealthRoute ->
       serve req env w = (json (BHealth (now env) (size (cache w))) fresh_response, w).
Proof.
  split.
  - revert w. induction trace as [|[req env] rest IH]; intros w; [reflexivity|].
    simpl. unfold is_health at 1. simpl.
    destruct (route req) eqn:Hroute; simpl.
    + unfold serve at 2. rewrite Hroute. unfold serve at 1. rewrite Hroute. apply IH.
    + unfold serve at 2. rewrite Hroute. unfold serve at 1. rewrite Hroute. apply IH.
    + unfold serve. rewrite Hroute. simpl. apply IH.
  - intros req env Hroute. unfold serve. rewrite Hroute. reflexivity.
Qed.

End HealthExtras.

(** X9 on a health check between two searches. *)
Lemma health_checks_are_invisible_witness :
  @run Sample.platform
       [(Sample.search_request, Sample.env_ok 0); (Fixture.health_request, Sample.env 1);
        (Sample.search_request, Sample.env 2)] empty_world
  = @run Sample.platform
         [(Sample.search_request, Sample.env_ok 0); (Sample.search_request, Sample.env 2)]
         empty_world.
Proof.
  destruct (@health_checks_are_invisible Sample.platform
              [(Sample.search_request, Sample.env_ok 0); (Fixture.health_request, Sample.env 1);
               (Sample.search_request, Sample.env 2)] empty_world) as [Hrun _].
  rewrite <- Hrun. reflexivity.
Defined.

(** ** The book-detail endpoint *)

Section DetailExtras.
Context `{Platform}.

(** X10. The cache key of a volume is never the cache key of a search,
    whatever the id, the query and the paging: the detail view and the
    search can not serve each other's cached documents. *)
Theorem detail_key_is_no_search_key (id query maxResults startIndex : string) :
  String.eqb (book_url id) (search_url query maxResults startIndex) = false.
Proof. unfold book_url, search_url, GOOGLE_BOOKS_BASE_URL. reflexivity. Qed.

Lemma detail_of_defined doc vd :
  dj_volumeInfo doc = Some vd -> exists book, detail_of doc = Some book.
Proof. intros Hvd. unfold detail_of. rewrite Hvd. eauto. Qed.

(** X11. A volume that is not cached (or whose entry expired) is fetched;
    when the provider answers ok with a document that has a [volumeInfo],
    the book is returned and stored under the volume's URL, and every
    request for the same id less than one hour after that is answered with
    the same book without the provider. *)
Theorem detail_is_fetched_once id env c st doc vd env' :
  fst (getCachedOrFetch (book_url id) (d_now env) c) = None ->
  d_upstream env (book_url id) = DetailReply true st (DetailDoc doc) ->
  dj_volumeInfo doc = Some vd ->
  d_now env' - d_later env < CACHE_TTL ->
  exists book,
    detail_of doc = Some book
    /\ fst (bookHandler id env c) = DetailOk book
    /\ snd (bookHandler id env c) !! book_url id
       = Some {| data := book; timestamp := d_later env |}
    /\ bookHandler id env' (snd (bookHandler id env c))
       = (DetailOk book, snd (bookHandler id env c)).
Proof.
  intros Hmiss Hup Hvd Hage. destruct (detail_of_defined doc vd Hvd) as [book Hbook].
  exists book. split; [exact Hbook|].
  assert (Hrun : bookHandler id env c
            = (DetailOk book,
               cache_set (book_url id) book (d_later env)
                 (snd (getCachedOrFetch (book_url id) (d_now env) c)))).
  { unfold bookHandler. destruct (getCachedOrFetch _ _ _) as [cached c1].
    simpl in Hmiss. subst cached. rewrite Hup. cbn [negb]. now rewrite Hbook. }
  rewrite Hrun. cbn [fst snd].
  assert (Hentry : cache_set (book_url id) book (d_later env)
                     (snd (getCachedOrFetch (book_url id) (d_now env) c)) !! book_url id
                   = Some {| data := book; timestamp := d_later env |})
    by apply lookup_insert_eq.
  split; [reflexivity|]. split; [exact Hentry|].
  unfold bookHandler at 1.
  rewrite (getCachedOrFetch_fresh _ _ _ _ Hentry); [reflexivity | simpl; lia].
Qed.

(** X12. A detail request that fails -- the provider unreachable or
    answering not ok, a body that is no JSON, a document without
    [volumeInfo] -- stores nothing under the volume's URL and touches no
    other entry; a reply that is not ok is reported with the provider's
    status in the details. *)
Theorem failed_detail_is_not_cached id env c details :
  fst (bookHandler id env c) = DetailFailed details ->
  snd (bookHandler id env c) !! book_url id = None
  /\ (forall url', url' <> book_url id -> snd (bookHandler id env c) !! url' = c !! url')
  /\ (forall st payload,
        d_upstream env (book_url id) = DetailReply false st payload ->
        details = "Google Books API error: " +:+ pretty st).
Proof.
  unfold bookHandler.
  pose proof (miss_leaves_no_entry c (book_url id) (d_now env)) as Hmiss.
  destruct (getCachedOrFetch _ _ _) as [[book|] c1]; [discriminate|].
  destruct (Hmiss eq_refl) as [Hnone Hothers]. simpl in Hnone, Hothers.
  destruct (d_upstream env _) as [msg|ok st [msg|doc]].
  - intros _. simpl. repeat split; auto. discriminate.
  - destruct ok; simpl; intros [= <-]; repeat split; auto;
      intros st' payload' [= <- <-]; reflexivity.
  - destruct ok; cbn [negb].
    + destruct (detail_of doc); [discriminate|]. intros _. simpl. repeat split; auto.
      discriminate.
    + simpl. intros [= <-]. repeat split; auto. intros st' payload' [= <- <-]. reflexivity.
Qed.

End DetailExtras.

(** X13. In the detail view the fallback works: a missing or empty
    description is shown as "No description available" and any other
    description in full, however long. The ISBN is the identifier of the
    first entry of type ["ISBN_13"] -- whatever stands after it -- and is
    absent when the volume has no identifiers or none of that type. *)
Theorem detail_description_and_isbn doc vd :
  dj_volumeInfo doc = Some vd ->
  exists book,
    detail_of doc = Some book
    /\ (vi_description (vd_info vd) = None \/ vi_description (vd_info vd) = Some "" ->
        bd_description book = "No description available")
    /\ (forall s, vi_description (vd_info vd) = Some s -> s <> "" -> bd_description book = s)
    /\ (forall before i after,
          vd_industryIdentifiers vd = Some (before ++ i :: after)%list ->
          (forall j, In j before -> id_type j <> Some "ISBN_13") ->
          id_type i = Some "ISBN_13" ->
          bd_isbn book = id_identifier i)
    /\ (forall ids, vd_industryIdentifiers vd = Some ids ->
          (forall i, In i ids -> id_type i <> Some "ISBN_13") -> bd_isbn book = None)
    /\ (vd_industryIdentifiers vd = None -> bd_isbn book = None).
Proof.
  intros Hvd. unfold detail_of. rewrite Hvd. eexists. split; [reflexivity|]. simpl.
  split; [|split; [|split; [|split]]].
  - intros [-> | ->]; reflexivity.
  - intros s -> Hs. unfold Js.or_string. destruct (String.eqb_spec s ""); congruence.
  - intros before i after -> Hbefore Htype. unfold isbn_of.
    induction before as [|j before IH]; simpl.
    + now rewrite Htype.
    + destruct (id_type j) as [t|] eqn:Hj.
      * destruct (String.eqb_spec t "ISBN_13") as [->|_].
        -- exfalso. exact (Hbefore j (or_introl eq_refl) Hj).
        -- apply IH. intros k Hk. apply Hbefore. now right.
      * apply IH. intros k Hk. apply Hbefore. now right.
  - intros ids -> Hnone. unfold isbn_of.
    destruct (List.find _ ids) as [i|] eqn:Hfind; [|reflexivity].
    apply find_some in Hfind as [Hin Htype]. exfalso. apply (Hnone i Hin).
    destruct (id_type i) as [t|]; [|discriminate]. apply String.eqb_eq in Htype. now subst t.
  - intros ->. reflexivity.
Qed.

(** X11 on a volume fetched at time 0 and asked for again at time 1000 with
    the provider unreachable. *)
Lemma detail_is_fetched_once_witness :
  fst (@bookHandler Sample.platform "B1" (Fixture.env_down 1000)
         (snd (@bookHandler Sample.platform "B1" (Fixture.env_ok 0) Fixture.no_books)))
  = fst (@bookHandler Sample.platform "B1" (Fixture.env_ok 0) Fixture.no_books).
Proof.
  destruct (@detail_is_fetched_once Sample.platform "B1" (Fixture.env_ok 0) Fixture.no_books 200
              Fixture.reply Fixture.volume (Fixture.env_down 1000)
              eq_refl eq_refl eq_refl eq_refl) as [book (_ & Hfirst & _ & Hagain)].
  now rewrite Hagain, Hfirst.
Defined.

(** X12 on an unreachable provider. *)
Lemma failed_detail_is_not_cached_witness :
  snd (@bookHandler Sample.platform "B1" (Fixture.env_down 0) Fixture.no_books)
    !! @book_url Sample.platform "B1" = None.
Proof.
  destruct (@failed_detail_is_not_cached Sample.platform "B1" (Fixture.env_down 0)
              Fixture.no_books "unreachable" eq_refl) as [Hnone _].
  exact Hnone.
Defined.

(** X13 on a volume without description and with an ISBN-10 before its
    ISBN-13. *)
Lemma detail_description_and_isbn_witness :
  exists book,
    detail_of Fixture.reply = Some book
    /\ bd_description book = "No description available"
    /\ bd_isbn book = Some "9780441013593".
Proof.
  destruct (detail_description_and_isbn Fixture.reply Fixture.volume eq_refl)
    as [book (Hbook & Hfallback & _)].
  exists book. split; [exact Hbook|]. split; [apply Hfallback; now left|].
  injection Hbook as <-. reflexivity.
Defined.

(** ** Accounts: registration, login and the guards *)



Lemma rev_app_rev_app (w a b : string) :
  String.rev_app (String.rev_app w a) b = String.rev_app a (w +:+ b).
Proof.
  revert a b. induction w as [|c w IH]; intros a b; simpl; [reflexivity|].
  now rewrite IH.
Qed.

Lemma rev_rev (w : string) : String.rev (String.rev w) = w.
Proof.
  unfold String.rev. rewrite rev_app_rev_app. simpl.
  induction w as [|c w IH]; [reflexivity|].
  change (String c (w +:+ "") = String c w). congruence.
Qed.

(** [split(' ')] on a string without a space, and on a first field followed
    by a space. *)
Lemma split_spaceless (w cur : string) :
  spaceless w = true -> split_spaces cur w = [String.rev (String.rev_app w cur)].
Proof.
  revert cur. induction w as [|c w IH]; intros cur Hw; simpl in *; [reflexivity|].
  apply andb_prop in Hw as [Hc Hw]. apply negb_true_iff in Hc. rewrite Hc. now apply IH.
Qed.

Lemma split_first_field (w cur rest : string) :
  spaceless w = true ->
  split_spaces cur (w +:+ String " " rest)
    = String.rev (String.rev_app w cur) :: split_spaces EmptyString rest.
Proof.
  revert cur. induction w as [|c w IH]; intros cur Hw; simpl in *; [reflexivity|].
  apply andb_prop in Hw as [Hc Hw]. apply negb_true_iff in Hc. rewrite Hc. now apply IH.
Qed.

Section AccountExtras.
Context `{Auth}.

Lemma authenticateToken_bearer authorization t :
  authenticateToken authorization t =
    if negb (Js.truthy_string (bearer_token authorization))
    then inr (error_response 401 "Access token required")
    else match verifyToken (default "" (bearer_token authorization)) t with
         | None => inr (error_response 403 "Invalid or expired token")
         | Some claims => inl claims
         end.
Proof. reflexivity. Qed.

(** X14. The strict guard reads the token as the second space-separated
    field of the [authorization] header and ignores the first. A missing
    header, a header of one field and a header with two spaces after the
    scheme are answered 401; a second field that does not verify is
    answered 403; one that verifies yields its claims, under any scheme
    word. The permissive guard attaches exactly the claims the strict guard
    would accept. *)
Theorem guards_read_the_second_field (t : Z) :
  authenticateToken None t = inr (error_response 401 "Access token required")
  /\ (forall h, spaceless h = true ->
        authenticateToken (Some h) t = inr (error_response 401 "Access token required"))
  /\ (forall scheme tok, spaceless scheme = true ->
        authenticateToken (Some (scheme +:+ String " " (String " " tok))) t
          = inr (error_response 401 "Access token required"))
  /\ (forall scheme tok, spaceless scheme = true -> spaceless tok = true -> tok <> "" ->
        authenticateToken (Some (scheme +:+ String " " tok)) t
          = match verifyToken tok t with
            | Some claims => inl claims
            | None => inr (error_response 403 "Invalid or expired token")
            end)
  /\ (forall authorization claims,
        authenticateToken authorization t = inl claims
        <-> optionalAuth authorization t = Some claims).
Proof.
  assert (Hnonempty : forall a b, String.eqb (a +:+ String " " b) "" = false).
  { intros [|c a] b; reflexivity. }
  split; [reflexivity|]. split; [|split; [|split]].
  - intros h Hh. rewrite authenticateToken_bearer. unfold bearer_token.
    destruct (String.eqb h ""); [reflexivity|].
    now rewrite (split_spaceless h EmptyString Hh).
  - intros scheme tok Hscheme. rewrite authenticateToken_bearer. unfold bearer_token.
    rewrite Hnonempty, (split_first_field scheme EmptyString _ Hscheme). reflexivity.
  - intros scheme tok Hscheme Htok Hne. rewrite authenticateToken_bearer. unfold bearer_token.
    rewrite Hnonempty, (split_first_field scheme EmptyString _ Hscheme).
    rewrite (split_spaceless tok EmptyString Htok). simpl.
    change (String.rev (String.rev_app tok "")) with (String.rev (String.rev tok)).
    rewrite rev_rev. destruct (String.eqb_spec tok ""); [contradiction|]. simpl.
    destruct (verifyToken tok t); reflexivity.
  - intros authorization claims. rewrite authenticateToken_bearer. unfold optionalAuth.
    destruct (Js.truthy_string (bearer_token authorization)); simpl.
    + destruct (verifyToken _ t) as [c|]; split; intros [= ->]; reflexivity.
    + split; discriminate.
Qed.


End AccountExtras.

(** X14 on the header ["Token token:a@b.com"], whose scheme is not
    ["Bearer"]. *)
Lemma guards_read_the_second_field_witness :
  @authenticateToken Sample.auth (Some "Token token:a@b.com") 0 = inl (1, "a@b.com").
Proof.
  destruct (@guards_read_the_second_field Sample.auth 0) as [_ [_ [_ [Hsecond _]]]].
  exact (Hsecond "Token" "token:a@b.com" eq_refl eq_refl ltac:(discriminate)).
Defined.


(** ** Tracking and untracking *)

Lemma filter_complement {A : Type} (f : A -> bool) (l : list A) :
  List.filter f l = [] -> List.filter (fun x => negb (f x)) l = l.
Proof.
  induction l as [|x l IH]; [reflexivity|]. simpl.
  destruct (f x); [discriminate|]. intros Hnil. simpl. now rewrite IH.
Qed.

Lemma filter_after_complement {A : Type} (f g : A -> bool) (l : list A) :
  (forall x, g x = true -> f x = false) ->
  List.filter g (List.filter (fun x => negb (f x)) l) = List.filter g l.
Proof.
  intros Hdisjoint. induction l as [|x l IH]; [reflexivity|]. simpl.
  destruct (f x) eqn:Hf; simpl.
  - destruct (g x) eqn:Hg; [|exact IH]. rewrite (Hdisjoint x Hg) in Hf. discriminate.
  - destruct (g x); now rewrite IH.
Qed.

Lemma filter_of_complement {A : Type} (f : A -> bool) (l : list A) :
  List.filter f (List.filter (fun x => negb (f x)) l) = [].
Proof.
  induction l as [|x l IH]; [reflexivity|]. simpl.
  destruct (f x) eqn:Hf; simpl; [exact IH | now rewrite Hf].
Qed.

Lemma set_user_tracked_books_same db :
  set_user_tracked_books (user_tracked_books db) (user_tracked_books_seq db) db = db.
Proof. now destruct db. Qed.

Lemma untrackBook_integer `{Postgres} uid bookId bid db :
  int4_in bookId = Some bid ->
  untrackBook uid bookId db
  = (json (BSuccess "Book untracked") fresh_response,
     set_user_tracked_books
       (List.filter (fun r => negb ((utb_user_id r =? uid) && (utb_book_id r =? bid)))
                    (user_tracked_books db))
       (user_tracked_books_seq db) db).
Proof.
  intros Hid. unfold untrackBook, try_catch, bind, delete_user_tracked_book. now rewrite Hid.
Qed.

Lemma untrackBook_refused `{Postgres} uid bookId db :
  int4_in bookId = None ->
  untrackBook uid bookId db = (error_response 500 "Failed to untrack book", db).
Proof.
  intros Hid. unfold untrackBook, try_catch, bind, delete_user_tracked_book. now rewrite Hid.
Qed.

Lemma untrack_rows_gone `{Postgres} uid bookId bid db :
  int4_in bookId = Some bid ->
  tracking_rows uid bid (snd (untrackBook uid bookId db)) = []
  /\ books (snd (untrackBook uid bookId db)) = books db.
Proof.
  intros Hid. rewrite (untrackBook_integer _ _ _ _ Hid). split; [|reflexivity].
  unfold tracking_rows. cbn [snd user_tracked_books set_user_tracked_books].
  apply (filter_of_complement
           (fun r => (utb_user_id r =? uid) && (utb_book_id r =? bid))%bool).
Qed.

(** An id beyond 32 bits is refused like a text that is no integer. *)
Lemma int4_in_range `{Postgres} s n :
  int4_in s = Some n -> -2147483648 <= n <= 2147483647.
Proof.
  unfold int4_in. destruct (integer_in s) as [m|]; [|discriminate].
  destruct ((-2147483648 <=? m) && (m <=? 2147483647))%bool eqn:Hrange; [|discriminate].
  intros [= <-]. apply andb_prop in Hrange as [Hlow Hhigh]. lia.
Qed.

(** X16. Untracking a book whose id, the URL segment, is an integer of the
    [INTEGER] column answers with the success body. It deletes every row of
    that (user, book) pair and no row of any other pair; untracking a pair
    that is not tracked changes nothing at all. A segment that is no such
    integer is answered 500 and changes nothing. Either way a second
    identical request gives the same answer and the same store, and books,
    authors and their links are never touched. *)
Theorem untrack_removes_only_the_pair `{Postgres} uid bookId db :
  (forall bid, int4_in bookId = Some bid ->
     fst (untrackBook uid bookId db) = json (BSuccess "Book untracked") fresh_response
     /\ tracking_rows uid bid (snd (untrackBook uid bookId db)) = []
     /\ (forall u b, (u =? uid) && (b =? bid) = false ->
           tracking_rows u b (snd (untrackBook uid bookId db)) = tracking_rows u b db)
     /\ (tracking_rows uid bid db = [] -> snd (untrackBook uid bookId db) = db))
  /\ (int4_in bookId = None ->
      untrackBook uid bookId db = (error_response 500 "Failed to untrack book", db))
  /\ untrackBook uid bookId (snd (untrackBook uid bookId db)) = untrackBook uid bookId db
  /\ books (snd (untrackBook uid bookId db)) = books db
  /\ authors (snd (untrackBook uid bookId db)) = authors db
  /\ book_authors (snd (untrackBook uid bookId db)) = book_authors db.
Proof.
  destruct (int4_in bookId) as [bid|] eqn:Hid.
  - pose proof (untrackBook_integer uid bookId bid) as Hrun.
    assert (Hgone : forall d, tracking_rows uid bid (snd (untrackBook uid bookId d)) = [])
      by (intros d; apply untrack_rows_gone; exact Hid).
    assert (Hnever : forall d, tracking_rows uid bid d = [] ->
              snd (untrackBook uid bookId d) = d).
    { intros d Hnone. rewrite (Hrun d Hid). cbn [snd]. unfold tracking_rows in Hnone.
      rewrite (filter_complement _ _ Hnone). apply set_user_tracked_books_same. }
    split; [|split; [discriminate|split]].
    + intros bid' [= <-]. split; [now rewrite (Hrun db Hid)|]. split; [apply Hgone|].
      split; [|apply Hnever].
      intros u b Hother. rewrite (Hrun db Hid). unfold tracking_rows.
      cbn [snd user_tracked_books set_user_tracked_books].
      apply (filter_after_complement
               (fun r => (utb_user_id r =? uid) && (utb_book_id r =? bid))%bool).
      intros r Hr. apply andb_prop in Hr as [Hu Hb]. apply Z.eqb_eq in Hu, Hb.
      rewrite Hu, Hb. exact Hother.
    + assert (Hshape : forall d, untrackBook uid bookId d
                = (json (BSuccess "Book untracked") fresh_response,
                   snd (untrackBook uid bookId d)))
        by (intros d; now rewrite (Hrun d Hid)).
      rewrite (Hshape (snd (untrackBook uid bookId db))), (Hnever _ (Hgone db)).
      symmetry. apply Hshape.
    + rewrite (Hrun db Hid). repeat split.
  - pose proof (untrackBook_refused uid bookId db Hid) as Hrun.
    split; [discriminate|]. split; [intros _; exact Hrun|].
    rewrite Hrun. cbn [snd]. rewrite Hrun. repeat split.
Qed.

Lemma insert_user_tracked_book_catalog uid bid db :
  users (snd (insert_user_tracked_book uid bid db)) = users db
  /\ books (snd (insert_user_tracked_book uid bid db)) = books db
  /\ books_seq (snd (insert_user_tracked_book uid bid db)) = books_seq db
  /\ authors (snd (insert_user_tracked_book uid bid db)) = authors db
  /\ authors_seq (snd (insert_user_tracked_book uid bid db)) = authors_seq db
  /\ series (snd (insert_user_tracked_book uid bid db)) = series db
  /\ series_seq (snd (insert_user_tracked_book uid bid db)) = series_seq db
  /\ book_authors (snd (insert_user_tracked_book uid bid db)) = book_authors db.
Proof.
  unfold insert_user_tracked_book. destruct (existsb _ _); [repeat split|].
  destruct (user_exists uid db && book_exists bid db)%bool; repeat split.
Qed.

(** X17. Tracking a book whose external id is already in [books] never
    touches the catalogue: the title, cover, dates, authors and series the
    request carries are ignored, and [books], [authors], [series],
    [book_authors] and their sequences stay as they were. Only the tracking
    table can change. *)
Theorem retrack_leaves_the_catalogue `{Postgres} uid b db id others :
  ids_with (googleBooksId b) (book_keys db) = id :: others ->
  books (snd (trackBook uid b db)) = books db
  /\ books_seq (snd (trackBook uid b db)) = books_seq db
  /\ authors (snd (trackBook uid b db)) = authors db
  /\ authors_seq (snd (trackBook uid b db)) = authors_seq db
  /\ series (snd (trackBook uid b db)) = series db
  /\ series_seq (snd (trackBook uid b db)) = series_seq db
  /\ book_authors (snd (trackBook uid b db)) = book_authors db
  /\ users (snd (trackBook uid b db)) = users db.
Proof.
  intros Hids.
  assert (Hdb : snd (trackBook uid b db) = snd (insert_user_tracked_book uid id db)).
  { unfold trackBook, try_catch, trackBook_body.
    rewrite (bind_returned _ _ _ _ _ (select_book_ids_keys (googleBooksId b) db)), Hids.
    unfold bind, ret.
    destruct (insert_user_tracked_book uid id db) as [[[]|] db1]; reflexivity. }
  rewrite Hdb.
  destruct (insert_user_tracked_book_catalog uid id db)
    as (Hu & Hb & Hbs & Ha & Has & Hs & Hss & Hba).
  repeat split; assumption.
Qed.



Lemma retrack_leaves_the_catalogue_witness :
  ids_with "X1" (book_keys (snd (@trackBook Sample.postgres 1 (Sample.book_x1 ["Ann"]) Sample.db_alice))) = [1]
  /\ authors (snd (@trackBook Sample.postgres 1 (Sample.book_x1 ["Bob"])
                     (snd (@trackBook Sample.postgres 1 (Sample.book_x1 ["Ann"]) Sample.db_alice))))
     = authors (snd (@trackBook Sample.postgres 1 (Sample.book_x1 ["Ann"]) Sample.db_alice)).
Proof.
  split; [reflexivity|].
  apply (@retrack_leaves_the_catalogue Sample.postgres 1 (Sample.book_x1 ["Bob"])
           (snd (@trackBook Sample.postgres 1 (Sample.book_x1 ["Ann"]) Sample.db_alice)) 1 []).
  reflexivity.
Defined.



(** X16 on a tracked book, and on an id one beyond the largest
    [INTEGER]. *)
Lemma untrack_removes_only_the_pair_witness :
  user_tracked_books
    (snd (@trackBook Sample.postgres 1 (Sample.book_x1 ["Ann"]) Sample.db_alice))
  = [{| utb_id := 1; utb_user_id := 1; utb_book_id := 1 |}]
  /\ tracking_rows 1 1
       (snd (@untrackBook Sample.postgres 1 "1"
               (snd (@trackBook Sample.postgres 1 (Sample.book_x1 ["Ann"]) Sample.db_alice))))
     = []
  /\ @untrackBook Sample.postgres 1 "2147483648"
       (snd (@trackBook Sample.postgres 1 (Sample.book_x1 ["Ann"]) Sample.db_alice))
     = (error_response 500 "Failed to untrack book",
        snd (@trackBook Sample.postgres 1 (Sample.book_x1 ["Ann"]) Sample.db_alice)).
Proof.
  split; [reflexivity|]. split.
  - destruct (@untrack_removes_only_the_pair Sample.postgres 1 "1"
                (snd (@trackBook Sample.postgres 1 (Sample.book_x1 ["Ann"]) Sample.db_alice)))
      as (Hinteger & _).
    exact (proj1 (proj2 (Hinteger 1 eq_refl))).
  - destruct (@untrack_removes_only_the_pair Sample.postgres 1 "2147483648"
                (snd (@trackBook Sample.postgres 1 (Sample.book_x1 ["Ann"]) Sample.db_alice)))
      as (_ & Hrefused & _).
    exact (Hrefused eq_refl).
Defined.

(** ** The series of a new book *)






(** ** Tracking an author *)

Lemma author_pair_in uid aid rows :
  existsb (fun r => (uta_user_id r =? uid) && (uta_author_id r =? aid))%bool rows = true
  <-> In (uid, aid) (List.map author_pair_of rows).
Proof.
  rewrite existsb_exists, in_map_iff. split.
  - intros [r [Hin Hkey]]. apply andb_prop in Hkey as [Hu Ha]. apply Z.eqb_eq in Hu, Ha.
    exists r. unfold author_pair_of. split; [congruence | exact Hin].
  - intros [r [Hpair Hin]]. injection Hpair as Hu Ha. exists r. split; [exact Hin|].
    now rewrite Hu, Ha, !Z.eqb_refl.
Qed.




Lemma tracking_inv_empty : tracking_inv empty_db.
Proof. split; [intros r [] | intros r [] | constructor]. Qed.



(** ** The references of the tracking tables *)

Ltac refs_split Hinv :=
  destruct Hinv as [Htb Hta Htn]; split;
  unfold user_exists in *; db_simpl; auto.

Lemma tracking_inv_select_users email : preserves tracking_inv (select_users_by_email email).
Proof. intros db Hinv. exact Hinv. Qed.

Lemma tracking_inv_select_books gid : preserves tracking_inv (select_book_ids gid).
Proof. intros db Hinv. exact Hinv. Qed.

Lemma tracking_inv_insert_user_row email hash name t :
  preserves tracking_inv (insert_user_row email hash name t).
Proof.
  intros db Hinv. unfold insert_user_row.
  destruct (existsb _ (users db)); refs_split Hinv.
  - intros r Hr. destruct (Htb r Hr) as [Hu Hb]. rewrite existsb_app, Hu. auto.
  - intros r Hr. destruct (Hta r Hr) as [Hu Ha]. rewrite existsb_app, Hu. auto.
Qed.

Lemma tracking_inv_insert_book_row gid t c p r : preserves tracking_inv (insert_book_row gid t c p r).
Proof.
  intros db Hinv. unfold insert_book_row. destruct (existsb _ (books db)); refs_split Hinv.
  intros row Hrow. destruct (Htb row Hrow) as [Hu Hb]. rewrite existsb_app, Hb. auto.
Qed.

Lemma tracking_inv_upsert_author_row name : preserves tracking_inv (upsert_author_row name).
Proof.
  intros db Hinv. unfold upsert_author_row.
  pose proof (upsert_keeps_rows author_id author_name Build_AuthorRow
                author_eta name (authors_seq db) (authors db)) as Hk.
  destruct (upsert_by_name _ _ _ _ _ _) as [id rows]. simpl in Hk.
  refs_split Hinv.
  intros row Hrow. destruct (Hta row Hrow) as [Hu Ha].
  split; [exact Hu | exact (existsb_weaken _ _ _ Hk Ha)].
Qed.

Lemma tracking_inv_upsert_series_row name : preserves tracking_inv (upsert_series_row name).
Proof.
  intros db Hinv. unfold upsert_series_row.
  destruct (upsert_by_name _ _ _ _ _ _) as [id rows]. refs_split Hinv.
Qed.

Lemma tracking_inv_insert_book_author bid aid order :
  preserves tracking_inv (insert_book_author bid aid order).
Proof.
  intros db Hinv. unfold insert_book_author.
  destruct (existsb _ (book_authors db)); [exact Hinv|].
  destruct (book_exists bid db && author_exists aid db)%bool; [|exact Hinv].
  refs_split Hinv.
Qed.

Lemma tracking_inv_update_book_series sid bid :
  preserves tracking_inv (update_book_series sid bid).
Proof.
  intros db Hinv. unfold update_book_series.
  destruct (negb (book_exists bid db)); [exact Hinv|].
  destruct (series_exists sid db); [|exact Hinv].
  refs_split Hinv.
  intros row Hrow. destruct (Htb row Hrow) as [Hu Hb]. split; [exact Hu|].
  rewrite existsb_exists in Hb |- *. destruct Hb as [b0 [Hin Hid]].
  eexists. split; [apply in_map; exact Hin|].
  destruct (book_id b0 =? bid); exact Hid.
Qed.

Lemma tracking_inv_insert_user_tracked_book uid bid :
  preserves tracking_inv (insert_user_tracked_book uid bid).
Proof.
  intros db Hinv. unfold insert_user_tracked_book.
  destruct (existsb _ (user_tracked_books db)); [refs_split Hinv|].
  destruct (user_exists uid db && book_exists bid db)%bool eqn:Hfk; [|refs_split Hinv].
  apply andb_prop in Hfk as [Hu Hb]. refs_split Hinv.
  intros row Hrow. apply in_app_or in Hrow as [Hrow|[<-|[]]]; [now apply Htb|].
  split; [exact Hu | exact Hb].
Qed.

Lemma tracking_inv_insert_user_tracked_author uid aid :
  preserves tracking_inv (insert_user_tracked_author uid aid).
Proof.
  intros db Hinv. unfold insert_user_tracked_author.
  destruct (existsb _ (user_tracked_authors db)) eqn:Hex; [refs_split Hinv|].
  destruct (user_exists uid db && author_exists aid db)%bool eqn:Hfk; [|refs_split Hinv].
  apply andb_prop in Hfk as [Hu Ha]. refs_split Hinv.
  - intros row Hrow. apply in_app_or in Hrow as [Hrow|[<-|[]]]; [now apply Hta|].
    split; [exact Hu | exact Ha].
  - rewrite List.map_app. simpl. apply NoDup_snoc; [exact Htn|].
    intros Hin. apply (author_pair_in uid aid) in Hin. congruence.
Qed.

Lemma tracking_inv_delete_user_tracked_book_row uid bid :
  preserves tracking_inv (delete_user_tracked_book_row uid bid).
Proof.
  intros db Hinv. unfold delete_user_tracked_book_row. refs_split Hinv.
  intros row Hrow. apply filter_In in Hrow as [Hrow _]. now apply Htb.
Qed.

Lemma tracking_inv_delete_user_tracked_author_row uid aid :
  preserves tracking_inv (delete_user_tracked_author_row uid aid).
Proof.
  intros db Hinv. unfold delete_user_tracked_author_row. refs_split Hinv.
  - intros row Hrow. apply filter_In in Hrow as [Hrow _]. now apply Hta.
  - now apply NoDup_map_filter.
Qed.

Lemma tracking_inv_insert_user email hash name t :
  preserves tracking_inv (insert_user email hash name t).
Proof.
  unfold insert_user. repeat (apply preserves_coerced; intros).
  apply tracking_inv_insert_user_row.
Qed.

Lemma tracking_inv_insert_book `{Postgres} gid t c p r :
  preserves tracking_inv (insert_book gid t c p r).
Proof.
  unfold insert_book. repeat (apply preserves_coerced; intros).
  apply tracking_inv_insert_book_row.
Qed.

Lemma tracking_inv_upsert_author name : preserves tracking_inv (upsert_author name).
Proof. unfold upsert_author. apply preserves_coerced, tracking_inv_upsert_author_row. Qed.

Lemma tracking_inv_upsert_series name : preserves tracking_inv (upsert_series name).
Proof. unfold upsert_series. apply preserves_coerced, tracking_inv_upsert_series_row. Qed.

Lemma tracking_inv_delete_user_tracked_book `{Postgres} uid bookId :
  preserves tracking_inv (delete_user_tracked_book uid bookId).
Proof.
  unfold delete_user_tracked_book.
  apply preserves_coerced, tracking_inv_delete_user_tracked_book_row.
Qed.

Lemma tracking_inv_delete_user_tracked_author `{Postgres} uid authorId :
  preserves tracking_inv (delete_user_tracked_author uid authorId).
Proof.
  unfold delete_user_tracked_author.
  apply preserves_coerced, tracking_inv_delete_user_tracked_author_row.
Qed.

Lemma tracking_inv_link_authors bid names :
  forall i, preserves tracking_inv (link_authors bid i names).
Proof.
  induction names as [|name rest IH]; intros i; [apply preserves_ret|].
  simpl. apply preserves_bind; [apply tracking_inv_upsert_author|]. intros authorId.
  apply preserves_bind; [apply tracking_inv_insert_book_author|]. intros _. apply IH.
Qed.

Lemma tracking_inv_create_book `{Postgres} b : preserves tracking_inv (create_book b).
Proof.
  unfold create_book. apply preserves_bind; [apply tracking_inv_insert_book|]. intros newBook.
  apply preserves_bind.
  { destruct (tb_authors b) as [[|a l]|];
      [apply preserves_ret | apply tracking_inv_link_authors | apply preserves_ret]. }
  intros _. apply preserves_bind; [|intros _; apply preserves_ret].
  destruct (Js.truthy_string (tb_series b) && _)%bool; [|apply preserves_ret].
  apply preserves_bind; [apply tracking_inv_upsert_series|]. intros seriesId.
  apply tracking_inv_update_book_series.
Qed.

Section ReachableReferences.
Context `{Auth} `{Postgres}.

Lemma tracking_inv_perform op db : tracking_inv db -> tracking_inv (snd (perform op db)).
Proof.
  intros Hinv. destruct op as [b env|b env|uid b|uid name|uid bid|uid aid]; cbn [perform].
  - unfold register. destruct (register_errors b); [|exact Hinv]. cbv zeta.
    apply preserves_try_catch; [|exact Hinv].
    apply preserves_bind; [apply tracking_inv_select_users|]. intros existing.
    destruct (0 <? length existing)%nat; [apply preserves_ret|].
    apply preserves_bind; [apply tracking_inv_insert_user|]. intros user. apply preserves_ret.
  - unfold login. destruct (login_errors b); [|exact Hinv]. cbv zeta.
    apply preserves_try_catch; [|exact Hinv].
    apply preserves_bind; [apply tracking_inv_select_users|]. intros result.
    destruct result as [|user rest]; [apply preserves_ret|].
    apply preserves_bind; [apply preserves_coerced; intros; apply preserves_ret|].
    intros isValidPassword. destruct (negb _); apply preserves_ret.
  - unfold trackBook. apply preserves_try_catch; [|exact Hinv]. unfold trackBook_body.
    apply preserves_bind; [apply tracking_inv_select_books|]. intros bookResult.
    apply preserves_bind.
    { destruct bookResult; [apply tracking_inv_create_book | apply preserves_ret]. }
    intros bookId. apply preserves_bind; [apply tracking_inv_insert_user_tracked_book|].
    intros _. apply preserves_ret.
  - unfold trackAuthor. apply preserves_try_catch; [|exact Hinv].
    apply preserves_bind; [apply tracking_inv_upsert_author|]. intros authorId.
    apply preserves_bind; [apply tracking_inv_insert_user_tracked_author|].
    intros _. apply preserves_ret.
  - unfold untrackBook. apply preserves_try_catch; [|exact Hinv].
    apply preserves_bind; [apply tracking_inv_delete_user_tracked_book|].
    intros _. apply preserves_ret.
  - unfold untrackAuthor. apply preserves_try_catch; [|exact Hinv].
    apply preserves_bind; [apply tracking_inv_delete_user_tracked_author|].
    intros _. apply preserves_ret.
Qed.

(** X22. Whatever sequence of register, login, track-book, track-author,
    untrack-book and untrack-author requests the server has handled since
    the tables were created, with whatever bodies, ids and user ids and
    whether they succeeded or failed, the store satisfies the constraints
    of the schema: emails,
    author names and series names are unique, ids are below their
    sequences, every author link and every tracking row refers to rows that
    exist, and no (user, book) or (user, author) pair is tracked twice. *)
Theorem handlers_keep_the_schema db : reachable db -> db_inv db /\ tracking_inv db.
Proof.
  induction 1 as [|op db _ [IHd IHt]].
  - split; [apply db_inv_empty | apply tracking_inv_empty].
  - split; [now apply db_inv_perform | now apply tracking_inv_perform].
Qed.

End ReachableReferences.

Lemma handlers_keep_the_schema_witness :
  db_inv (snd (@perform Sample.auth Sample.postgres
                 (OpTrackBook 1 (Sample.book_x1 ["Ann"; "Bob"]))
                 (snd (@perform Sample.auth Sample.postgres
                         (OpRegister Fixture.newcomer Sample.auth_env) empty_db))))
  /\ tracking_inv (snd (@perform Sample.auth Sample.postgres
                          (OpTrackBook 1 (Sample.book_x1 ["Ann"; "Bob"]))
                          (snd (@perform Sample.auth Sample.postgres
                                  (OpRegister Fixture.newcomer Sample.auth_env) empty_db)))).
Proof.
  apply (@handlers_keep_the_schema Sample.auth Sample.postgres).
  apply reachable_step, reachable_step, reachable_empty.
Defined.

(** ** Untracking an author *)

Lemma untrackAuthor_integer `{Postgres} uid authorId aid db :
  int4_in authorId = Some aid ->
  untrackAuthor uid authorId db
  = (json (BSuccess "Author untracked") fresh_response,
     set_user_tracked_authors
       (List.filter (fun r => negb ((uta_user_id r =? uid) && (uta_author_id r =? aid)))
                    (user_tracked_authors db))
       (user_tracked_authors_seq db) db).
Proof.
  intros Hid. unfold untrackAuthor, try_catch, bind, delete_user_tracked_author.
  now rewrite Hid.
Qed.

(** X23. Untracking an author whose id, the URL segment, is an integer of
    the [INTEGER] column answers with the success body; it deletes every
    row of that (user, author) pair and no row of any other pair. A
    segment that is no such integer is answered 500 and changes nothing.
    Either way the author and the tracked books stay, and the constraints
    of the schema are kept. *)
Theorem untrack_author_removes_only_the_pair `{Postgres} uid authorId db :
  (forall aid, int4_in authorId = Some aid ->
     fst (untrackAuthor uid authorId db) = json (BSuccess "Author untracked") fresh_response
     /\ author_tracking_rows uid aid (snd (untrackAuthor uid authorId db)) = []
     /\ (forall u a, (u =? uid) && (a =? aid) = false ->
           author_tracking_rows u a (snd (untrackAuthor uid authorId db))
           = author_tracking_rows u a db))
  /\ (int4_in authorId = None ->
      untrackAuthor uid authorId db = (error_response 500 "Failed to untrack author", db))
  /\ authors (snd (untrackAuthor uid authorId db)) = authors db
  /\ user_tracked_books (snd (untrackAuthor uid authorId db)) = user_tracked_books db
  /\ (db_inv db -> db_inv (snd (untrackAuthor uid authorId db)))
  /\ (tracking_inv db -> tracking_inv (snd (untrackAuthor uid authorId db))).
Proof.
  assert (Hkeep : forall P : DB -> Prop,
            (forall u a, preserves P (delete_user_tracked_author u a)) ->
            P db -> P (snd (untrackAuthor uid authorId db))).
  { intros P HP Hdb. unfold untrackAuthor. apply preserves_try_catch; [|exact Hdb].
    apply preserves_bind; [apply HP|]. intros _. apply preserves_ret. }
  assert (Hschema : (db_inv db -> db_inv (snd (untrackAuthor uid authorId db)))
                    /\ (tracking_inv db -> tracking_inv (snd (untrackAuthor uid authorId db)))).
  { split; apply Hkeep; intros;
      [apply db_inv_delete_user_tracked_author | apply tracking_inv_delete_user_tracked_author]. }
  destruct (int4_in authorId) as [aid|] eqn:Hid.
  - pose proof (untrackAuthor_integer uid authorId aid db Hid) as Hrun.
    split; [|split; [discriminate|]].
    + intros aid' [= <-]. rewrite Hrun. split; [reflexivity|].
      unfold author_tracking_rows. cbn [snd user_tracked_authors set_user_tracked_authors].
      split.
      * apply (filter_of_complement
                 (fun r => (uta_user_id r =? uid) && (uta_author_id r =? aid))%bool).
      * intros u a Hother.
        apply (filter_after_complement
                 (fun r => (uta_user_id r =? uid) && (uta_author_id r =? aid))%bool).
        intros r Hr. apply andb_prop in Hr as [Hu Ha]. apply Z.eqb_eq in Hu, Ha.
        rewrite Hu, Ha. exact Hother.
    + rewrite Hrun in Hschema |- *. cbn [snd] in *. split; [reflexivity|].
      split; [reflexivity | exact Hschema].
  - assert (Hrun : untrackAuthor uid authorId db
              = (error_response 500 "Failed to untrack author", db)).
    { unfold untrackAuthor, try_catch, bind, delete_user_tracked_author. now rewrite Hid. }
    split; [discriminate|]. split; [intros _; exact Hrun|].
    rewrite Hrun in Hschema |- *. cbn [snd] in *. split; [reflexivity|].
    split; [reflexivity | exact Hschema].
Qed.

(** X23 on an author that user 1 tracks, and on an id one beyond the
    largest [INTEGER]. *)
Lemma untrack_author_removes_only_the_pair_witness :
  user_tracked_authors (snd (trackAuthor 1 "Ursula" Sample.db_alice))
  = [{| uta_id := 1; uta_user_id := 1; uta_author_id := 1 |}]
  /\ author_tracking_rows 1 1
       (snd (@untrackAuthor Sample.postgres 1 "1"
               (snd (trackAuthor 1 "Ursula" Sample.db_alice)))) = []
  /\ @untrackAuthor Sample.postgres 1 "2147483648"
       (snd (trackAuthor 1 "Ursula" Sample.db_alice))
     = (error_response 500 "Failed to untrack author",
        snd (trackAuthor 1 "Ursula" Sample.db_alice)).
Proof.
  split; [reflexivity|]. split.
  - destruct (@untrack_author_removes_only_the_pair Sample.postgres 1 "1"
                (snd (trackAuthor 1 "Ursula" Sample.db_alice))) as (Hinteger & _).
    exact (proj1 (proj2 (Hinteger 1 eq_refl))).
  - destruct (@untrack_author_removes_only_the_pair Sample.postgres 1 "2147483648"
                (snd (trackAuthor 1 "Ursula" Sample.db_alice))) as (_ & Hrefused & _).
    exact (Hrefused eq_refl).
Defined.
